(** * seedsigner.gui.components: text layout, centering and the font cache

    A shallow embedding of [src/seedsigner/gui/components.py].

    Python [int] values are [Z].  The floats of the source only ever hold an
    integer scaled by a power of two ([x / 2], [0.25 * x]) or the quotient of
    two integers that is truncated at once.  The layout is modelled with
    exact rationals [Q] in their place; [Py.binary64] is the IEEE double
    CPython computes with, and the two agree under [int] as long as the
    integer that is divided or scaled is below [2 ^ 53] in magnitude (lemmas
    [int_float_truediv] and [int_float_quarter]).  Statements about lengths
    that a caller chooses carry that bound.
    Strings are [string]; [dict]s are [gmap]; lists are [list].  The font
    engine (PIL's FreeType binding) is outside the repository and enters as a
    parameter. *)

From Stdlib Require Import ZArith QArith Qround Ascii String.
From stdpp Require Import gmap strings list.

Local Open Scope Z_scope.

(** ** Python arithmetic *)

Module Py.

(** [int(x)] on a float: truncation toward zero. *)
Definition int (x : Q) : Z := Z.quot (Qnum x) (Z.pos (Qden x)).

(** [math.ceil(x)]. *)
Definition ceil (x : Q) : Z := Qceiling x.

(** [a / b] on two ints with [b] known to be non-zero (true division),
    taken exactly. CPython rounds the quotient to a double, [float_truediv]
    below; [int] does not show the rounding while [a] is below [2 ^ 53] in
    magnitude (lemma [int_float_truediv]). *)
Definition truediv (a b : Z) : Q := Qdiv (inject_Z a) (inject_Z b).

(** [" ".join(ws)]. *)
Definition join (ws : list string) : string := String.concat " " ws.

(** [s.split(" ")]: cut at every single space; never returns the empty
    list. *)
Fixpoint split (s : string) : list string :=
  match s with
  | EmptyString => [EmptyString]
  | String c s' =>
      if Ascii.eqb c " "%char then EmptyString :: split s'
      else match split s' with
           | [] => [String c EmptyString]
           | w :: ws => String c w :: ws
           end
  end.

(** The position a slice bound [i] denotes in a list of length [n]:
    negative bounds count from the end, and bounds are clipped. *)
Definition bound (n : nat) (i : Z) : nat :=
  if i <? 0 then Z.to_nat (Z.max 0 (Z.of_nat n + i)) else Z.to_nat i.

(** [l[0:i]] and [l[i:]]. *)
Definition slice_to {A} (l : list A) (i : Z) : list A :=
  take (bound (length l) i) l.
Definition slice_from {A} (l : list A) (i : Z) : list A :=
  drop (bound (length l) i) l.

(** [len(l)]. *)
Definition len {A} (l : list A) : Z := Z.of_nat (length l).

(** *** Floats as CPython computes them

    A finite IEEE 754 binary64 is [mantissa * 2 ^ exponent] with a mantissa
    of at most 53 bits and an exponent of at least -1074. *)
Record float := {
  mantissa : Z;
  exponent : Z
}.

(** [n / d] rounded to the nearest integer, ties to the even one
    ([0 ≤ n], [0 < d]). *)
Definition round_div (n d : Z) : Z :=
  let q := n / d in
  match 2 * (n mod d) ?= d with
  | Lt => q
  | Gt => q + 1
  | Eq => if Z.even q then q else q + 1
  end.

(** The integer part of the binary logarithm of [n / d] ([0 < n],
    [0 < d]). *)
Definition log2_ratio (n d : Z) : Z :=
  let k := Z.log2 n - Z.log2 d in
  if d * 2 ^ Z.max 0 k <=? n * 2 ^ Z.max 0 (- k) then k else k - 1.

(** The double nearest to [n / d] ([0 < d]), ties to even: the ratio is
    rounded to an integer number of units in the last place of its binade
    (of the smallest binade for a subnormal). [None] when the result would
    be [2 ^ 1024] or more, where CPython raises [OverflowError]. *)
Definition binary64 (n d : Z) : option float :=
  let e := Z.max (-1074) (log2_ratio (Z.abs n) d - 52) in
  let m := round_div (Z.abs n * 2 ^ Z.max 0 (- e)) (d * 2 ^ Z.max 0 e) in
  if 2 ^ 1024 <=? m * 2 ^ e then None
  else Some {| mantissa := Z.sgn n * m; exponent := e |}.

(** [float(i)], as in [0.25 * i]. *)
Definition float_of_int (i : Z) : option float := binary64 i 1.

(** [a / b] on two ints: the correctly rounded quotient; [None] also for
    the [ZeroDivisionError] of [b = 0]. *)
Definition float_truediv (a b : Z) : option float :=
  if b =? 0 then None else binary64 (Z.sgn b * a) (Z.abs b).

(** [x * y] on two floats; [None] where the product is beyond the doubles
    (an infinity, which [int] refuses). *)
Definition float_mul (x y : float) : option float :=
  let e := exponent x + exponent y in
  binary64 (mantissa x * mantissa y * 2 ^ Z.max 0 e) (2 ^ Z.max 0 (- e)).

(** [int(x)] on a float: truncation toward zero. *)
Definition int_of_float (x : float) : Z :=
  if 0 <=? exponent x then mantissa x * 2 ^ exponent x
  else Z.quot (mantissa x) (2 ^ (- exponent x)).

(** [int(a / b)] as the source evaluates it. *)
Definition int_truediv (a b : Z) : option Z :=
  int_of_float <$> float_truediv a b.

End Py.

(** ** Module constants *)

Definition EDGE_PADDING : Z := 8.
Definition COMPONENT_PADDING : Z := 8.
Definition TOP_NAV_TITLE_FONT_SIZE : Z := 19.
Definition BODY_FONT_NAME : string := "OpenSans-Regular".
Definition BODY_FONT_SIZE : Z := 17.
Definition BODY_LINE_SPACING : Q := 1 # 4.   (* 0.25 *)
Definition BODY_LINE_SPACING_binary64 : Py.float :=
  {| Py.mantissa := 1; Py.exponent := -2 |}.
Definition BUTTON_FONT_NAME : string := "OpenSans-SemiBold".
Definition BUTTON_FONT_SIZE : Z := 18.

(** ** Fonts *)

(** What the layout code asks of a loaded font: [getsize(text)],
    [getoffset(text)], [getbbox(text, anchor='lt')] and [getmetrics()]. *)
Record FontMetrics := {
  getsize : string → Z * Z;
  getoffset : string → Z * Z;
  getbbox : string → Z * Z * Z * Z;
  getmetrics : Z * Z
}.

(** A font object returned by [ImageFont.truetype]: every call creates a new
    object, whose identity is [oid]. *)
Record FreeTypeFont := {
  oid : nat;
  face : FontMetrics
}.

(** The class attributes of [Fonts]: the cache [fonts], a dict of dicts, and
    (ghost) the log of the [ImageFont.truetype] calls made so far. *)
Record Fonts := {
  fonts : gmap string (gmap Z FreeTypeFont);
  loaded : list (string * Z)
}.

Definition Fonts_initial : Fonts := {| fonts := ∅; loaded := [] |}.

Section FontEngine.

(** [ImageFont.truetype(<font_path>/<font_name>.ttf, size)], taken to
    succeed: the font files ship with the program. [get_font] is
    [Fonts.get_font] with such an engine; [Fonts_get_font] below is the
    function with loads that can fail. *)
Variable truetype : string → Z → FontMetrics.

Definition get_font (cls : Fonts) (font_name : string) (size : Z)
  : FreeTypeFont * Fonts :=
  (* if font_name not in cls.fonts: cls.fonts[font_name] = {} *)
  let fonts1 :=
    match fonts cls !! font_name with
    | None => <[font_name := ∅]> (fonts cls)
    | Some _ => fonts cls
    end in
  let by_size := default ∅ (fonts1 !! font_name) in
  (* if size not in cls.fonts[font_name]: load it *)
  match by_size !! size with
  | None =>
      let f := {| oid := length (loaded cls); face := truetype font_name size |} in
      (f, {| fonts := <[font_name := <[size := f]> by_size]> fonts1;
             loaded := loaded cls ++ [(font_name, size)] |})
  | Some f => (f, {| fonts := fonts1; loaded := loaded cls |})
  end.

End FontEngine.

Section FontFiles.

(** [ImageFont.truetype(<font_path>/<font_name>.ttf, size)]: the metrics of
    the font it returns, or [None] when it raises (the file is missing or
    cannot be read, the size is invalid). *)
Variable ImageFont_truetype : string → Z → option FontMetrics.

(** [Fonts.get_font] in full. [None] for the font stands for the exception
    of a failed load; the per-name dict made on the way stays in the cache.
    [loaded] logs every call of [ImageFont.truetype], failed or not. *)
Definition Fonts_get_font (cls : Fonts) (font_name : string) (size : Z)
  : option FreeTypeFont * Fonts :=
  (* if font_name not in cls.fonts: cls.fonts[font_name] = {} *)
  let fonts1 :=
    match fonts cls !! font_name with
    | None => <[font_name := ∅]> (fonts cls)
    | Some _ => fonts cls
    end in
  let by_size := default ∅ (fonts1 !! font_name) in
  (* if size not in cls.fonts[font_name]: load it *)
  match by_size !! size with
  | None =>
      let log := loaded cls ++ [(font_name, size)] in
      match ImageFont_truetype font_name size with
      | None => (None, {| fonts := fonts1; loaded := log |})
      | Some metrics =>
          let f := {| oid := length (loaded cls); face := metrics |} in
          (Some f, {| fonts := <[font_name := <[size := f]> by_size]> fonts1;
                      loaded := log |})
      end
  | Some f => (Some f, {| fonts := fonts1; loaded := loaded cls |})
  end.

End FontFiles.

(** ** calc_text_centering *)

Definition calc_text_centering (font : FreeTypeFont) (text : string)
    (is_text_centered : bool) (box_width box_height start_x start_y : Z)
  : Z * Z :=
  let '(offset_x, offset_y) := getoffset (face font) text in
  let '(box_left, box_top, box_right, box_bottom) := getbbox (face font) text in
  let '(ascent, descent) := getmetrics (face font) in
  let text_x :=
    if is_text_centered
    then Py.int (Py.truediv (box_width - (box_right - offset_x)) 2) - offset_x
    else COMPONENT_PADDING in
  let text_y := Py.int (Py.truediv (box_height - (ascent - offset_y)) 2) - offset_y in
  (start_x + text_x, start_y + text_y).

(** The same lines with the two halvings as CPython evaluates them, through
    a double; [None] stands for the [OverflowError] of a quotient beyond the
    range of doubles. [calc_text_centering] above has the halvings exact. *)
Definition calc_text_centering_binary64 (font : FreeTypeFont) (text : string)
    (is_text_centered : bool) (box_width box_height start_x start_y : Z)
  : option (Z * Z) :=
  let '(offset_x, offset_y) := getoffset (face font) text in
  let '(box_left, box_top, box_right, box_bottom) := getbbox (face font) text in
  let '(ascent, descent) := getmetrics (face font) in
  text_x ←
    (if is_text_centered
     then half ← Py.int_truediv (box_width - (box_right - offset_x)) 2;
          Some (half - offset_x)
     else Some COMPONENT_PADDING);
  half ← Py.int_truediv (box_height - (ascent - offset_y)) 2;
  let text_y := half - offset_y in
  Some (start_x + text_x, start_y + text_y).

(** ** Outcomes of running a constructor *)

Inductive exn :=
  | Exception (msg : string)
  | ZeroDivisionError.

(** [OutOfFuel]: the run did not finish within the given number of loop
    iterations and nested calls. *)
Inductive result (A : Type) :=
  | Ok (a : A)
  | Raise (e : exn)
  | OutOfFuel.
Arguments Ok {A} a.
Arguments Raise {A} e.
Arguments OutOfFuel {A}.

#[global] Instance result_bind : MBind result := λ A B k r,
  match r with
  | Ok a => k a
  | Raise e => Raise e
  | OutOfFuel => OutOfFuel
  end.

(** ** TextArea *)

(** One entry of [self.text_lines]: [{"text": ..., "text_x": ...}]. *)
Record TextLine := {
  line_text : string;
  line_text_x : Z
}.

Module TextArea.

(** The dataclass fields. *)
Record init := {
  text : string;
  width : Z;
  height : Z;
  screen_x : Z;
  screen_y : Z;
  background_color : string;
  font_name : string;
  font_size : Z;
  font_color : string;
  is_text_centered : bool;
  supersampling_factor : Z
}.

(** The instance once [__post_init__] has returned: the dataclass fields
    ([width] and [height] as rescaled on the last lines) and the attributes
    the method adds. *)
Record t := {
  dataclass : init;
  font : FreeTypeFont;
  supersampled_width : Z;
  supersampled_height : Z;
  line_spacing : Z;
  text_height : Z;
  text_lines : list TextLine;
  text_width : Z;
  text_y : Z
}.

Definition overflow_error : exn :=
  Exception "Text cannot fit in target rect with this font/size".

(** [self.supersampled_width - (2 * EDGE_PADDING * self.supersampling_factor)],
    the bound both width tests compare against. *)
Definition available_width (self : init) : Z :=
  supersampling_factor self * width self
  - (2 * EDGE_PADDING * supersampling_factor self).

(** Line 113, [int(BODY_LINE_SPACING * self.font_size)], as CPython
    evaluates it: the size is made a float and multiplied; [None] stands for
    the [OverflowError] of a size beyond the range of doubles. *)
Definition line_spacing_binary64 (self : init) : option Z :=
  Py.int_of_float
    <$> (Py.float_of_int (font_size self) ≫= Py.float_mul BODY_LINE_SPACING_binary64).

(** [_add_text_line]: appends to [self.text_lines] and raises
    [self.text_width]; the pair is that part of [self]. *)
Definition _add_text_line (self : init) (st : list TextLine * Z)
    (text : string) (width' : Z) : list TextLine * Z :=
  let text_x :=
    if is_text_centered self
    then Py.int (Py.truediv (supersampling_factor self * width self - width') 2)
    else supersampling_factor self * EDGE_PADDING in
  (st.1 ++ [{| line_text := text; line_text_x := text_x |}],
   if width' >? st.2 then width' else st.2).

(** [_binary_len_search]; [fuel] bounds the depth of the recursion. *)
Fixpoint _binary_len_search (fuel : nat) (fnt : FreeTypeFont) (self : init)
    (words : list string) (min_index max_index : Z) : result (Z * Z) :=
  match fuel with
  | O => OutOfFuel
  | S fuel' =>
      let index := Py.ceil (Py.truediv (max_index + min_index) 2) in
      let index := if index =? 0 then 1 else index in
      let tw := (getsize (face fnt) (Py.join (Py.slice_to words index))).1 in
      if tw >? available_width self then
        let index := if min_index + 1 =? index then index - 1 else index in
        _binary_len_search fuel' fnt self words min_index index
      else if index =? max_index then Ok (index, tw)
      else _binary_len_search fuel' fnt self words index max_index
  end.

(** The [while words:] loop; [fuel] bounds its iterations, [limit] the
    depth of each search. *)
Fixpoint wrap_words (fuel limit : nat) (fnt : FreeTypeFont) (self : init)
    (words : list string) (st : list TextLine * Z)
  : result (list TextLine * Z) :=
  match words with
  | [] => Ok st
  | _ :: _ =>
      match fuel with
      | O => OutOfFuel
      | S fuel' =>
          '(index, tw) ← _binary_len_search limit fnt self words 0 (Py.len words);
          wrap_words fuel' limit fnt self (Py.slice_from words index)
            (_add_text_line self st (Py.join (Py.slice_to words index)) tw)
      end
  end.

Section PostInit.

Variable truetype : string → Z → FontMetrics.

(** Lines 110-181: everything up to the closing rescaling; the result is
    [self] as it stands there, [width], [height] and [text_width] still in
    supersampled form. ([BaseComponent.__post_init__] only fetches the
    renderer, which no layout step reads.) *)
Definition layout (fuel : nat) (cls : Fonts) (self : init) : Fonts * result t :=
  let ssf := supersampling_factor self in
  (* int() of a product of two ints is that product *)
  let '(fnt, cls) := get_font truetype cls (font_name self) (ssf * font_size self) in
  let supersampled_width := ssf * width self in
  let supersampled_height := ssf * height self in
  let line_spacing := Py.int (Qmult BODY_LINE_SPACING (inject_Z (font_size self))) in
  let '(tw, text_height) := getsize (face fnt) (text self) in
  let st := ([], 0) in
  let laid_out (st : list TextLine * Z) (supersampled_height text_y : Z) : t :=
    {| dataclass := self;
       font := fnt;
       supersampled_width := supersampled_width;
       supersampled_height := supersampled_height;
       line_spacing := line_spacing;
       text_height := text_height;
       text_lines := st.1;
       text_width := st.2;
       text_y := text_y |} in
  (cls,
   if tw <? available_width self then
     (* The whole text fits on one line *)
     let st := _add_text_line self st (text self) tw in
     if height self =? 0 then
       Ok (laid_out st text_height 0)
     else
       Ok (laid_out st supersampled_height
             (Py.int (Py.truediv (ssf * supersampled_height - text_height) 2)))
   else
     st ← wrap_words fuel fuel fnt self (Py.split (text self)) st;
     let total_text_height :=
       text_height * Py.len st.1 + line_spacing * (Py.len st.1 - 1) in
     if (height self >? 0)
        && (total_text_height >? supersampled_height + 2 * COMPONENT_PADDING * ssf)
     then Raise overflow_error
     else
       let supersampled_height := total_text_height in
       Ok (laid_out st supersampled_height
             (Py.int (Py.truediv (supersampled_height - total_text_height) 2)))).

(** Lines 183-187: [width], [height] and [text_width] go back to the normal
    scale. Dividing by a zero [supersampling_factor] raises. *)
Definition restore_scale (self : t) : result t :=
  let ssf := supersampling_factor (dataclass self) in
  if ssf =? 0 then Raise ZeroDivisionError
  else
    Ok {| dataclass :=
            {| text := text (dataclass self);
               width := Py.int (Py.truediv (supersampled_width self) ssf);
               height := Py.int (Py.truediv (supersampled_height self) ssf);
               screen_x := screen_x (dataclass self);
               screen_y := screen_y (dataclass self);
               background_color := background_color (dataclass self);
               font_name := font_name (dataclass self);
               font_size := font_size (dataclass self);
               font_color := font_color (dataclass self);
               is_text_centered := is_text_centered (dataclass self);
               supersampling_factor := ssf |};
          font := font self;
          supersampled_width := supersampled_width self;
          supersampled_height := supersampled_height self;
          line_spacing := line_spacing self;
          text_height := text_height self;
          text_lines := text_lines self;
          text_width := Py.int (Py.truediv (text_width self) ssf);
          text_y := text_y self |}.

(** [TextArea(...)]: the dataclass constructor followed by
    [__post_init__]. *)
Definition post_init (fuel : nat) (cls : Fonts) (self : init) : Fonts * result t :=
  let '(cls, r) := layout fuel cls self in
  (cls, r ≫= restore_scale).

End PostInit.

(** The [draw.text] calls of [render], in order: position and text.
    [cur_y] advances by [text_height + line_spacing] after each line. *)
Fixpoint draw_lines (self : t) (lines : list TextLine) (cur_y : Z)
  : list (Z * Z * string) :=
  match lines with
  | [] => []
  | line :: rest =>
      (line_text_x line, cur_y, line_text line)
      :: draw_lines self rest (cur_y + (text_height self + line_spacing self))
  end.

Definition render_text (self : t) : list (Z * Z * string) :=
  let cur_y :=
    if supersampling_factor (dataclass self) >? 1 then text_y self
    else text_y self + screen_y (dataclass self) in
  draw_lines self (text_lines self) cur_y.

End TextArea.

(** ** Buttons and the title bar *)

(** A PIL image, as far as the layout reads it. *)
Module Image.

Record t := {
  width : Z;
  height : Z
}.

End Image.

(** What a widget's constructor or [render] can raise: an icon file that
    cannot be opened, or an attribute read before it was ever assigned. *)
Inductive widget_exn :=
  | FileNotFoundError (filename : string)
  | AttributeError (name : string).

Inductive run (A : Type) :=
  | Done (a : A)
  | Fails (e : widget_exn).
Arguments Done {A} a.
Arguments Fails {A} e.

#[global] Instance run_bind : MBind run := λ A B k r,
  match r with
  | Done a => k a
  | Fails e => Fails e
  end.

(** Reading [self.<name>]: an attribute that was never assigned raises. *)
Definition getattr {A} (name : string) (attr : option A) : run A :=
  match attr with
  | Some a => Done a
  | None => Fails (AttributeError name)
  end.

(** [if s:] on a value that is [None] or a [str]. *)
Definition truthy (s : option string) : bool :=
  match s with
  | Some (String _ _) => true
  | _ => false
  end.

(** The calls [render] makes on the renderer's [draw] and [canvas]. *)
Inductive draw_call :=
  | draw_rounded_rectangle (xy : Z * Z * Z * Z) (fill : string) (radius : Z)
  | draw_rectangle (xy : Z * Z * Z * Z) (fill : string)
  | draw_text (xy : Z * Z) (text : string) (fill : string) (font : FreeTypeFont)
  | canvas_paste (im : Image.t) (box : Z * Z).

Module Button.

(** The dataclass fields. [text] and [icon_name] may be [None]. *)
Record init := {
  text : option string;
  screen_x : Z;
  screen_y : Z;
  width : Z;
  height : Z;
  icon_name : option string;
  icon_y_offset : Z;
  is_icon_inline : bool;
  text_y_offset : Z;
  background_color : string;
  selected_color : string;
  font_name : string;
  font_size : Z;
  font_color : string;
  selected_font_color : string;
  is_text_centered : bool;
  is_selected : bool
}.

(** The instance once [__post_init__] has returned; an attribute the method
    did not assign is [None]. *)
Record t := {
  dataclass : init;
  font : FreeTypeFont;
  text_x : option Z;
  text_y : option Z;
  icon : option Image.t;
  icon_selected : option Image.t;
  icon_x : option Z;
  icon_y : option Z
}.

(** [button.is_selected = value]. *)
Definition set_is_selected (value : bool) (self : t) : t :=
  {| dataclass :=
       {| text := text (dataclass self);
          screen_x := screen_x (dataclass self);
          screen_y := screen_y (dataclass self);
          width := width (dataclass self);
          height := height (dataclass self);
          icon_name := icon_name (dataclass self);
          icon_y_offset := icon_y_offset (dataclass self);
          is_icon_inline := is_icon_inline (dataclass self);
          text_y_offset := text_y_offset (dataclass self);
          background_color := background_color (dataclass self);
          selected_color := selected_color (dataclass self);
          font_name := font_name (dataclass self);
          font_size := font_size (dataclass self);
          font_color := font_color (dataclass self);
          selected_font_color := selected_font_color (dataclass self);
          is_text_centered := is_text_centered (dataclass self);
          is_selected := value |};
     font := font self;
     text_x := text_x self;
     text_y := text_y self;
     icon := icon self;
     icon_selected := icon_selected self;
     icon_x := icon_x self;
     icon_y := icon_y self |}.

Section PostInit.

Variable truetype : string → Z → FontMetrics.

(** [Image.open(<icons directory>/<filename>).convert("RGB")]; [None] when
    the file cannot be opened. *)
Variable Image_open : string → option Image.t.

(** Lines 242-254: [text_x] and [text_y] as first assigned, if at all. *)
Definition place_text (fnt : FreeTypeFont) (self : init) : option Z * option Z :=
  if truthy (text self) then
    let '(x, y) :=
      calc_text_centering fnt (default "" (text self)) (is_text_centered self)
        (width self) (height self - text_y_offset self)
        (screen_x self) (screen_y self + text_y_offset self) in
    (Some x, Some y)
  else if truthy (icon_name self) && is_icon_inline self then
    (Some (screen_x self + Py.int (Py.truediv (width self) 2)),
     Some (screen_y self + Py.int (Py.truediv (height self) 2)))
  else (None, None).

(** [Button(...)]: the dataclass constructor followed by [__post_init__].
    Threads the font cache and the log of the icon files opened. The font
    lookup is [get_font], whose load returns; a font file that cannot be
    loaded makes the constructor raise before anything else is done. *)
Definition post_init (cls : Fonts) (opened : list string) (self : init)
  : Fonts * list string * run t :=
  let '(fnt, cls) := get_font truetype cls (font_name self) (font_size self) in
  let '(text_x, text_y) := place_text fnt self in
  (* Preload the icon and its "_selected" variant *)
  if truthy (icon_name self) then
    let icon_padding := 8 in
    let icon_url := default "" (icon_name self) in
    match Image_open (icon_url +:+ ".png") with
    | None =>
        (cls, opened ++ [icon_url +:+ ".png"],
         Fails (FileNotFoundError (icon_url +:+ ".png")))
    | Some icon =>
        match Image_open (icon_url +:+ "_selected.png") with
        | None =>
            (cls, opened ++ [icon_url +:+ ".png"; icon_url +:+ "_selected.png"],
             Fails (FileNotFoundError (icon_url +:+ "_selected.png")))
        | Some icon_selected =>
            (cls, opened ++ [icon_url +:+ ".png"; icon_url +:+ "_selected.png"],
             if is_icon_inline self then
               text_x ←
                 (if truthy (text self) then
                    x ← getattr "text_x" text_x;
                    if is_text_centered self then
                      (* Shift the text's centering *)
                      Done (Some (x + Py.int (Py.truediv (Image.width icon + icon_padding) 2)))
                    else
                      Done (Some (x + (Image.width icon + icon_padding)))
                  else Done text_x);
               x ← getattr "text_x" text_x;
               y ← getattr "text_y" text_y;
               Done {| dataclass := self;
                       font := fnt;
                       text_x := text_x;
                       text_y := text_y;
                       icon := Some icon;
                       icon_selected := Some icon_selected;
                       icon_x := Some (x - (Image.width icon + icon_padding));
                       icon_y := Some (y + icon_y_offset self) |}
             else
               Done {| dataclass := self;
                       font := fnt;
                       text_x := text_x;
                       text_y := text_y;
                       icon := Some icon;
                       icon_selected := Some icon_selected;
                       icon_x :=
                         Some (screen_x self
                               + Py.int (Py.truediv (width self - Image.width icon) 2));
                       icon_y := Some (screen_y self + icon_y_offset self) |})
        end
    end
  else
    (cls, opened,
     Done {| dataclass := self;
             font := fnt;
             text_x := text_x;
             text_y := text_y;
             icon := None;
             icon_selected := None;
             icon_x := None;
             icon_y := None |}).

End PostInit.

(** [render]: the calls made, in order. *)
Definition render (self : t) : run (list draw_call) :=
  let d := dataclass self in
  let '(background_color, font_color) :=
    if is_selected d then (selected_color d, selected_font_color d)
    else (background_color d, font_color d) in
  let calls :=
    [draw_rounded_rectangle
       (screen_x d, screen_y d, screen_x d + width d, screen_y d + height d)
       background_color COMPONENT_PADDING] in
  calls ←
    (if truthy (text d) then
       x ← getattr "text_x" (text_x self);
       y ← getattr "text_y" (text_y self);
       Done (calls ++ [draw_text (x, y) (default "" (text d)) font_color (font self)])
     else Done calls);
  if truthy (icon_name d) then
    icon ← getattr "icon" (icon self);
    icon ← (if is_selected d then getattr "icon_selected" (icon_selected self)
            else Done icon);
    x ← getattr "icon_x" (icon_x self);
    y ← getattr "icon_y" (icon_y self);
    Done (calls ++ [canvas_paste icon (x, y)])
  else Done calls.

End Button.

(** [Button(text=..., screen_x=..., screen_y=..., width=..., height=...,
    icon_name=..., is_text_centered=...)], the other fields at their
    defaults. *)
Definition Button_new (text icon_name : option string)
    (screen_x screen_y width height : Z) (is_text_centered : bool) : Button.init :=
  {| Button.text := text;
     Button.screen_x := screen_x;
     Button.screen_y := screen_y;
     Button.width := width;
     Button.height := height;
     Button.icon_name := icon_name;
     Button.icon_y_offset := 2;
     Button.is_icon_inline := true;
     Button.text_y_offset := 0;
     Button.background_color := "#2c2c2c";
     Button.selected_color := "orange";
     Button.font_name := BUTTON_FONT_NAME;
     Button.font_size := BUTTON_FONT_SIZE;
     Button.font_color := "#fcfcfc";
     Button.selected_font_color := "black";
     Button.is_text_centered := is_text_centered;
     Button.is_selected := false |}.

(** [IconButton(text=..., icon_name=..., screen_x=..., screen_y=..., width=...,
    height=..., icon_y_offset=...)]: a [Button] whose [is_icon_inline]
    defaults to [False] (and [icon_y_offset] to 8), the other fields at
    [Button]'s defaults. *)
Definition IconButton (text icon_name : option string)
    (screen_x screen_y width height icon_y_offset : Z) : Button.init :=
  {| Button.text := text;
     Button.screen_x := screen_x;
     Button.screen_y := screen_y;
     Button.width := width;
     Button.height := height;
     Button.icon_name := icon_name;
     Button.icon_y_offset := icon_y_offset;
     Button.is_icon_inline := false;
     Button.text_y_offset := 0;
     Button.background_color := "#2c2c2c";
     Button.selected_color := "orange";
     Button.font_name := BUTTON_FONT_NAME;
     Button.font_size := BUTTON_FONT_SIZE;
     Button.font_color := "#fcfcfc";
     Button.selected_font_color := "black";
     Button.is_text_centered := true;
     Button.is_selected := false |}.

Module TopNav.

Record init := {
  text : string;
  width : Z;
  height : Z;
  background_color : string;
  font_name : string;
  font_size : Z;
  font_color : string;
  show_back_button : bool;
  show_power_button : bool;
  is_selected : bool
}.

Record t := {
  dataclass : init;
  font : FreeTypeFont;
  back_button : option Button.t;
  power_button : option Button.t;
  text_x : Z;
  text_y : Z
}.

(** The arguments of the two [IconButton(...)] calls of [__post_init__]. *)
Definition button_width : Z := 32.

Definition back_button_args : Button.init :=
  IconButton None (Some "back") EDGE_PADDING EDGE_PADDING
    button_width button_width 4.

Definition power_button_args (self : init) : Button.init :=
  IconButton None (Some "power")
    (width self - button_width - EDGE_PADDING) EDGE_PADDING
    button_width button_width 4.

Section PostInit.

Variable truetype : string → Z → FontMetrics.
Variable Image_open : string → option Image.t.

(** [TopNav(...)]: the dataclass constructor followed by [__post_init__],
    with font lookups that return, as for [Button]. *)
Definition post_init (cls : Fonts) (opened : list string) (self : init)
  : Fonts * list string * run t :=
  let '(fnt, cls) := get_font truetype cls (font_name self) (font_size self) in
  let '(cls, opened, back_button) :=
    if show_back_button self then
      let '(cls, opened, b) :=
        Button.post_init truetype Image_open cls opened back_button_args in
      (cls, opened, b ≫= λ b, Done (Some b))
    else (cls, opened, Done None) in
  match back_button with
  | Fails e => (cls, opened, Fails e)
  | Done back_button =>
      let '(cls, opened, power_button) :=
        if show_power_button self then
          let '(cls, opened, b) :=
            Button.post_init truetype Image_open cls opened
              (power_button_args self) in
          (cls, opened, b ≫= λ b, Done (Some b))
        else (cls, opened, Done None) in
      match power_button with
      | Fails e => (cls, opened, Fails e)
      | Done power_button =>
          let '(text_x, text_y) :=
            calc_text_centering fnt (text self) true (width self) (height self) 0 0 in
          (cls, opened,
           Done {| dataclass := self;
                   font := fnt;
                   back_button := back_button;
                   power_button := power_button;
                   text_x := text_x;
                   text_y := text_y |})
      end
  end.

End PostInit.

Section SelectedButton.

(** [BaseScreen.RET_CODE__BACK_BUTTON] and [BaseScreen.RET_CODE__POWER_BUTTON],
    constants of [seedsigner.gui.screens]. *)
Variables RET_CODE__BACK_BUTTON RET_CODE__POWER_BUTTON : Z.

(** The [selected_button] property; falling off the end returns [None]. *)
Definition selected_button (self : t) : option Z :=
  if negb (is_selected (dataclass self)) then None
  else if show_back_button (dataclass self) then Some RET_CODE__BACK_BUTTON
  else if show_power_button (dataclass self) then Some RET_CODE__POWER_BUTTON
  else None.

End SelectedButton.

(** [render]: the calls made, in order, and [self] with the selection copied
    to the buttons it shows. *)
Definition render (self : t) : run (t * list draw_call) :=
  let d := dataclass self in
  let calls := [draw_rectangle (0, 0, width d, height d) (background_color d)] in
  '(back_button, calls) ←
    (if show_back_button d then
       b ← getattr "back_button" (back_button self);
       let b := Button.set_is_selected (is_selected d) b in
       cs ← Button.render b;
       Done (Some b, calls ++ cs)
     else Done (back_button self, calls));
  '(power_button, calls) ←
    (if show_power_button d then
       b ← getattr "power_button" (power_button self);
       let b := Button.set_is_selected (is_selected d) b in
       cs ← Button.render b;
       Done (Some b, calls ++ cs)
     else Done (power_button self, calls));
  Done ({| dataclass := d;
           font := font self;
           back_button := back_button;
           power_button := power_button;
           text_x := text_x self;
           text_y := text_y self |},
        calls ++ [draw_text (text_x self, text_y self) (text d) (font_color d) (font self)]).

End TopNav.

(** ** Specification vocabulary *)

(** Python's built-in [round] on a float: to the nearest integer, ties to
    the even one. The source never calls it; the layout's documentation
    speaks of rounding, and the model compares against this. *)
Definition round_half_even (x : Q) : Z :=
  let f := Qfloor x in
  match Qcompare (Qminus x (inject_Z f)) (1 # 2) with
  | Lt => f
  | Gt => f + 1
  | Eq => if Z.even f then f else f + 1
  end.

(** The measured width of the first [k] words joined by single spaces. *)
Definition prefix_width (fnt : FreeTypeFont) (words : list string) (k : nat) : Z :=
  (getsize (face fnt) (Py.join (take k words))).1.

(** A face whose measured width never shrinks when a word is appended. *)
Definition prefix_monotone (fnt : FreeTypeFont) : Prop :=
  ∀ (words : list string) (i j : nat),
    (1 ≤ i ≤ j)%nat → prefix_width fnt words i ≤ prefix_width fnt words j.

(** [k] words fit in [limit] and no longer prefix of [words] does. *)
Definition longest_fit (fnt : FreeTypeFont) (limit : Z)
    (words : list string) (k : nat) : Prop :=
  prefix_width fnt words k ≤ limit
  ∧ ∀ j : nat, (k < j ≤ length words)%nat → limit < prefix_width fnt words j.

(** [lines] cuts [words] into consecutive non-empty runs, each run joined
    by single spaces, where every cut satisfies [good]. *)
Inductive wrapped (good : list string → nat → Prop)
  : list string → list string → Prop :=
  | wrapped_nil : wrapped good [] []
  | wrapped_cons words k rest :
      (1 ≤ k ≤ length words)%nat →
      good words k →
      wrapped good (drop k words) rest →
      wrapped good words (Py.join (take k words) :: rest).

(** The states of the font cache a program can be in: the empty cache and
    whatever [get_font] calls make of it. *)
Inductive reachable (truetype : string → Z → FontMetrics) : Fonts → Prop :=
  | reachable_initial : reachable truetype Fonts_initial
  | reachable_get_font cls font_name size :
      reachable truetype cls →
      reachable truetype (get_font truetype cls font_name size).2.

(** [(font_name, size)] is a key of the two-level cache. *)
Definition cached (cls : Fonts) (font_name : string) (size : Z) : Prop :=
  ∃ by_size f, fonts cls !! font_name = Some by_size ∧ by_size !! size = Some f.

(** The same states when loads can fail: the empty cache and whatever
    [Fonts_get_font] calls, returning or raising, make of it; which font
    files load may differ from call to call. *)
Inductive reachable_loading : Fonts → Prop :=
  | reachable_loading_initial : reachable_loading Fonts_initial
  | reachable_loading_get_font ImageFont_truetype cls font_name size :
      reachable_loading cls →
      reachable_loading (Fonts_get_font ImageFont_truetype cls font_name size).2.

(** Stacked height of [n] lines: [text_height * n + line_spacing * (n - 1)]. *)
Definition stacked_height (text_height line_spacing : Z) {A} (lines : list A) : Z :=
  text_height * Py.len lines + line_spacing * (Py.len lines - 1).

(** The word count a call of [_binary_len_search] measures: the midpoint of
    the range rounded up, and 1 when that is 0. *)
Definition probe (min_index max_index : Z) : Z :=
  let index := (max_index + min_index + 1) / 2 in
  if index =? 0 then 1 else index.

(** The font a [TextArea] is laid out with, and the measured size of its
    whole text. *)
Definition font_of (truetype : string → Z → FontMetrics) (cls : Fonts)
    (self : TextArea.init) : FreeTypeFont :=
  (get_font truetype cls (TextArea.font_name self)
     (TextArea.supersampling_factor self * TextArea.font_size self)).1.

Definition whole_width (fnt : FreeTypeFont) (self : TextArea.init) : Z :=
  (getsize (face fnt) (TextArea.text self)).1.

(** What the wrapping loop guarantees of each cut: the line fits, and on a
    monotone face no longer prefix of the remaining words does. *)
Definition fitted_cut (fnt : FreeTypeFont) (limit : Z)
    (words : list string) (k : nat) : Prop :=
  prefix_width fnt words k ≤ limit
  ∧ (prefix_monotone fnt →
     ∀ j : nat, (k < j ≤ length words)%nat → limit < prefix_width fnt words j).

(** Every word on its own fits in [limit]. *)
Definition words_fit (fnt : FreeTypeFont) (limit : Z) (words : list string) : Prop :=
  Forall (λ w, (getsize (face fnt) w).1 ≤ limit) words.

(** The cache after a sequence of [get_font] calls, made in order. *)
Definition get_fonts (truetype : string → Z → FontMetrics) (cls : Fonts)
    (requests : list (string * Z)) : Fonts :=
  foldl (λ cls r, (get_font truetype cls r.1 r.2).2) cls requests.

(** The [text_x] that [_add_text_line] gives a line of measured width [tw]. *)
Definition line_x (self : TextArea.init) (tw : Z) : Z :=
  if TextArea.is_text_centered self
  then Z.quot (TextArea.supersampling_factor self * TextArea.width self - tw) 2
  else TextArea.supersampling_factor self * EDGE_PADDING.

(** The measured width of a line of a TextArea. *)
Definition line_width (fnt : FreeTypeFont) (line : TextLine) : Z :=
  (getsize (face fnt) (line_text line)).1.

(** Where a call lands: its kind and coordinates, whatever its colours,
    text, font or image. *)
Definition call_place (c : draw_call) : nat * list Z :=
  match c with
  | draw_rounded_rectangle (x0, y0, x1, y1) _ radius => (0%nat, [x0; y0; x1; y1; radius])
  | draw_rectangle (x0, y0, x1, y1) _ => (1%nat, [x0; y0; x1; y1])
  | draw_text (x, y) _ _ _ => (2%nat, [x; y])
  | canvas_paste _ (x, y) => (3%nat, [x; y])
  end.

(** ** A concrete face for worked examples *)

(** A fixed-pitch face: every character is [size] wide and [size] tall, with
    no bearing. *)
Definition fixed_pitch (font_name : string) (size : Z) : FontMetrics :=
  {| getsize := λ s, (size * Z.of_nat (String.length s), size);
     getoffset := λ _, (0, 0);
     getbbox := λ s, (0, 0, size * Z.of_nat (String.length s), size);
     getmetrics := (size, 0) |}.

(** A face that is fixed-pitch, 10 wide per character, except that it
    measures the two words "a b" 1000 wide: appending a word can shrink the
    measured width. *)
Definition shrinking_face (font_name : string) (size : Z) : FontMetrics :=
  {| getsize := λ s,
       (if String.eqb s "a b" then 1000 else 10 * Z.of_nat (String.length s), 10);
     getoffset := λ _, (0, 0);
     getbbox := λ s, (0, 0, 10 * Z.of_nat (String.length s), 10);
     getmetrics := (10, 0) |}.

(** Font files that all load, as fixed-pitch faces, and font files that
    are all missing. *)
Definition fonts_present (font_name : string) (size : Z) : option FontMetrics :=
  Some (fixed_pitch font_name size).

Definition fonts_missing (font_name : string) (size : Z) : option FontMetrics :=
  None.

(** [TextArea(text, width, height, font_size=..., supersampling_factor=...)]
    with the dataclass defaults elsewhere. *)
Definition text_area (text : string) (width height font_size ssf : Z) : TextArea.init :=
  {| TextArea.text := text;
     TextArea.width := width;
     TextArea.height := height;
     TextArea.screen_x := 0;
     TextArea.screen_y := 0;
     TextArea.background_color := "black";
     TextArea.font_name := BODY_FONT_NAME;
     TextArea.font_size := font_size;
     TextArea.font_color := "#fcfcfc";
     TextArea.is_text_centered := true;
     TextArea.supersampling_factor := ssf |}.

(** Icon files that all open, as 24 x 24 images, and icon files that are
    all missing. *)
Definition icons_24 (filename : string) : option Image.t :=
  Some {| Image.width := 24; Image.height := 24 |}.


(** [TopNav(text=..., width=..., height=..., show_back_button=...,
    show_power_button=..., is_selected=...)], the other fields at their
    defaults. *)
Definition TopNav_new (text : string) (width height : Z)
    (show_back_button show_power_button is_selected : bool) : TopNav.init :=
  {| TopNav.text := text;
     TopNav.width := width;
     TopNav.height := height;
     TopNav.background_color := "black";
     TopNav.font_name := "OpenSans-SemiBold";
     TopNav.font_size := TOP_NAV_TITLE_FONT_SIZE;
     TopNav.font_color := "#fcfcfc";
     TopNav.show_back_button := show_back_button;
     TopNav.show_power_button := show_power_button;
     TopNav.is_selected := is_selected |}.

(** * Properties *)

(** ** Arithmetic of the Python operators *)

Lemma int_truediv (a b : Z) : b ≠ 0 → Py.int (Py.truediv a b) = Z.quot a b.
Proof.
  intros Hb. unfold Py.int, Py.truediv, Qdiv, Qinv, inject_Z. simpl.
  destruct b as [|p|p]; [done| |]; simpl.
  - by rewrite Z.mul_1_r, Pos.mul_1_l.
  - rewrite Pos.mul_1_l.
    change (Z.neg p) with (- Z.pos p).
    rewrite Z.quot_opp_r by done.
    replace (a * -1) with (- a) by lia.
    by rewrite Z.quot_opp_l.
Qed.

Lemma int_truediv_2 (a : Z) : Py.int (Py.truediv a 2) = Z.quot a 2.
Proof. by apply int_truediv. Qed.

Lemma ceil_truediv_2 (a : Z) : Py.ceil (Py.truediv a 2) = (a + 1) / 2.
Proof.
  unfold Py.ceil, Qceiling, Qfloor, Py.truediv, Qdiv, Qinv, inject_Z. simpl.
  change (Z.pos (1 * 2)) with 2. rewrite Z.mul_1_r.
  Z.div_mod_to_equations. lia.
Qed.

Lemma int_quarter (n : Z) :
  Py.int (Qmult BODY_LINE_SPACING (inject_Z n)) = Z.quot n 4.
Proof.
  unfold Py.int, BODY_LINE_SPACING, Qmult, inject_Z. simpl.
  change (Z.pos (4 * 1)) with 4. by destruct n.
Qed.

(** ** The doubles behind the divisions *)

Section Binary64.

Lemma pow2_pos (x : Z) : 0 ≤ x → 0 < 2 ^ x.
Proof. intros. by apply Z.pow_pos_nonneg. Qed.

Lemma pow2_split (x y : Z) : 0 ≤ x → 0 ≤ y → 2 ^ (x + y) = 2 ^ x * 2 ^ y.
Proof. intros. by apply Z.pow_add_r. Qed.

(** [log2_ratio n d] is the integer part of the binary logarithm of [n / d]:
    [2 ^ k ≤ n / d < 2 ^ (k + 1)], with the powers cleared of negative
    exponents. *)
Lemma log2_ratio_spec (n d : Z) :
  0 < n → 0 < d →
  let k := Py.log2_ratio n d in
  d * 2 ^ Z.max 0 k ≤ n * 2 ^ Z.max 0 (- k)
  ∧ n * 2 ^ Z.max 0 (- (k + 1)) < d * 2 ^ Z.max 0 (k + 1).
Proof.
  intros Hn Hd. cbv zeta. unfold Py.log2_ratio.
  destruct (Z.log2_spec n Hn) as [Hn1 Hn2].
  destruct (Z.log2_spec d Hd) as [Hd1 Hd2].
  pose proof (Z.log2_nonneg n) as Hln. pose proof (Z.log2_nonneg d) as Hld.
  set (ln := Z.log2 n) in *. set (ld := Z.log2 d) in *.
  replace (Z.succ ln) with (ln + 1) in Hn2 by lia.
  replace (Z.succ ld) with (ld + 1) in Hd2 by lia.
  destruct (_ <=? _) eqn:Htest.
  - apply Z.leb_le in Htest. split; [done|].
    destruct (Z.le_gt_cases 0 (ln - ld + 1)) as [Hk|Hk].
    + rewrite (Z.max_l 0 (- _)), (Z.max_r 0 (ln - ld + 1)) by lia.
      replace (ln + 1) with (ld + (ln - ld + 1)) in Hn2 by lia.
      rewrite pow2_split in Hn2 by lia.
      pose proof (pow2_pos (ln - ld + 1) Hk). simpl. nia.
    + rewrite (Z.max_r 0 (- _)), (Z.max_l 0 (ln - ld + 1)) by lia.
      replace ld with ((ln + 1) + (- (ln - ld + 1))) in Hd1 by lia.
      rewrite pow2_split in Hd1 by lia.
      pose proof (pow2_pos (- (ln - ld + 1)) ltac:(lia)). simpl. nia.
  - apply Z.leb_gt in Htest.
    replace (ln - ld - 1 + 1) with (ln - ld) by lia. split; [|done].
    destruct (Z.le_gt_cases 0 (ln - ld - 1)) as [Hk|Hk].
    + rewrite (Z.max_l 0 (- _)), (Z.max_r 0 (ln - ld - 1)) by lia.
      replace ln with ((ld + 1) + (ln - ld - 1)) in Hn1 by lia.
      rewrite pow2_split in Hn1 by lia.
      pose proof (pow2_pos (ln - ld - 1) Hk). simpl. nia.
    + rewrite (Z.max_r 0 (- _)), (Z.max_l 0 (ln - ld - 1)) by lia.
      replace (ld + 1) with (ln + (- (ln - ld - 1))) in Hd2 by lia.
      rewrite pow2_split in Hd2 by lia.
      pose proof (pow2_pos (- (ln - ld - 1)) ltac:(lia)). simpl. nia.
Qed.

(** Rounding to the nearest integer moves to a neighbour, and up only from
    the half on. *)
Lemma round_div_spec (n d : Z) :
  0 < d →
  Py.round_div n d = n / d
  ∨ (Py.round_div n d = n / d + 1 ∧ d ≤ 2 * (n mod d)).
Proof.
  intros Hd. unfold Py.round_div.
  destruct (Z.compare_spec (2 * (n mod d)) d) as [Heq|Hlt|Hgt].
  - destruct (Z.even _); [by left|right; lia].
  - by left.
  - right. lia.
Qed.


(** The pieces of [binary64] on a non-negative ratio [a / b] (given as
    [(a * c) / (b * c)]) whose numerator is below [2 ^ 53]: no overflow, and
    the rounded value truncates to the integer quotient. *)
Lemma binary64_pieces (a b c : Z) :
  0 ≤ a < 2 ^ 53 → 0 < b → 0 < c →
  let e := Z.max (-1074) (Py.log2_ratio (a * c) (b * c) - 52) in
  let m := Py.round_div (a * c * 2 ^ Z.max 0 (- e)) (b * c * 2 ^ Z.max 0 e) in
  0 ≤ m
  ∧ (2 ^ 1024 <=? m * 2 ^ e) = false
  ∧ (0 ≤ e → m * 2 ^ e = a / b)
  ∧ (e < 0 → m / 2 ^ (- e) = a / b).
Proof.
  intros [Ha0 Ha] Hb Hc. cbv zeta.
  pose proof (pow2_pos 1024 ltac:(done)) as Hbig.
  pose proof (Z.pow_lt_mono_r 2 53 1024 ltac:(done) ltac:(done) ltac:(done)) as Hbig'.
  set (P53 := 2 ^ 53) in *. set (P1024 := 2 ^ 1024) in *.
  destruct (Z.eq_dec a 0) as [->|Hane].
  - rewrite !Z.mul_0_l. set (e := Z.max (-1074) _).
    assert (0 < b * c * 2 ^ Z.max 0 e) as Hd
      by (pose proof (pow2_pos (Z.max 0 e) ltac:(lia)); nia).
    unfold Py.round_div. rewrite Zdiv_0_l, Zmod_0_l.
    replace (2 * 0 ?= _) with Lt by (symmetry; apply Z.compare_lt_iff; lia).
    rewrite Z.mul_0_l, !Zdiv_0_l. split_and!; [done|by apply Z.leb_gt|done|done].
  - assert (0 < a) as Hapos by lia.
    assert (0 < a * c) as Hn by nia. assert (0 < b * c) as Hd by nia.
    destruct (log2_ratio_spec _ _ Hn Hd) as [Hlo Hhi].
    set (k := Py.log2_ratio (a * c) (b * c)) in *.
    assert (k ≤ 52) as Hk.
    { destruct (Z.le_gt_cases k 52) as [|Hgt]; [done|exfalso].
      rewrite (Z.max_r 0 k), (Z.max_l 0 (- k)) in Hlo by lia.
      pose proof (Z.pow_le_mono_r 2 53 k ltac:(done) ltac:(lia)) as Hpow.
      fold P53 in Hpow. change (2 ^ 0) with 1 in Hlo. nia. }
    set (e := Z.max (-1074) (k - 52)). assert (e ≤ 0) as He by lia.
    rewrite (Z.max_r 0 (- e)), (Z.max_l 0 e) by lia.
    change (2 ^ 0) with 1. rewrite Z.mul_1_r.
    pose proof (pow2_pos (- e) ltac:(lia)) as Ht.
    set (t := 2 ^ (- e)) in *.
    pose proof (Z.div_mod a b ltac:(lia)) as Hdiv.
    pose proof (Z.mod_pos_bound a b Hb) as Hmod.
    set (N := a / b) in *. set (r0 := a mod b) in *.
    assert (0 ≤ N) as HN by (apply Z.div_pos; lia).
    pose proof (Z.div_mod (a * c * t) (b * c) ltac:(lia)) as HdivT.
    pose proof (Z.mod_pos_bound (a * c * t) (b * c) Hd) as HmodT.
    destruct (round_div_spec (a * c * t) (b * c) Hd) as [Hm|[Hm Hup]];
      set (m := Py.round_div (a * c * t) (b * c)) in *;
      set (Q := a * c * t / (b * c)) in *; set (R := (a * c * t) mod (b * c)) in *.
    + assert (N * t ≤ m < (N + 1) * t) as Hrange by (rewrite Hm; nia).
      split_and!.
      * nia.
      * apply Z.leb_gt. destruct (Z.eq_dec e 0) as [He0|He0].
        -- rewrite He0. change (2 ^ 0) with 1.
           assert (t = 1) as Ht1 by (subst t; by rewrite He0). nia.
        -- rewrite Z.pow_neg_r by lia. lia.
      * intros He0. assert (e = 0) as -> by lia.
        assert (t = 1) as Ht1 by done. change (2 ^ 0) with 1. nia.
      * intros _. symmetry. apply (Z.div_unique m t N (m - t * N)); lia.
    + assert (Q + 1 < (N + 1) * t) as Hstrict.
      { assert (N * t ≤ Q < (N + 1) * t) as HQ by nia.
        destruct (Z.eq_dec Q ((N + 1) * t - 1)) as [HQeq|]; [exfalso|lia].
        assert (2 * t ≤ b) as Hbt by nia.
        destruct (Z.le_gt_cases (-1074) (k - 52)) as [Hnormal|Hclamped].
        - assert (e = k - 52) as Hek by lia.
          assert (b * 2 ^ 52 ≤ a * t) as Hbinade.
          { destruct (Z.le_gt_cases 0 k) as [Hk0|Hk0].
            - rewrite (Z.max_r 0 k), (Z.max_l 0 (- k)) in Hlo by lia.
              change (2 ^ 0) with 1 in Hlo.
              assert (2 ^ 52 = t * 2 ^ k) as ->.
              { subst t. rewrite <- pow2_split by lia. f_equal. lia. }
              pose proof (pow2_pos k Hk0). nia.
            - rewrite (Z.max_l 0 k), (Z.max_r 0 (- k)) in Hlo by lia.
              change (2 ^ 0) with 1 in Hlo.
              assert (t = 2 ^ 52 * 2 ^ (- k)) as ->.
              { subst t. rewrite <- pow2_split by lia. f_equal. lia. }
              pose proof (pow2_pos (- k) ltac:(lia)).
              pose proof (pow2_pos 52 ltac:(lia)). nia. }
          assert (P53 = 2 * 2 ^ 52) as HP53 by done.
          pose proof (pow2_pos 52 ltac:(lia)). nia.
        - assert (e = -1074) as He' by lia.
          rewrite (Z.max_r 0 (- (k + 1))), (Z.max_l 0 (k + 1)) in Hhi by lia.
          change (2 ^ 0) with 1 in Hhi.
          pose proof (Z.pow_le_mono_r 2 1022 (- (k + 1)) ltac:(done) ltac:(lia)) as Hpow.
          assert (t = 2 ^ 52 * 2 ^ 1022) as Ht'.
          { subst t. rewrite He'. by rewrite <- pow2_split. }
          pose proof (pow2_pos 52 ltac:(lia)) as H52.
          pose proof (pow2_pos 1022 ltac:(lia)) as H1022.
          set (p52 := 2 ^ 52) in *. set (p1022 := 2 ^ 1022) in *.
          set (pk := 2 ^ (- (k + 1))) in *.
          assert (1 < p52) as H52' by (subst p52; done).
          nia. }
      assert (N * t ≤ m < (N + 1) * t) as Hrange by (rewrite Hm; nia).
      split_and!.
      * nia.
      * apply Z.leb_gt. destruct (Z.eq_dec e 0) as [He0|He0].
        -- rewrite He0. change (2 ^ 0) with 1.
           assert (t = 1) as Ht1 by (subst t; by rewrite He0). nia.
        -- rewrite Z.pow_neg_r by lia. lia.
      * intros He0. assert (e = 0) as -> by lia.
        assert (t = 1) as Ht1 by done. change (2 ^ 0) with 1. nia.
      * intros _. symmetry. apply (Z.div_unique m t N (m - t * N)); lia.
Qed.

(** A ratio whose numerator is below [2 ^ 53] in magnitude: the nearest
    double exists, and [int] of it is the quotient truncated toward zero. *)
Lemma binary64_small (a b c : Z) :
  Z.abs a < 2 ^ 53 → 0 < b → 0 < c →
  ∃ f, Py.binary64 (a * c) (b * c) = Some f ∧ Py.int_of_float f = Z.quot a b.
Proof.
  intros Ha Hb Hc.
  destruct (binary64_pieces (Z.abs a) b c ltac:(lia) Hb Hc)
    as (Hm & Hfinite & Hnonneg & Hneg).
  unfold Py.binary64. rewrite Z.abs_mul, (Z.abs_eq c) by lia.
  set (e := Z.max (-1074) _) in *. set (m := Py.round_div _ _) in *.
  rewrite Hfinite. eexists. split; [done|].
  unfold Py.int_of_float. cbn [Py.mantissa Py.exponent].
  rewrite Z.sgn_mul, (Z.sgn_pos c), Z.mul_1_r by lia.
  destruct (Z.leb_spec 0 e) as [He|He].
  - rewrite <- Z.mul_assoc, (Hnonneg He).
    destruct (Z.lt_trichotomy a 0) as [Hlt|[->|Hgt]].
    + rewrite Z.sgn_neg, Z.abs_neq by lia.
      rewrite <- (Z.quot_div_nonneg (- a) b) by lia.
      rewrite Z.quot_opp_l by lia. lia.
    + done.
    + rewrite Z.sgn_pos, Z.abs_eq by lia. rewrite Z.quot_div_nonneg; lia.
  - pose proof (pow2_pos (- e) ltac:(lia)) as Ht.
    destruct (Z.lt_trichotomy a 0) as [Hlt|[->|Hgt]].
    + rewrite Z.sgn_neg by lia. replace (-1 * m) with (- m) by lia.
      rewrite Z.quot_opp_l by lia.
      rewrite Z.quot_div_nonneg, (Hneg He), Z.abs_neq by lia.
      rewrite <- (Z.quot_div_nonneg (- a) b) by lia.
      rewrite Z.quot_opp_l by lia. lia.
    + simpl. by rewrite Z.quot_0_l by lia.
    + rewrite Z.sgn_pos by lia. rewrite Z.mul_1_l.
      rewrite Z.quot_div_nonneg, (Hneg He), Z.abs_eq by lia.
      rewrite Z.quot_div_nonneg; lia.
Qed.

(** [int(a / b)] on operands below [2 ^ 53]: the double that the division
    goes through does not show. *)
Lemma int_float_truediv (a b : Z) :
  Z.abs a < 2 ^ 53 → b ≠ 0 →
  Py.int_of_float <$> Py.float_truediv a b = Some (Z.quot a b).
Proof.
  intros Ha Hb. unfold Py.float_truediv.
  destruct (Z.eqb_spec b 0) as [|_]; [done|].
  destruct (binary64_small (Z.sgn b * a) (Z.abs b) 1) as (f & Hf & Hint);
    [|lia|done|].
  { destruct b as [|p|p]; [done| |];
      [change (Z.sgn (Z.pos p)) with 1|change (Z.sgn (Z.neg p)) with (-1)]; lia. }
  rewrite !Z.mul_1_r in Hf. rewrite Hf. simpl. f_equal. rewrite Hint.
  destruct b as [|p|p]; [done| |].
  - simpl. by destruct a.
  - change (Z.sgn (Z.neg p)) with (-1). change (Z.abs (Z.neg p)) with (Z.pos p).
    change (Z.neg p) with (- Z.pos p).
    replace (-1 * a) with (- a) by lia.
    rewrite Z.quot_opp_l, Z.quot_opp_r by done. done.
Qed.

(** A float made from an int below [2 ^ 53] in magnitude is that int. *)
Lemma float_of_int_small (i : Z) :
  Z.abs i < 2 ^ 53 →
  ∃ s, 0 ≤ s
       ∧ Py.float_of_int i = Some {| Py.mantissa := i * 2 ^ s; Py.exponent := - s |}.
Proof.
  intros Hi.
  destruct (binary64_pieces (Z.abs i) 1 1 ltac:(lia) ltac:(done) ltac:(done))
    as (_ & Hfinite & _ & _).
  unfold Py.float_of_int, Py.binary64.
  rewrite !Z.mul_1_r, Z.mul_1_l in Hfinite.
  set (e := Z.max (-1074) _) in *.
  assert (e ≤ 0) as He.
  { subst e. destruct (Z.eq_dec i 0) as [->|Hne]; [vm_compute; discriminate|].
    destruct (log2_ratio_spec (Z.abs i) 1 ltac:(lia) ltac:(done)) as [Hlo _].
    set (k := Py.log2_ratio (Z.abs i) 1) in *.
    destruct (Z.le_gt_cases k 52) as [|Hgt]; [lia|exfalso].
    rewrite (Z.max_r 0 k), (Z.max_l 0 (- k)) in Hlo by lia.
    pose proof (Z.pow_le_mono_r 2 53 k ltac:(done) ltac:(lia)).
    change (2 ^ 0) with 1 in Hlo. lia. }
  revert Hfinite. rewrite (Z.max_r 0 (- e)), (Z.max_l 0 e) by lia.
  change (2 ^ 0) with 1. rewrite Z.mul_1_l.
  assert (∀ x, Py.round_div x 1 = x) as Hround.
  { intros x. unfold Py.round_div. rewrite Z.div_1_r, Z.mod_1_r. done. }
  rewrite Hround. intros ->. exists (- e). split; [lia|].
  rewrite Z.opp_involutive. do 2 f_equal.
  destruct i; simpl; lia.
Qed.

(** [int(0.25 * i)] on an int below [2 ^ 53] in magnitude. *)
Lemma int_float_quarter (i : Z) :
  Z.abs i < 2 ^ 53 →
  Py.int_of_float
    <$> (Py.float_of_int i ≫= Py.float_mul {| Py.mantissa := 1; Py.exponent := -2 |})
  = Some (Z.quot i 4).
Proof.
  intros Hi. destruct (float_of_int_small i Hi) as (s & Hs & ->). simpl.
  unfold Py.float_mul. cbn [Py.mantissa Py.exponent].
  rewrite (Z.max_l 0 (-2 + - s)), (Z.max_r 0 (- (-2 + - s))) by lia.
  change (2 ^ 0) with 1. rewrite Z.mul_1_l, Z.mul_1_r.
  replace (- (-2 + - s)) with (2 + s) by lia. rewrite pow2_split by lia.
  change (2 ^ 2) with 4.
  pose proof (pow2_pos s Hs).
  destruct (binary64_small i 4 (2 ^ s) Hi ltac:(done) ltac:(done))
    as (f & -> & Hint).
  simpl. by rewrite Hint.
Qed.

End Binary64.

(** ** Strings, joins and slices *)

Lemma split_nonempty (s : string) : Py.split s ≠ [].
Proof.
  induction s as [|c s IH]; simpl; [done|].
  destruct (Ascii.eqb c " "); [done|]. by destruct (Py.split s).
Qed.

Lemma app_String (c : ascii) (s1 s2 : string) :
  String c s1 +:+ s2 = String c (s1 +:+ s2).
Proof. done. Qed.

Lemma app_assoc_string (s1 s2 s3 : string) :
  (s1 +:+ s2) +:+ s3 = s1 +:+ (s2 +:+ s3).
Proof.
  induction s1 as [|c s1 IH]; [done|].
  by rewrite !app_String, IH.
Qed.

Lemma join_cons (w : string) (ws : list string) :
  ws ≠ [] → Py.join (w :: ws) = w +:+ " " +:+ Py.join ws.
Proof. by destruct ws. Qed.

Lemma join_split (s : string) : Py.join (Py.split s) = s.
Proof.
  induction s as [|c s IH]; simpl; [done|].
  destruct (Ascii.eqb_spec c " ") as [->|Hc].
  - rewrite join_cons by apply split_nonempty. by rewrite IH.
  - pose proof (split_nonempty s) as Hne.
    destruct (Py.split s) as [|w ws]; [done|].
    rewrite <- IH. by destruct ws.
Qed.

Lemma join_app (xs ys : list string) :
  xs ≠ [] → ys ≠ [] → Py.join (xs ++ ys) = Py.join xs +:+ " " +:+ Py.join ys.
Proof.
  intros Hxs Hys. induction xs as [|x xs IH]; [done|].
  destruct xs as [|x' xs].
  - simpl app. by rewrite join_cons.
  - change ((x :: x' :: xs) ++ ys) with (x :: ((x' :: xs) ++ ys)).
    rewrite (join_cons x ((x' :: xs) ++ ys)) by done.
    rewrite IH by done.
    rewrite (join_cons x (x' :: xs)) by done.
    by rewrite !app_assoc_string.
Qed.

Lemma slice_to_nat {A} (l : list A) (i : Z) :
  0 ≤ i → Py.slice_to l i = take (Z.to_nat i) l.
Proof.
  intros Hi. unfold Py.slice_to, Py.bound.
  by destruct (Z.ltb_spec i 0); [lia|].
Qed.

Lemma slice_from_nat {A} (l : list A) (i : Z) :
  0 ≤ i → Py.slice_from l i = drop (Z.to_nat i) l.
Proof.
  intros Hi. unfold Py.slice_from, Py.bound.
  by destruct (Z.ltb_spec i 0); [lia|].
Qed.

(** ** Wrapped texts *)

Lemma wrapped_impl (good good' : list string → nat → Prop) words lines :
  (∀ ws k, good ws k → good' ws k) →
  wrapped good words lines → wrapped good' words lines.
Proof. intros Himp. induction 1; constructor; auto. Qed.

Lemma wrapped_nil_inv good lines : wrapped good [] lines → lines = [].
Proof. inversion 1; [done|]. simpl in *; lia. Qed.

Lemma wrapped_lines_nonempty good words lines :
  words ≠ [] → wrapped good words lines → lines ≠ [].
Proof. intros Hne. by inversion 1. Qed.

(** Re-joining the lines gives the words re-joined. *)
Lemma wrapped_rejoin good words lines :
  wrapped good words lines → Py.join lines = Py.join words.
Proof.
  induction 1 as [|words k rest Hk Hgood Hrest IH]; [done|].
  assert (take k words ≠ []) as Htake.
  { destruct words, k; simpl in *; try lia; done. }
  destruct (decide (drop k words = [])) as [Hdrop|Hdrop].
  - rewrite Hdrop in Hrest. apply wrapped_nil_inv in Hrest as ->.
    rewrite <- (take_drop k words) at 2. by rewrite Hdrop, app_nil_r.
  - assert (rest ≠ []) by (by eapply wrapped_lines_nonempty).
    rewrite join_cons, IH by done.
    rewrite <- (take_drop k words) at 3.
    by rewrite join_app.
Qed.

(** The lines are the words, cut into consecutive non-empty groups. *)
Lemma wrapped_chunks good words lines :
  wrapped good words lines →
  ∃ chunks : list (list string),
    Forall (λ c, c ≠ []) chunks
    ∧ concat chunks = words
    ∧ lines = map Py.join chunks.
Proof.
  induction 1 as [|words k rest Hk Hgood Hrest (chunks & Hne & Hcat & ->)].
  - by exists [].
  - exists (take k words :: chunks). split_and!.
    + constructor; [|done]. destruct words, k; simpl in *; try lia; done.
    + simpl. by rewrite Hcat, take_drop.
    + done.
Qed.

(** ** The binary search over word counts *)

Ltac probe_arith :=
  unfold probe;
  match goal with |- context [?a / 2 =? 0] => destruct (Z.eqb_spec (a / 2) 0) end;
  Z.div_mod_to_equations; lia.

Lemma probe_pos (min_index max_index : Z) :
  0 ≤ min_index → 0 ≤ max_index → 1 ≤ probe min_index max_index.
Proof. intros. probe_arith. Qed.

Lemma probe_le_max (min_index max_index : Z) :
  0 ≤ min_index ≤ max_index → 1 ≤ max_index →
  probe min_index max_index ≤ max_index.
Proof. intros. probe_arith. Qed.

Lemma probe_ge_min (min_index max_index : Z) :
  0 ≤ min_index ≤ max_index → min_index ≤ probe min_index max_index.
Proof. intros. probe_arith. Qed.

Lemma probe_gt_min (min_index max_index : Z) :
  0 ≤ min_index < max_index → min_index < probe min_index max_index.
Proof. intros. probe_arith. Qed.

Lemma probe_lt_max (min_index max_index : Z) :
  0 ≤ min_index → min_index + 1 < max_index →
  probe min_index max_index < max_index.
Proof. intros. probe_arith. Qed.

Lemma probe_same (i : Z) : 1 ≤ i → probe i i = i.
Proof. intros. probe_arith. Qed.

Section Search.

Variables (fnt : FreeTypeFont) (self : TextArea.init) (words : list string).

Local Abbreviation limit := (TextArea.available_width self).
Local Abbreviation search := (λ fuel, TextArea._binary_len_search fuel fnt self words).

(** One call of the search, with the float arithmetic and the slice
    resolved. *)
Lemma search_unfold (fuel : nat) (min_index max_index : Z) :
  0 ≤ min_index → 0 ≤ max_index →
  search (S fuel) min_index max_index =
    let index := probe min_index max_index in
    let tw := prefix_width fnt words (Z.to_nat index) in
    if tw >? limit then
      search fuel min_index (if min_index + 1 =? index then index - 1 else index)
    else if index =? max_index then Ok (index, tw)
    else search fuel index max_index.
Proof.
  intros Hmin Hmax. pose proof (probe_pos _ _ Hmin Hmax) as Hp.
  unfold probe in *. simpl. rewrite ceil_truediv_2.
  set (index := if _ =? 0 then 1 else _) in *.
  unfold prefix_width. by rewrite slice_to_nat by lia.
Qed.

(** When every non-empty prefix is too wide, no call ever returns. *)
Lemma search_all_wide :
  (∀ k : nat, (1 ≤ k)%nat → limit < prefix_width fnt words k) →
  ∀ fuel min_index max_index,
    0 ≤ min_index → 0 ≤ max_index →
    search fuel min_index max_index = OutOfFuel.
Proof.
  intros Hwide. induction fuel as [|fuel IH]; intros lo hi Hlo Hhi; [done|].
  rewrite search_unfold by done. cbv zeta.
  pose proof (probe_pos _ _ Hlo Hhi) as Hp.
  specialize (Hwide (Z.to_nat (probe lo hi)) ltac:(lia)).
  destruct (Z.gtb_spec (prefix_width fnt words (Z.to_nat (probe lo hi))) limit); [|lia].
  apply IH; [done|]. destruct (lo + 1 =? probe lo hi); lia.
Qed.

(** The range [0, 0] is a trap: it is entered when one word is too wide,
    probes that word again, and re-enters itself. *)
Lemma search_stuck_at_zero :
  limit < prefix_width fnt words 1 →
  ∀ fuel, search fuel 0 0 = OutOfFuel.
Proof.
  intros Hwide. induction fuel as [|fuel IH]; [done|].
  rewrite search_unfold by done. cbv zeta.
  change (probe 0 0) with 1. change (Z.to_nat 1) with 1%nat.
  destruct (Z.gtb_spec (prefix_width fnt words 1) limit); [|lia].
  exact IH.
Qed.

(** What a returning search returns: at least one word, within the range,
    measured as it says and fitting; and, for a monotone face, the longest
    such prefix provided nothing beyond the range fits. *)
Lemma search_sound (fuel : nat) :
  ∀ min_index max_index index tw,
    0 ≤ min_index ≤ max_index → 1 ≤ max_index →
    search fuel min_index max_index = Ok (index, tw) →
    1 ≤ index ≤ max_index
    ∧ tw = prefix_width fnt words (Z.to_nat index)
    ∧ tw ≤ limit
    ∧ (prefix_monotone fnt →
       (∀ j : nat, (Z.to_nat max_index < j ≤ length words)%nat →
                   limit < prefix_width fnt words j) →
       ∀ j : nat, (Z.to_nat index < j ≤ length words)%nat →
                  limit < prefix_width fnt words j).
Proof.
  induction fuel as [|fuel IH]; intros lo hi index tw Hlo Hhi Hrun; [done|].
  rewrite search_unfold in Hrun by lia. cbv zeta in Hrun.
  pose proof (probe_pos lo hi ltac:(lia) ltac:(lia)) as Hp1.
  pose proof (probe_le_max lo hi Hlo Hhi) as Hp2.
  pose proof (probe_ge_min lo hi Hlo) as Hp3.
  set (p := probe lo hi) in *.
  destruct (Z.gtb_spec (prefix_width fnt words (Z.to_nat p)) limit) as [Hwide|Hfit].
  - (* too wide: the upper bound comes down *)
    destruct (Z.eqb_spec (lo + 1) p) as [Hadj|Hadj].
    + destruct (decide (lo = 0)) as [->|Hlo0].
      { replace p with 1 in * by lia. change (1 - 1) with 0 in Hrun.
        by rewrite search_stuck_at_zero in Hrun. }
      destruct (IH lo (p - 1) index tw ltac:(lia) ltac:(lia) Hrun)
        as (Hi & Htw & Hle & Hmax).
      split_and!; [lia..|done|done|].
      intros Hmono Hbeyond. apply Hmax; [done|].
      intros j Hj. eapply Z.lt_le_trans; [exact Hwide|].
      apply Hmono. lia.
    + destruct (IH lo p index tw ltac:(lia) ltac:(lia) Hrun)
        as (Hi & Htw & Hle & Hmax).
      split_and!; [lia..|done|done|].
      intros Hmono Hbeyond. apply Hmax; [done|].
      intros j Hj. eapply Z.lt_le_trans; [exact Hwide|].
      apply Hmono. lia.
  - destruct (Z.eqb_spec p hi) as [Heq|Hne].
    + (* converged *)
      injection Hrun as <- <-. split_and!; [lia..|done|lia|].
      intros _ Hbeyond j Hj. apply Hbeyond. lia.
    + (* fits: the lower bound comes up *)
      destruct (IH p hi index tw ltac:(lia) ltac:(lia) Hrun)
        as (Hi & Htw & Hle & Hmax).
      split_and!; [lia..|done|done|done].
Qed.

(** With a first word that fits, a search over a proper range returns
    within as many calls as the range is long, plus one. *)
Lemma search_returns :
  prefix_width fnt words 1 ≤ limit →
  ∀ fuel min_index max_index,
    0 ≤ min_index ≤ max_index → 1 ≤ max_index →
    (min_index = 0 ∨ prefix_width fnt words (Z.to_nat min_index) ≤ limit) →
    (Z.to_nat (max_index - min_index) < fuel)%nat →
    ∃ r, search fuel min_index max_index = Ok r.
Proof.
  intros Hfirst. induction fuel as [|fuel IH]; intros lo hi Hlo Hhi Hmin Hfuel; [lia|].
  rewrite search_unfold by lia. cbv zeta.
  pose proof (probe_pos lo hi ltac:(lia) ltac:(lia)) as Hp1.
  pose proof (probe_le_max lo hi Hlo Hhi) as Hp2.
  pose proof (probe_ge_min lo hi Hlo) as Hp3.
  assert (lo = hi → probe lo hi = hi) as Hp4
    by (intros ->; apply probe_same; lia).
  assert (lo + 1 < hi → probe lo hi < hi) as Hp5
    by (intros; apply probe_lt_max; lia).
  assert (lo < hi → lo < probe lo hi) as Hp6
    by (intros; apply probe_gt_min; lia).
  set (p := probe lo hi) in *.
  destruct (Z.gtb_spec (prefix_width fnt words (Z.to_nat p)) limit) as [Hwide|Hfit].
  - assert (lo < hi) as Hlt.
    { destruct (decide (lo = hi)) as [Heq|]; [|lia].
      specialize (Hp4 Heq). destruct Hmin as [->|Hmin]; [lia|].
      replace p with lo in Hwide by lia. lia. }
    destruct (Z.eqb_spec (lo + 1) p) as [Hadj|Hadj].
    + destruct (decide (lo = 0)) as [Hz|Hnz].
      { replace p with 1 in Hwide by lia. change (Z.to_nat 1) with 1%nat in Hwide. lia. }
      destruct Hmin as [?|Hmin]; [done|].
      apply IH; [lia..|by right|lia].
    + apply IH; [lia..|done|lia].
  - destruct (Z.eqb_spec p hi) as [Heq|Hne]; [by eexists|].
    apply IH; [lia..|by right|lia].
Qed.

End Search.

(** ** The word-consuming loop *)

Section Wrap.

Variables (fnt : FreeTypeFont) (self : TextArea.init).

Local Abbreviation limit := (TextArea.available_width self).

Lemma add_text_line_lines st text tw :
  map line_text (TextArea._add_text_line self st text tw).1
  = map line_text st.1 ++ [text].
Proof. unfold TextArea._add_text_line. simpl. by rewrite map_app. Qed.

Lemma wrap_words_unfold fuel depth w words st :
  TextArea.wrap_words (S fuel) depth fnt self (w :: words) st =
    '(index, tw) ← TextArea._binary_len_search depth fnt self (w :: words) 0
                     (Py.len (w :: words));
    TextArea.wrap_words fuel depth fnt self (Py.slice_from (w :: words) index)
      (TextArea._add_text_line self st (Py.join (Py.slice_to (w :: words) index)) tw).
Proof. done. Qed.

(** The lines a finished loop has added cut the words into consecutive
    non-empty runs, each cut a fitted one. *)
Lemma wrap_words_wrapped (depth fuel : nat) :
  ∀ words st st',
    TextArea.wrap_words fuel depth fnt self words st = Ok st' →
    ∃ lines,
      map line_text st'.1 = map line_text st.1 ++ lines
      ∧ wrapped (fitted_cut fnt limit) words lines.
Proof.
  induction fuel as [|fuel IH]; intros [|w words] st st' Hrun;
    try (injection Hrun as <-; exists []; split; [by rewrite app_nil_r|constructor]);
    [done|].
  rewrite wrap_words_unfold in Hrun.
  destruct (TextArea._binary_len_search _ _ _ _ _ _) as [[index tw]| |] eqn:Hs;
    [|done..].
  apply search_sound in Hs as (Hi & -> & Hfit & Hmax);
    [|unfold Py.len; simpl length; lia..].
  unfold Py.len in Hi.
  cbn [mbind result_bind] in Hrun.
  rewrite slice_from_nat, slice_to_nat in Hrun by lia.
  apply IH in Hrun as (lines & Hlines & Hwrapped).
  rewrite add_text_line_lines, <- app_assoc in Hlines.
  eexists. split; [exact Hlines|].
  constructor; [lia| |done].
  split; [done|]. intros Hmono. apply Hmax; [done|].
  intros j Hj. unfold Py.len in Hj. lia.
Qed.

(** When every word fits on its own, the loop finishes: one iteration per
    word and a search depth of one more than the word count are enough. *)
Lemma wrap_words_returns (depth fuel : nat) :
  ∀ words st,
    words_fit fnt limit words →
    (length words ≤ fuel)%nat → (length words < depth)%nat →
    ∃ st', TextArea.wrap_words fuel depth fnt self words st = Ok st'.
Proof.
  induction fuel as [|fuel IH]; intros [|w words] st Hfit Hfuel Hdepth;
    try (by eexists); [simpl in Hfuel; lia|].
  rewrite wrap_words_unfold.
  destruct (search_returns fnt self (w :: words)) with
    (fuel := depth) (min_index := 0) (max_index := Py.len (w :: words))
    as [[index tw] Hs].
  { unfold prefix_width. simpl. by inversion Hfit. }
  { unfold Py.len. lia. }
  { unfold Py.len. simpl length. lia. }
  { by left. }
  { unfold Py.len. lia. }
  rewrite Hs. cbn [mbind result_bind].
  apply search_sound in Hs as (Hi & _); [|unfold Py.len; simpl length; lia..].
  unfold Py.len in Hi.
  rewrite slice_from_nat by lia.
  apply IH.
  - by apply Forall_drop.
  - rewrite length_drop. simpl length in *. lia.
  - rewrite length_drop. lia.
Qed.

(** When every non-empty prefix of the words is too wide, the loop never
    gets past its first search. *)
Lemma wrap_words_all_wide (depth fuel : nat) words st :
  words ≠ [] →
  (∀ k : nat, (1 ≤ k)%nat → limit < prefix_width fnt words k) →
  TextArea.wrap_words fuel depth fnt self words st = OutOfFuel.
Proof.
  intros Hne Hwide. destruct words as [|w words]; [done|].
  destruct fuel as [|fuel]; [done|].
  rewrite wrap_words_unfold.
  rewrite search_all_wide by (unfold Py.len; first [done|lia]).
  done.
Qed.

End Wrap.

(** ** The font cache *)

Section FontCache.

Variable truetype : string → Z → FontMetrics.

(** A hit: the cached object is returned and nothing changes. *)
Lemma get_font_hit cls font_name size by_size f :
  fonts cls !! font_name = Some by_size →
  by_size !! size = Some f →
  get_font truetype cls font_name size = (f, cls).
Proof.
  intros Hname Hsize. unfold get_font. rewrite Hname. simpl.
  rewrite Hname. simpl. rewrite Hsize. by destruct cls.
Qed.

(** A miss: a new object is made, stored under the key and logged. *)
Lemma get_font_miss cls font_name size :
  ¬ cached cls font_name size →
  get_font truetype cls font_name size =
    let f := {| oid := length (loaded cls); face := truetype font_name size |} in
    (f, {| fonts := <[font_name := <[size := f]> (default ∅ (fonts cls !! font_name))]>
                      (fonts cls);
           loaded := loaded cls ++ [(font_name, size)] |}).
Proof.
  intros Hmiss. unfold get_font.
  destruct (fonts cls !! font_name) as [by_size|] eqn:Hname; simpl.
  - rewrite Hname. simpl.
    destruct (by_size !! size) as [f|] eqn:Hsize; [|done].
    destruct Hmiss. by exists by_size, f.
  - rewrite lookup_insert_eq. simpl. rewrite lookup_empty.
    by rewrite insert_insert_eq.
Qed.

Lemma cached_dec cls font_name size :
  cached cls font_name size ∨ ¬ cached cls font_name size.
Proof.
  unfold cached.
  destruct (fonts cls !! font_name) as [by_size|] eqn:Hname;
    [|right; by intros (m & f & Hm & _)].
  destruct (by_size !! size) as [f|] eqn:Hsize; [left; eauto|right].
  intros (m & f & [= <-] & Hf). congruence.
Qed.

(** After a lookup the key holds the object that was returned. *)
Lemma get_font_stored cls font_name size :
  ∃ by_size,
    fonts (get_font truetype cls font_name size).2 !! font_name = Some by_size
    ∧ by_size !! size = Some (get_font truetype cls font_name size).1.
Proof.
  destruct (cached_dec cls font_name size) as [(by_size & f & Hname & Hsize)|Hmiss].
  - rewrite (get_font_hit _ _ _ _ _ Hname Hsize). by exists by_size.
  - rewrite (get_font_miss _ _ _ Hmiss). simpl.
    eexists. by rewrite !lookup_insert_eq.
Qed.

(** A lookup never disturbs what is cached. *)
Lemma get_font_keeps cls font_name size font_name' size' by_size f :
  fonts cls !! font_name' = Some by_size →
  by_size !! size' = Some f →
  ∃ by_size',
    fonts (get_font truetype cls font_name size).2 !! font_name' = Some by_size'
    ∧ by_size' !! size' = Some f.
Proof.
  intros Hname Hsize.
  destruct (cached_dec cls font_name size) as [(m & g & Hm & Hg)|Hmiss].
  - rewrite (get_font_hit _ _ _ _ _ Hm Hg). by exists by_size.
  - rewrite (get_font_miss _ _ _ Hmiss). simpl.
    destruct (decide (font_name = font_name')) as [->|Hne].
    + rewrite lookup_insert_eq, Hname. simpl. eexists. split; [done|].
      rewrite lookup_insert_ne; [done|].
      intros ->. apply Hmiss. by exists by_size, f.
    + rewrite lookup_insert_ne by done. by exists by_size.
Qed.

(** In a reachable cache, the object under a key was created by the load
    that the log records for that key. *)
Lemma reachable_logged cls :
  reachable truetype cls →
  ∀ font_name size by_size f,
    fonts cls !! font_name = Some by_size →
    by_size !! size = Some f →
    loaded cls !! oid f = Some (font_name, size).
Proof.
  induction 1 as [|cls name size Hreach IH]; intros name' size' by_size f Hname Hsize.
  - simpl in Hname. by rewrite lookup_empty in Hname.
  - destruct (cached_dec cls name size) as [(m & g & Hm & Hg)|Hmiss].
    + rewrite (get_font_hit _ _ _ _ _ Hm Hg) in *. eauto.
    + rewrite (get_font_miss _ _ _ Hmiss) in *. simpl in *.
      destruct (decide (name = name')) as [<-|Hne].
      * rewrite lookup_insert_eq in Hname. injection Hname as <-.
        destruct (decide (size = size')) as [<-|Hne'].
        -- rewrite lookup_insert_eq in Hsize. injection Hsize as <-. simpl.
           by rewrite lookup_app_r, Nat.sub_diag.
        -- rewrite lookup_insert_ne in Hsize by done.
           destruct (fonts cls !! name) as [m|] eqn:Hm; simpl in Hsize;
             [|by rewrite lookup_empty in Hsize].
           apply lookup_app_l_Some. eauto.
      * rewrite lookup_insert_ne in Hname by done.
        apply lookup_app_l_Some. eauto.
Qed.

End FontCache.

(** ** The two layout paths *)

Section Layout.

Variable truetype : string → Z → FontMetrics.
Variables (fuel : nat) (cls : Fonts) (self : TextArea.init).

Local Abbreviation fnt := (font_of truetype cls self).
Local Abbreviation limit := (TextArea.available_width self).
Local Abbreviation ssf := (TextArea.supersampling_factor self).
Local Abbreviation th := (getsize (face fnt) (TextArea.text self)).2.

(** The cache after a construction, finished or not, is the cache after the
    font lookup. *)
Lemma layout_fonts :
  (TextArea.layout truetype fuel cls self).1
  = (get_font truetype cls (TextArea.font_name self)
       (ssf * TextArea.font_size self)).2.
Proof.
  unfold TextArea.layout. destruct (get_font _ _ _ _) as [f c].
  by destruct (getsize _ _).
Qed.

Lemma post_init_fonts :
  (TextArea.post_init truetype fuel cls self).1
  = (get_font truetype cls (TextArea.font_name self)
       (ssf * TextArea.font_size self)).2.
Proof.
  unfold TextArea.post_init. rewrite <- layout_fonts.
  by destruct (TextArea.layout _ _ _ _).
Qed.

Lemma post_init_result :
  (TextArea.post_init truetype fuel cls self).2
  = (TextArea.layout truetype fuel cls self).2 ≫= TextArea.restore_scale.
Proof. unfold TextArea.post_init. by destruct (TextArea.layout _ _ _ _). Qed.

(** The one-line path. *)
Lemma layout_one_line :
  whole_width fnt self < limit →
  ∃ laid,
    (TextArea.layout truetype fuel cls self).2 = Ok laid
    ∧ TextArea.dataclass laid = self
    ∧ TextArea.font laid = fnt
    ∧ TextArea.text_height laid = th
    ∧ TextArea.line_spacing laid = Z.quot (TextArea.font_size self) 4
    ∧ TextArea.text_lines laid
      = (TextArea._add_text_line self ([], 0) (TextArea.text self)
           (whole_width fnt self)).1
    ∧ TextArea.supersampled_height laid
      = (if TextArea.height self =? 0 then th else ssf * TextArea.height self)
    ∧ TextArea.text_y laid
      = (if TextArea.height self =? 0 then 0
         else Z.quot (ssf * (ssf * TextArea.height self) - th) 2).
Proof.
  unfold TextArea.layout, font_of, whole_width.
  destruct (get_font _ _ _ _) as [f c]. simpl.
  destruct (getsize (face f) (TextArea.text self)) as [tw h]. simpl.
  intros Hfit. destruct (Z.ltb_spec tw limit); [|lia].
  destruct (TextArea.height self =? 0); eexists; (split; [done|]);
    simpl; rewrite ?int_quarter, ?int_truediv_2; done.
Qed.

(** The wrapping path. *)
Lemma layout_wrapping :
  limit ≤ whole_width fnt self →
  ∀ laid,
    (TextArea.layout truetype fuel cls self).2 = Ok laid ↔
    ∃ st,
      TextArea.wrap_words fuel fuel fnt self (Py.split (TextArea.text self)) ([], 0)
        = Ok st
      ∧ ¬ (TextArea.height self > 0
           ∧ stacked_height th (Z.quot (TextArea.font_size self) 4) st.1
             > ssf * TextArea.height self + 2 * COMPONENT_PADDING * ssf)
      ∧ laid = {| TextArea.dataclass := self;
                  TextArea.font := fnt;
                  TextArea.supersampled_width := ssf * TextArea.width self;
                  TextArea.supersampled_height :=
                    stacked_height th (Z.quot (TextArea.font_size self) 4) st.1;
                  TextArea.line_spacing := Z.quot (TextArea.font_size self) 4;
                  TextArea.text_height := th;
                  TextArea.text_lines := st.1;
                  TextArea.text_width := st.2;
                  TextArea.text_y := 0 |}.
Proof.
  unfold TextArea.layout, font_of, whole_width, stacked_height.
  destruct (get_font _ _ _ _) as [f c]. simpl.
  destruct (getsize (face f) (TextArea.text self)) as [tw h]. simpl.
  intros Hwide laid. destruct (Z.ltb_spec tw limit); [lia|].
  rewrite int_quarter.
  destruct (TextArea.wrap_words _ _ _ _ _ _) as [st| |]; simpl;
    [|split; [done|by intros (? & ? & _)]..].
  rewrite int_truediv_2, Z.sub_diag. change (Z.quot 0 2) with 0.
  split.
  - intros Hrun. exists st. split; [done|].
    destruct (Z.gtb_spec (TextArea.height self) 0);
      destruct (Z.gtb_spec
                  (h * Py.len st.1 + Z.quot (TextArea.font_size self) 4 * (Py.len st.1 - 1))
                  (ssf * TextArea.height self + 2 * COMPONENT_PADDING * ssf));
      simpl in Hrun; try done; (split; [lia|]); by injection Hrun.
  - intros (st' & [= <-] & Hfits & ->).
    destruct (Z.gtb_spec (TextArea.height self) 0);
      destruct (Z.gtb_spec
                  (h * Py.len st.1 + Z.quot (TextArea.font_size self) 4 * (Py.len st.1 - 1))
                  (ssf * TextArea.height self + 2 * COMPONENT_PADDING * ssf));
      simpl; try done; lia.
Qed.

(** The wrapping path raises exactly when a positive height, with its
    allowance of two paddings, is exceeded. *)
Lemma layout_wrapping_raises :
  limit ≤ whole_width fnt self →
  ∀ e,
    (TextArea.layout truetype fuel cls self).2 = Raise e ↔
    e = TextArea.overflow_error
    ∧ ∃ st,
        TextArea.wrap_words fuel fuel fnt self (Py.split (TextArea.text self)) ([], 0)
          = Ok st
        ∧ TextArea.height self > 0
        ∧ stacked_height th (Z.quot (TextArea.font_size self) 4) st.1
          > ssf * TextArea.height self + 2 * COMPONENT_PADDING * ssf.
Proof.
  unfold TextArea.layout, font_of, whole_width, stacked_height.
  destruct (get_font _ _ _ _) as [f c]. simpl.
  destruct (getsize (face f) (TextArea.text self)) as [tw h]. simpl.
  intros Hwide e. destruct (Z.ltb_spec tw limit); [lia|].
  rewrite int_quarter.
  assert (∀ depth words st0, ∀ e0,
    TextArea.wrap_words fuel depth f self words st0 ≠ Raise e0) as Hnoraise.
  { clear. induction fuel as [|n IH]; intros depth [|w ws] st0 e0; try done.
    rewrite wrap_words_unfold.
    destruct (TextArea._binary_len_search _ _ _ _ _ _) as [[i t]| |] eqn:Hs; simpl.
    - apply IH.
    - exfalso. revert Hs. generalize 0 (Py.len (w :: ws)). clear.
      induction depth as [|d IHd]; intros lo hi; [done|]. simpl.
      repeat case_match; try done; apply IHd.
    - done. }
  destruct (TextArea.wrap_words _ _ _ _ _ _) as [st| |] eqn:Hw; simpl.
  - destruct (Z.gtb_spec (TextArea.height self) 0);
      destruct (Z.gtb_spec
                  (h * Py.len st.1 + Z.quot (TextArea.font_size self) 4 * (Py.len st.1 - 1))
                  (ssf * TextArea.height self + 2 * COMPONENT_PADDING * ssf));
      simpl; (split; [intros [= <-]; try (split; [done|exists st; split_and!; [done|lia..]])
                     |intros (-> & st' & [= <-] & ? & ?); first [done|lia]]).
  - by apply Hnoraise in Hw.
  - split; [done|]. by intros (_ & ? & ? & _).
Qed.

End Layout.

(** ** The closing rescaling *)

Lemma restore_scale_Ok (laid obj : TextArea.t) :
  TextArea.restore_scale laid = Ok obj →
  TextArea.supersampling_factor (TextArea.dataclass laid) ≠ 0
  ∧ TextArea.font obj = TextArea.font laid
  ∧ TextArea.text_lines obj = TextArea.text_lines laid
  ∧ TextArea.text_height obj = TextArea.text_height laid
  ∧ TextArea.line_spacing obj = TextArea.line_spacing laid
  ∧ TextArea.text_y obj = TextArea.text_y laid
  ∧ TextArea.supersampled_height obj = TextArea.supersampled_height laid
  ∧ TextArea.height (TextArea.dataclass obj)
    = Z.quot (TextArea.supersampled_height laid)
        (TextArea.supersampling_factor (TextArea.dataclass laid))
  ∧ TextArea.supersampling_factor (TextArea.dataclass obj)
    = TextArea.supersampling_factor (TextArea.dataclass laid)
  ∧ TextArea.screen_y (TextArea.dataclass obj)
    = TextArea.screen_y (TextArea.dataclass laid).
Proof.
  unfold TextArea.restore_scale.
  destruct (Z.eqb_spec (TextArea.supersampling_factor (TextArea.dataclass laid)) 0);
    [done|].
  intros [= <-]. simpl. by rewrite int_truediv.
Qed.

Lemma restore_scale_returns (laid : TextArea.t) :
  TextArea.supersampling_factor (TextArea.dataclass laid) ≠ 0 →
  ∃ obj, TextArea.restore_scale laid = Ok obj.
Proof.
  intros Hssf. unfold TextArea.restore_scale.
  destruct (Z.eqb_spec (TextArea.supersampling_factor (TextArea.dataclass laid)) 0);
    [done|by eexists].
Qed.


Lemma post_init_Ok truetype fuel cls self obj :
  (TextArea.post_init truetype fuel cls self).2 = Ok obj →
  ∃ laid,
    (TextArea.layout truetype fuel cls self).2 = Ok laid
    ∧ TextArea.restore_scale laid = Ok obj.
Proof.
  rewrite post_init_result.
  destruct (TextArea.layout truetype fuel cls self).2 as [laid| |]; [|done..].
  intros Hobj. by exists laid.
Qed.

(** ** The lines of a constructed TextArea *)

Lemma take_all_join (s : string) :
  Py.join (take (length (Py.split s)) (Py.split s)) = s.
Proof. by rewrite firstn_all, join_split. Qed.

(** Whichever path laid the text out, the lines cut the words of the text
    into consecutive non-empty runs, each cut a fitted one. *)
Lemma post_init_wrapped truetype fuel cls self obj :
  (TextArea.post_init truetype fuel cls self).2 = Ok obj →
  wrapped
    (fitted_cut (font_of truetype cls self) (TextArea.available_width self))
    (Py.split (TextArea.text self))
    (map line_text (TextArea.text_lines obj)).
Proof.
  intros (laid & Hlaid & Hobj)%post_init_Ok.
  apply restore_scale_Ok in Hobj as (_ & _ & -> & _).
  set (fnt := font_of truetype cls self) in *.
  destruct (Z.lt_ge_cases (whole_width fnt self) (TextArea.available_width self))
    as [Hfit|Hwide].
  - destruct (layout_one_line truetype fuel cls self Hfit)
      as (laid' & Hlaid' & _ & _ & _ & _ & Hlines & _).
    rewrite Hlaid in Hlaid'. injection Hlaid' as <-.
    rewrite Hlines, add_text_line_lines. simpl.
    pose proof (split_nonempty (TextArea.text self)) as Hne.
    rewrite <- (take_all_join (TextArea.text self)) at 2.
    constructor.
    + destruct (Py.split (TextArea.text self)); [done|simpl; lia].
    + split.
      * unfold prefix_width. rewrite take_all_join. fold (whole_width fnt self). lia.
      * intros _ j Hj. lia.
    + rewrite drop_all. constructor.
  - apply (layout_wrapping truetype fuel cls self Hwide) in Hlaid
      as (st & Hrun & _ & ->).
    apply wrap_words_wrapped in Hrun as (lines & Hlines & Hwrapped).
    simpl in *. by rewrite Hlines.
Qed.

(** ** The fixed-pitch face is monotone *)

Lemma length_app_string (s1 s2 : string) :
  String.length (s1 +:+ s2) = (String.length s1 + String.length s2)%nat.
Proof. induction s1 as [|c s1 IH]; [done|]. rewrite app_String. simpl. by rewrite IH. Qed.

Lemma join_prefix_length (xs ys : list string) :
  (String.length (Py.join xs) ≤ String.length (Py.join (xs ++ ys)))%nat.
Proof.
  destruct xs as [|x xs]; [simpl; lia|].
  destruct ys as [|y ys]; [by rewrite app_nil_r|].
  rewrite join_app, length_app_string by done. lia.
Qed.

Lemma fixed_pitch_monotone (fnt : FreeTypeFont) (font_name : string) (size : Z) :
  face fnt = fixed_pitch font_name size → 0 ≤ size → prefix_monotone fnt.
Proof.
  intros Hface Hsize words i j Hij. unfold prefix_width. rewrite Hface. simpl.
  apply Z.mul_le_mono_nonneg_l; [done|].
  apply inj_le.
  replace (take j words) with (take i words ++ drop i (take j words)).
  - apply join_prefix_length.
  - rewrite <- (take_drop i (take j words)) at 2.
    by rewrite take_take, Nat.min_l by lia.
Qed.

(** ** Claims about the line-wrapping of a TextArea *)

(** C5. Whenever the measured width of the whole text is strictly less than
    the available width, that is the declared width less the edge padding on
    both sides (in supersampled pixels), the layout consists of exactly one
    line, whose content is the input text; and the construction returns it
    unless the supersampling factor is zero. *)
Theorem one_line_when_whole_text_fits truetype fuel cls self :
  whole_width (font_of truetype cls self) self < TextArea.available_width self →
  TextArea.available_width self
  = TextArea.supersampling_factor self * (TextArea.width self - 2 * EDGE_PADDING)
  ∧ ∃ laid,
      (TextArea.layout truetype fuel cls self).2 = Ok laid
      ∧ map line_text (TextArea.text_lines laid) = [TextArea.text self]
      ∧ (TextArea.supersampling_factor self ≠ 0 →
         ∃ obj,
           (TextArea.post_init truetype fuel cls self).2 = Ok obj
           ∧ map line_text (TextArea.text_lines obj) = [TextArea.text self]).
Proof.
  intros Hfit. split; [unfold TextArea.available_width; lia|].
  destruct (layout_one_line truetype fuel cls self Hfit)
    as (laid & Hlaid & Hself & _ & _ & _ & Hlines & _).
  exists laid. split_and!; [done|by rewrite Hlines|].
  intros Hssf. rewrite post_init_result, Hlaid.
  destruct (restore_scale_returns laid) as [obj Hobj]; [by rewrite Hself|].
  exists obj. split; [done|].
  apply restore_scale_Ok in Hobj as (_ & _ & -> & _). by rewrite Hlines.
Qed.

Lemma one_line_when_whole_text_fits_witness :
  let self := text_area "Hello" 240 0 17 2 in
  whole_width (font_of fixed_pitch Fonts_initial self) self
    < TextArea.available_width self
  ∧ ∃ obj,
      (TextArea.post_init fixed_pitch 0 Fonts_initial self).2 = Ok obj
      ∧ map line_text (TextArea.text_lines obj) = ["Hello"].
Proof.
  assert (whole_width
            (font_of fixed_pitch Fonts_initial (text_area "Hello" 240 0 17 2))
            (text_area "Hello" 240 0 17 2)
          < TextArea.available_width (text_area "Hello" 240 0 17 2)) as Hfit
    by (vm_compute; reflexivity).
  split; [exact Hfit|].
  destruct (one_line_when_whole_text_fits fixed_pitch 0 Fonts_initial
              (text_area "Hello" 240 0 17 2) Hfit) as (_ & _ & _ & _ & Hobj).
  apply Hobj. discriminate.
Defined.

(** C2, as the code has it. No line of a constructed TextArea is wider
    than the available width; and on a face whose measured width never
    shrinks when a word is appended, which is what the binary search relies
    on, every line is the longest prefix of the words still to be placed
    whose width, joined by single spaces, is at most the available width. (A
    line of one overflowing word is never returned.) *)
Theorem lines_are_longest_fitting_prefixes truetype fuel cls self obj :
  (TextArea.post_init truetype fuel cls self).2 = Ok obj →
  Forall
    (λ l, (getsize (face (font_of truetype cls self)) l).1
          ≤ TextArea.available_width self)
    (map line_text (TextArea.text_lines obj))
  ∧ (prefix_monotone (font_of truetype cls self) →
     wrapped
       (longest_fit (font_of truetype cls self) (TextArea.available_width self))
       (Py.split (TextArea.text self))
       (map line_text (TextArea.text_lines obj))).
Proof.
  intros Hw%post_init_wrapped. split.
  - induction Hw as [|words k rest Hk [Hfit _] Hrest IH]; constructor; done.
  - intros Hmono. eapply wrapped_impl; [|exact Hw].
    intros ws k [Hfit Hmax]. split; [done|by apply Hmax].
Qed.

(** C3. Re-joining the lines of a constructed TextArea with single spaces
    gives back the text, hence its word sequence: the lines are the words cut
    into consecutive non-empty groups, each group joined by single spaces, so
    no word is dropped, repeated, moved or broken. *)
Theorem lines_rejoin_to_words truetype fuel cls self obj :
  (TextArea.post_init truetype fuel cls self).2 = Ok obj →
  Py.join (map line_text (TextArea.text_lines obj)) = TextArea.text self
  ∧ Py.split (Py.join (map line_text (TextArea.text_lines obj)))
    = Py.split (TextArea.text self)
  ∧ ∃ chunks : list (list string),
      Forall (λ c, c ≠ []) chunks
      ∧ concat chunks = Py.split (TextArea.text self)
      ∧ map line_text (TextArea.text_lines obj) = map Py.join chunks.
Proof.
  intros Hw%post_init_wrapped.
  assert (Py.join (map line_text (TextArea.text_lines obj)) = TextArea.text self)
    as Hjoin by (by rewrite (wrapped_rejoin _ _ _ Hw), join_split).
  split_and!; [done|by rewrite Hjoin|by eapply wrapped_chunks].
Qed.

Lemma lines_are_longest_fitting_prefixes_witness :
  let self := text_area "Hello world this is a test" 240 0 17 2 in
  let fnt := font_of fixed_pitch Fonts_initial self in
  ∃ obj,
    (TextArea.post_init fixed_pitch 30 Fonts_initial self).2 = Ok obj
    ∧ map line_text (TextArea.text_lines obj) = ["Hello world"; "this is a"; "test"]
    ∧ prefix_monotone fnt
    ∧ Forall (λ l, (getsize (face fnt) l).1 ≤ TextArea.available_width self)
        (map line_text (TextArea.text_lines obj))
    ∧ wrapped (longest_fit fnt (TextArea.available_width self))
        (Py.split (TextArea.text self))
        (map line_text (TextArea.text_lines obj)).
Proof.
  assert (∃ obj,
    (TextArea.post_init fixed_pitch 30 Fonts_initial
       (text_area "Hello world this is a test" 240 0 17 2)).2 = Ok obj
    ∧ map line_text (TextArea.text_lines obj) = ["Hello world"; "this is a"; "test"])
    as (obj & Hobj & Hlines) by (vm_compute; eexists; split; reflexivity).
  assert (prefix_monotone
            (font_of fixed_pitch Fonts_initial
               (text_area "Hello world this is a test" 240 0 17 2))) as Hmono
    by (apply (fixed_pitch_monotone _ BODY_FONT_NAME 34); [reflexivity|lia]).
  destruct (lines_are_longest_fitting_prefixes fixed_pitch 30 Fonts_initial
              (text_area "Hello world this is a test" 240 0 17 2) obj Hobj)
    as [Hfit Hlongest].
  exists obj. split_and!; [done..|by apply Hlongest].
Defined.

Lemma lines_rejoin_to_words_witness :
  let self := text_area "Hello world this is a test" 240 0 17 2 in
  ∃ obj,
    (TextArea.post_init fixed_pitch 30 Fonts_initial self).2 = Ok obj
    ∧ map line_text (TextArea.text_lines obj) = ["Hello world"; "this is a"; "test"]
    ∧ Py.join (map line_text (TextArea.text_lines obj))
      = "Hello world this is a test".
Proof.
  assert (∃ obj,
    (TextArea.post_init fixed_pitch 30 Fonts_initial
       (text_area "Hello world this is a test" 240 0 17 2)).2 = Ok obj
    ∧ map line_text (TextArea.text_lines obj) = ["Hello world"; "this is a"; "test"])
    as (obj & Hobj & Hlines) by (vm_compute; eexists; split; reflexivity).
  exists obj. split_and!; [done..|].
  apply (lines_rejoin_to_words fixed_pitch 30 Fonts_initial
           (text_area "Hello world this is a test" 240 0 17 2) obj Hobj).
Defined.

(** C2 as stated fails on a face whose measured width can shrink when a
    word is appended: of "a b c d" the search settles on the one word "a"
    for the first line, because "a b" is too wide, although the three words
    "a b c" fit the available width. *)
Lemma first_line_not_longest_prefix :
  let self := text_area "a b c d" 76 0 17 1 in
  let fnt := font_of shrinking_face Fonts_initial self in
  ∃ obj,
    (TextArea.post_init shrinking_face 30 Fonts_initial self).2 = Ok obj
    ∧ map line_text (TextArea.text_lines obj) = ["a"; "b c d"]
    ∧ Py.split (TextArea.text self) = ["a"; "b"; "c"; "d"]
    ∧ TextArea.available_width self = 60
    ∧ prefix_width fnt (Py.split (TextArea.text self)) 3 = 50
    ∧ ¬ longest_fit fnt (TextArea.available_width self)
          (Py.split (TextArea.text self)) 1.
Proof.
  cbv zeta. eexists. split_and!; [vm_compute; reflexivity..|].
  intros [_ Hmax]. specialize (Hmax 3%nat ltac:(vm_compute; lia)).
  vm_compute in Hmax. discriminate.
Qed.

(** ** A word wider than the box *)

Lemma layout_out_of_fuel truetype fuel cls self :
  TextArea.available_width self ≤ whole_width (font_of truetype cls self) self →
  TextArea.wrap_words fuel fuel (font_of truetype cls self) self
    (Py.split (TextArea.text self)) ([], 0) = OutOfFuel →
  (TextArea.layout truetype fuel cls self).2 = OutOfFuel.
Proof.
  unfold TextArea.layout, font_of, whole_width.
  destruct (get_font _ _ _ _) as [f c]. simpl.
  destruct (getsize (face f) (TextArea.text self)) as [tw h]. simpl.
  intros Hwide Hrun. destruct (Z.ltb_spec tw (TextArea.available_width self)); [lia|].
  by rewrite Hrun.
Qed.

(** On a monotone face, a text whose first word is wider than the available
    width is never laid out: whatever the fuel, the construction is still
    inside [_binary_len_search]. *)
Lemma post_init_first_word_too_wide truetype cls self :
  prefix_monotone (font_of truetype cls self) →
  TextArea.available_width self
    < prefix_width (font_of truetype cls self) (Py.split (TextArea.text self)) 1 →
  ∀ fuel, (TextArea.post_init truetype fuel cls self).2 = OutOfFuel.
Proof.
  intros Hmono Hfirst fuel.
  set (fnt := font_of truetype cls self) in *.
  assert (∀ k : nat, (1 ≤ k)%nat →
            TextArea.available_width self
            < prefix_width fnt (Py.split (TextArea.text self)) k) as Hall.
  { intros k Hk. eapply Z.lt_le_trans; [exact Hfirst|]. apply Hmono. lia. }
  rewrite post_init_result, layout_out_of_fuel; [done| |].
  - specialize (Hall (length (Py.split (TextArea.text self)))).
    unfold prefix_width in Hall. rewrite take_all_join in Hall.
    unfold whole_width. fold fnt.
    pose proof (split_nonempty (TextArea.text self)).
    destruct (Py.split (TextArea.text self)); [done|]. simpl in Hall. lia.
  - apply wrap_words_all_wide; [apply split_nonempty|done].
Qed.

(** X11. A text that is a single word wider than the available width is
    never laid out, whatever the face: however much fuel the construction is
    given it has not returned (in Python, the search recurses until the
    recursion limit raises). *)
Lemma post_init_single_word_too_wide truetype cls self :
  Py.split (TextArea.text self) = [TextArea.text self] →
  TextArea.available_width self < whole_width (font_of truetype cls self) self →
  ∀ fuel, (TextArea.post_init truetype fuel cls self).2 = OutOfFuel.
Proof.
  intros Hone Hwide fuel.
  rewrite post_init_result, layout_out_of_fuel; [done|lia|].
  rewrite Hone. apply wrap_words_all_wide; [done|].
  intros [|k] Hk; [lia|]. unfold prefix_width. simpl. by rewrite take_nil.
Qed.

(** C1, at the input where the code departs from it: one word, wider than
    the box. However much fuel the construction is given, it has not
    returned: the search re-enters the range [0, 0] for ever (in Python, until
    the recursion limit raises). No line is emitted. *)
Theorem oversized_word_never_laid_out :
  ∀ fuel,
    (TextArea.post_init fixed_pitch fuel Fonts_initial
       (text_area "Supercalifragilistic" 100 0 17 2)).2 = OutOfFuel.
Proof.
  apply post_init_first_word_too_wide.
  - apply (fixed_pitch_monotone _ BODY_FONT_NAME 34); [reflexivity|lia].
  - vm_compute. reflexivity.
Qed.

(** The part of C1 the code does keep: when every word fits on its own,
    the wrapping loop finishes, and each search returns at least one word. *)
Lemma wrapping_finishes_when_words_fit truetype cls self :
  words_fit (font_of truetype cls self) (TextArea.available_width self)
    (Py.split (TextArea.text self)) →
  ∀ fuel, (length (Py.split (TextArea.text self)) < fuel)%nat →
    ∃ st,
      TextArea.wrap_words fuel fuel (font_of truetype cls self) self
        (Py.split (TextArea.text self)) ([], 0) = Ok st.
Proof. intros Hfit fuel Hfuel. apply wrap_words_returns; [done|lia..]. Qed.

(** X12. When every word fits the available width on its own, the
    construction has an outcome, a TextArea or an exception, as soon as the
    fuel exceeds the number of words. *)
Lemma post_init_finishes_when_words_fit truetype cls self :
  words_fit (font_of truetype cls self) (TextArea.available_width self)
    (Py.split (TextArea.text self)) →
  ∀ fuel, (length (Py.split (TextArea.text self)) < fuel)%nat →
    (TextArea.post_init truetype fuel cls self).2 ≠ OutOfFuel.
Proof.
  intros Hfit fuel Hfuel. rewrite post_init_result.
  destruct (wrapping_finishes_when_words_fit truetype cls self Hfit fuel Hfuel)
    as [st Hst].
  assert (∀ laid, TextArea.restore_scale laid ≠ OutOfFuel) as Hscale.
  { intros laid. unfold TextArea.restore_scale. by destruct (_ =? 0). }
  revert Hst. unfold TextArea.layout, font_of.
  destruct (get_font _ _ _ _) as [f c]. simpl.
  destruct (getsize (face f) (TextArea.text self)) as [tw h]. simpl.
  intros Hst. destruct (tw <? TextArea.available_width self).
  - destruct (TextArea.height self =? 0); apply Hscale.
  - rewrite Hst. simpl. destruct (_ && _); [done|apply Hscale].
Qed.

(** ** Claims about heights and offsets *)






(** C8, at the input where the code departs from it: a text that fits on
    one line in a box of fixed height 40. The supersampled height is 80 and
    the one line is 34 high, so centring asks for an offset of 23; the code
    scales the supersampled height once more and starts the text at 63, so
    that the line ends below the block. *)
Theorem one_line_fixed_height_offset :
  let self := text_area "Hello" 240 40 17 2 in
  ∃ obj,
    (TextArea.post_init fixed_pitch 0 Fonts_initial self).2 = Ok obj
    ∧ TextArea.supersampled_height obj = 80
    ∧ stacked_height (TextArea.text_height obj) (TextArea.line_spacing obj)
        (TextArea.text_lines obj) = 34
    ∧ TextArea.text_y obj = 63
    ∧ (TextArea.supersampled_height obj
       - stacked_height (TextArea.text_height obj) (TextArea.line_spacing obj)
           (TextArea.text_lines obj)) / 2 = 23
    ∧ TextArea.text_y obj + TextArea.text_height obj
      > TextArea.supersampled_height obj.
Proof. vm_compute. eexists. split_and!; reflexivity. Qed.

(** X13. On the other two paths (wrapped text, or height 0) the offset is
    the centred one, namely 0: the block is exactly as high as the stack. *)
Lemma text_y_centred_when_wrapped_or_auto truetype fuel cls self obj :
  (TextArea.post_init truetype fuel cls self).2 = Ok obj →
  TextArea.available_width self ≤ whole_width (font_of truetype cls self) self
  ∨ TextArea.height self = 0 →
  TextArea.text_y obj
  = (TextArea.supersampled_height obj
     - stacked_height (TextArea.text_height obj) (TextArea.line_spacing obj)
         (TextArea.text_lines obj)) / 2
  ∧ TextArea.text_y obj = 0.
Proof.
  intros (laid & Hlaid & Hobj)%post_init_Ok Hpath.
  apply restore_scale_Ok in Hobj
    as (_ & _ & -> & -> & -> & -> & -> & _).
  destruct (Z.lt_ge_cases (whole_width (font_of truetype cls self) self)
              (TextArea.available_width self)) as [Hfit|Hwide].
  - destruct Hpath as [?|Hzero]; [lia|].
    destruct (layout_one_line truetype fuel cls self Hfit)
      as (laid' & Hlaid' & _ & _ & Hth & _ & Hlines & Hssh & Hty).
    rewrite Hlaid in Hlaid'. injection Hlaid' as <-.
    rewrite Hty, Hssh, Hlines, Hth, Hzero. unfold stacked_height. simpl.
    change (Py.len _) with 1.
    by rewrite Z.mul_1_r, Z.sub_diag, Z.mul_0_r, Z.add_0_r, Z.sub_diag.
  - apply (layout_wrapping truetype fuel cls self Hwide) in Hlaid
      as (st & _ & _ & ->).
    simpl. by rewrite Z.sub_diag.
Qed.

(** ** Line spacing *)

Lemma draw_lines_y self lines :
  ∀ cur_y i x y s,
    TextArea.draw_lines self lines cur_y !! i = Some (x, y, s) →
    y = cur_y + Z.of_nat i * (TextArea.text_height self + TextArea.line_spacing self).
Proof.
  induction lines as [|line lines IH]; intros cur_y [|i] x y s Hi; simpl in Hi;
    try done.
  - injection Hi as _ <- _. lia.
  - apply IH in Hi. lia.
Qed.

(** C9, as the code has it, where the layout is not supersampled: with a
    factor of 1 the text is laid out with the font at [font_size] itself
    (with any other factor the font and every other length are scaled by the
    factor and this spacing alone is not). For a font size below [2 ^ 53] in
    magnitude the spacing of a constructed TextArea is
    [int(0.25 * font_size)], computed through a double without loss: a
    quarter of the font size truncated toward zero, which for a non-negative
    size is the quarter rounded down; and [render] draws each line that much,
    plus the text height, below the one before. *)
Theorem line_spacing_is_truncated_quarter truetype fuel cls self obj :
  (TextArea.post_init truetype fuel cls self).2 = Ok obj →
  TextArea.supersampling_factor self = 1 →
  Z.abs (TextArea.font_size self) < 2 ^ 53 →
  TextArea.font obj
  = (get_font truetype cls (TextArea.font_name self) (TextArea.font_size self)).1
  ∧ TextArea.line_spacing_binary64 self = Some (TextArea.line_spacing obj)
  ∧ TextArea.line_spacing obj = Z.quot (TextArea.font_size self) 4
  ∧ (0 ≤ TextArea.font_size self →
     TextArea.line_spacing obj = TextArea.font_size self / 4)
  ∧ ∀ i x y s x' y' s',
      TextArea.render_text obj !! i = Some (x, y, s) →
      TextArea.render_text obj !! S i = Some (x', y', s') →
      y' - y = TextArea.text_height obj + TextArea.line_spacing obj.
Proof.
  intros (laid & Hlaid & Hobj)%post_init_Ok Hssf Hsize.
  apply restore_scale_Ok in Hobj as (_ & Hfont & _ & _ & Hls & _).
  assert (TextArea.line_spacing obj = Z.quot (TextArea.font_size self) 4
          ∧ TextArea.font laid = font_of truetype cls self) as [Hquot Hfnt].
  { rewrite Hls.
    destruct (Z.lt_ge_cases (whole_width (font_of truetype cls self) self)
                (TextArea.available_width self)) as [Hfit|Hwide].
    - destruct (layout_one_line truetype fuel cls self Hfit)
        as (laid' & Hlaid' & _ & Hf & _ & Hq & _).
      rewrite Hlaid in Hlaid'. by injection Hlaid' as <-.
    - by apply (layout_wrapping truetype fuel cls self Hwide) in Hlaid
        as (st & _ & _ & ->). }
  split_and!.
  - rewrite Hfont, Hfnt. unfold font_of. by rewrite Hssf, Z.mul_1_l.
  - unfold TextArea.line_spacing_binary64, BODY_LINE_SPACING_binary64.
    by rewrite (int_float_quarter _ Hsize), Hquot.
  - done.
  - intros Hpos. rewrite Hquot. by apply Z.quot_div_nonneg.
  - unfold TextArea.render_text. intros i x y s x' y' s' Hi Hi'.
    apply draw_lines_y in Hi, Hi'. lia.
Qed.

Lemma line_spacing_is_truncated_quarter_witness :
  let self := text_area "Hello world this is a test" 120 0 17 1 in
  ∃ obj,
    (TextArea.post_init fixed_pitch 30 Fonts_initial self).2 = Ok obj
    ∧ TextArea.supersampling_factor self = 1
    ∧ Z.abs (TextArea.font_size self) < 2 ^ 53
    ∧ TextArea.line_spacing obj = 4
    ∧ TextArea.line_spacing_binary64 self = Some (TextArea.line_spacing obj)
    ∧ TextArea.render_text obj
      = [(17, 0, "Hello"); (17, 21, "world"); (26, 42, "this"); (26, 63, "is a");
         (26, 84, "test")].
Proof.
  assert (∃ obj,
    (TextArea.post_init fixed_pitch 30 Fonts_initial
       (text_area "Hello world this is a test" 120 0 17 1)).2 = Ok obj
    ∧ TextArea.line_spacing obj = 4
    ∧ TextArea.render_text obj
      = [(17, 0, "Hello"); (17, 21, "world"); (26, 42, "this"); (26, 63, "is a");
         (26, 84, "test")])
    as (obj & Hobj & Hls & Hdraw) by (vm_compute; eexists; split_and!; reflexivity).
  exists obj. split; [exact Hobj|]. split; [reflexivity|]. split; [reflexivity|].
  split; [exact Hls|]. split; [|exact Hdraw].
  exact (proj1 (proj2 (line_spacing_is_truncated_quarter fixed_pitch 30 Fonts_initial
                         (text_area "Hello world this is a test" 120 0 17 1) obj Hobj
                         eq_refl eq_refl))).
Defined.

(** C9 as stated fails, also without supersampling: at font size 19 a
    quarter is 4.75, which rounds to 5; the spacing is 4. And a font size
    from [2 ^ 53] on need not be a double: at [2 ^ 55 + 4] the product that
    line 113 truncates is [2 ^ 53], a quarter of the size is
    [2 ^ 53 + 1]. *)
Lemma line_spacing_not_rounded :
  let self := text_area "Hello" 240 0 19 1 in
  let huge := text_area "Hello" 240 0 (2 ^ 55 + 4) 1 in
  (∃ obj,
     (TextArea.post_init fixed_pitch 0 Fonts_initial self).2 = Ok obj
     ∧ TextArea.line_spacing obj = 4
     ∧ TextArea.line_spacing_binary64 self = Some 4
     ∧ round_half_even (Qmult BODY_LINE_SPACING (inject_Z (TextArea.font_size self)))
       = 5)
  ∧ TextArea.line_spacing_binary64 huge = Some (2 ^ 53)
  ∧ round_half_even (Qmult BODY_LINE_SPACING (inject_Z (TextArea.font_size huge)))
    = 2 ^ 53 + 1.
Proof.
  cbv zeta. split; [vm_compute; eexists; split_and!; reflexivity|].
  split; vm_compute; reflexivity.
Qed.

(** ** Centring one line of text *)

(** C6, as the code has it. As long as the slack that is halved, the box
    width less the text's extent when the text is centred and the box height
    less the ascent's extent always, is below [2 ^ 53] in magnitude, the
    result is a function of the font's answers and the arguments alone: the
    horizontal position is the origin plus either the slack halved and
    truncated toward zero, less the bearing, or the component padding; the
    vertical position likewise from the ascent. The double that the source
    halves through does not show, so the exact halving of
    [calc_text_centering] gives the same pair; and truncation is rounding
    down as long as the text is no larger than the box. *)
Theorem calc_text_centering_formula font text is_text_centered
    box_width box_height start_x start_y :
  let offset_x := (getoffset (face font) text).1 in
  let offset_y := (getoffset (face font) text).2 in
  let box_right := (getbbox (face font) text).1.2 in
  let ascent := (getmetrics (face font)).1 in
  let slack_x := box_width - (box_right - offset_x) in
  let slack_y := box_height - (ascent - offset_y) in
  (is_text_centered = true → Z.abs slack_x < 2 ^ 53) →
  Z.abs slack_y < 2 ^ 53 →
  calc_text_centering_binary64 font text is_text_centered box_width box_height
    start_x start_y
  = Some (start_x
          + (if is_text_centered then Z.quot slack_x 2 - offset_x
             else COMPONENT_PADDING),
          start_y + (Z.quot slack_y 2 - offset_y))
  ∧ calc_text_centering font text is_text_centered box_width box_height
      start_x start_y
    = (start_x
       + (if is_text_centered then Z.quot slack_x 2 - offset_x
          else COMPONENT_PADDING),
       start_y + (Z.quot slack_y 2 - offset_y))
  ∧ (0 ≤ slack_x → 0 ≤ slack_y →
     calc_text_centering_binary64 font text is_text_centered box_width box_height
       start_x start_y
     = Some (if is_text_centered then start_x + slack_x / 2 - offset_x
             else start_x + COMPONENT_PADDING,
             start_y + slack_y / 2 - offset_y)).
Proof.
  cbv zeta. unfold calc_text_centering_binary64, calc_text_centering, Py.int_truediv.
  destruct (getoffset (face font) text) as [offset_x offset_y].
  destruct (getbbox (face font) text) as [[[box_left box_top] box_right] box_bottom].
  destruct (getmetrics (face font)) as [ascent descent].
  cbn [fst snd]. intros Hx Hy.
  rewrite (int_float_truediv _ 2 Hy) by done.
  rewrite !int_truediv_2.
  destruct is_text_centered.
  - rewrite (int_float_truediv _ 2 (Hx eq_refl)) by done.
    cbn [mbind option_bind]. split_and!; [done..|].
    intros Hx0 Hy0. rewrite !Z.quot_div_nonneg by lia. do 2 f_equal; lia.
  - cbn [mbind option_bind]. split_and!; [done..|].
    intros _ Hy0. rewrite !Z.quot_div_nonneg by lia. do 2 f_equal; lia.
Qed.

Lemma calc_text_centering_formula_witness :
  let font := {| oid := 0; face := fixed_pitch BUTTON_FONT_NAME 34 |} in
  let slack_x :=
    240 - ((getbbox (face font) "Back").1.2 - (getoffset (face font) "Back").1) in
  let slack_y :=
    48 - ((getmetrics (face font)).1 - (getoffset (face font) "Back").2) in
  Z.abs slack_x < 2 ^ 53
  ∧ Z.abs slack_y < 2 ^ 53
  ∧ calc_text_centering_binary64 font "Back" true 240 48 8 16 = Some (60, 23)
  ∧ calc_text_centering_binary64 font "Back" true 240 48 8 16
    = Some (8 + (Z.quot slack_x 2 - (getoffset (face font) "Back").1),
            16 + (Z.quot slack_y 2 - (getoffset (face font) "Back").2)).
Proof.
  cbv zeta. split; [reflexivity|]. split; [reflexivity|].
  split; [vm_compute; reflexivity|].
  exact (proj1 (calc_text_centering_formula
                  {| oid := 0; face := fixed_pitch BUTTON_FONT_NAME 34 |}
                  "Back" true 240 48 8 16
                  (λ _, eq_refl) eq_refl)).
Defined.

(** C6 as stated fails twice. Four characters, 136 wide, centred in a box
    33 wide: the slack is -103; halved and truncated it is -51, rounded down
    it would be -52. And an empty text centred in a box [2 ^ 53 + 3] wide:
    half the slack is not a double, the nearest one is [2 ^ 52 + 2], and the
    slack halved and rounded down is [2 ^ 52 + 1]. *)
Lemma calc_text_centering_truncates :
  let font := {| oid := 0; face := fixed_pitch BUTTON_FONT_NAME 34 |} in
  calc_text_centering_binary64 font "Back" true 33 34 0 0 = Some (-51, 0)
  ∧ 0 + (33 - ((getbbox (face font) "Back").1.2 - (getoffset (face font) "Back").1)) / 2
      - (getoffset (face font) "Back").1 = -52
  ∧ calc_text_centering_binary64 font "" true (2 ^ 53 + 3) 34 0 0
    = Some (4503599627370498, 0)
  ∧ 0 + (2 ^ 53 + 3 - ((getbbox (face font) "").1.2 - (getoffset (face font) "").1)) / 2
      - (getoffset (face font) "").1 = 4503599627370497.
Proof. vm_compute. split_and!; reflexivity. Qed.

(** ** Claims about the font cache *)

(** ** The font cache when loads can fail *)

Section FontFilesFacts.

Variable ImageFont_truetype : string → Z → option FontMetrics.

Local Abbreviation get := (Fonts_get_font ImageFont_truetype).

(** A hit: the cached object is returned and nothing changes, whatever has
    become of the font file. *)
Lemma Fonts_get_font_hit cls font_name size by_size f :
  fonts cls !! font_name = Some by_size →
  by_size !! size = Some f →
  get cls font_name size = (Some f, cls).
Proof.
  intros Hname Hsize. unfold Fonts_get_font. rewrite Hname. simpl.
  rewrite Hname. simpl. rewrite Hsize. by destruct cls.
Qed.

(** A miss: the loader is called and the call is logged; a font that loads
    is stored under the key, a failed load leaves the per-name dict. *)
Lemma Fonts_get_font_miss cls font_name size :
  ¬ cached cls font_name size →
  get cls font_name size =
    let by_size := default ∅ (fonts cls !! font_name) in
    let log := loaded cls ++ [(font_name, size)] in
    match ImageFont_truetype font_name size with
    | None => (None, {| fonts := <[font_name := by_size]> (fonts cls); loaded := log |})
    | Some metrics =>
        let f := {| oid := length (loaded cls); face := metrics |} in
        (Some f, {| fonts := <[font_name := <[size := f]> by_size]> (fonts cls);
                    loaded := log |})
    end.
Proof.
  intros Hmiss. unfold Fonts_get_font.
  destruct (fonts cls !! font_name) as [by_size|] eqn:Hname; simpl.
  - rewrite Hname. simpl.
    destruct (by_size !! size) as [f|] eqn:Hsize.
    { destruct Hmiss. by exists by_size, f. }
    destruct (ImageFont_truetype font_name size); [done|].
    by rewrite insert_id.
  - rewrite lookup_insert_eq. simpl. rewrite lookup_empty.
    destruct (ImageFont_truetype font_name size); [|done].
    by rewrite insert_insert_eq.
Qed.

(** A lookup, returning or raising, never disturbs what is cached. *)
Lemma Fonts_get_font_keeps cls font_name size font_name' size' by_size f :
  fonts cls !! font_name' = Some by_size →
  by_size !! size' = Some f →
  ∃ by_size',
    fonts (get cls font_name size).2 !! font_name' = Some by_size'
    ∧ by_size' !! size' = Some f.
Proof.
  intros Hname Hsize.
  destruct (cached_dec cls font_name size) as [(m & g & Hm & Hg)|Hmiss].
  - rewrite (Fonts_get_font_hit _ _ _ _ _ Hm Hg). by exists by_size.
  - rewrite (Fonts_get_font_miss _ _ _ Hmiss). cbv zeta.
    destruct (decide (font_name = font_name')) as [->|Hne].
    + rewrite Hname.
      destruct (ImageFont_truetype font_name' size); simpl;
        rewrite lookup_insert_eq; eexists; (split; [done|]); [|done].
      rewrite lookup_insert_ne; [done|].
      intros ->. apply Hmiss. by exists by_size, f.
    + destruct (ImageFont_truetype font_name size); simpl;
        rewrite lookup_insert_ne by done; by exists by_size.
Qed.

(** A returned font is stored under its key. *)
Lemma Fonts_get_font_stored cls font_name size f :
  (get cls font_name size).1 = Some f →
  ∃ by_size,
    fonts (get cls font_name size).2 !! font_name = Some by_size
    ∧ by_size !! size = Some f.
Proof.
  destruct (cached_dec cls font_name size) as [(by_size & g & Hname & Hsize)|Hmiss].
  - rewrite (Fonts_get_font_hit _ _ _ _ _ Hname Hsize). intros [= <-].
    by exists by_size.
  - rewrite (Fonts_get_font_miss _ _ _ Hmiss). cbv zeta.
    destruct (ImageFont_truetype font_name size); [|done].
    intros [= <-]. simpl. eexists. by rewrite !lookup_insert_eq.
Qed.

End FontFilesFacts.

(** In a reachable cache, the object under a key was created by the call of
    the loader that the log records at the object's number. *)
Lemma reachable_loading_logged cls :
  reachable_loading cls →
  ∀ font_name size by_size f,
    fonts cls !! font_name = Some by_size →
    by_size !! size = Some f →
    loaded cls !! oid f = Some (font_name, size).
Proof.
  induction 1 as [|ImageFont_truetype cls name size Hreach IH];
    intros name' size' by_size f Hname Hsize.
  - simpl in Hname. by rewrite lookup_empty in Hname.
  - destruct (cached_dec cls name size) as [(m & g & Hm & Hg)|Hmiss].
    + rewrite (Fonts_get_font_hit _ _ _ _ _ _ Hm Hg) in *. eauto.
    + rewrite (Fonts_get_font_miss _ _ _ _ Hmiss) in *. cbv zeta in *.
      destruct (ImageFont_truetype name size) as [metrics|]; simpl in *.
      * destruct (decide (name = name')) as [<-|Hne].
        -- rewrite lookup_insert_eq in Hname. injection Hname as <-.
           destruct (decide (size = size')) as [<-|Hne'].
           ++ rewrite lookup_insert_eq in Hsize. injection Hsize as <-. simpl.
              by rewrite lookup_app_r, Nat.sub_diag.
           ++ rewrite lookup_insert_ne in Hsize by done.
              destruct (fonts cls !! name) as [m|] eqn:Hm; simpl in Hsize;
                [|by rewrite lookup_empty in Hsize].
              apply lookup_app_l_Some. eauto.
        -- rewrite lookup_insert_ne in Hname by done.
           apply lookup_app_l_Some. eauto.
      * destruct (decide (name = name')) as [<-|Hne].
        -- rewrite lookup_insert_eq in Hname. injection Hname as <-.
           destruct (fonts cls !! name) as [m|] eqn:Hm; simpl in Hsize;
             [|by rewrite lookup_empty in Hsize].
           apply lookup_app_l_Some. eauto.
        -- rewrite lookup_insert_ne in Hname by done.
           apply lookup_app_l_Some. eauto.
Qed.

(** With an engine whose loads all return, [Fonts_get_font] is
    [get_font]. *)
Lemma Fonts_get_font_total truetype cls font_name size :
  Fonts_get_font (λ font_name size, Some (truetype font_name size)) cls font_name size
  = (Some (get_font truetype cls font_name size).1,
     (get_font truetype cls font_name size).2).
Proof.
  unfold Fonts_get_font, get_font.
  destruct (fonts cls !! font_name) as [by_size|]; simpl;
    by destruct (_ !! size).
Qed.

(** C10, as the code has it. In any cache reachable from the empty one by
    lookups that returned or raised, whenever a lookup returns a font (its
    file loads, or the font is cached already): a second lookup of the same name and size returns the same
    object and changes nothing, so it does not call the loader; a following
    lookup of the same name at another size, when it returns, returns a
    different object, and it calls the loader exactly when that size was not
    cached before. *)
Theorem get_font_is_cached ImageFont_truetype cls font_name size size' f :
  reachable_loading cls →
  size ≠ size' →
  (Fonts_get_font ImageFont_truetype cls font_name size).1 = Some f →
  let first := Fonts_get_font ImageFont_truetype cls font_name size in
  let second := Fonts_get_font ImageFont_truetype first.2 font_name size in
  let third := Fonts_get_font ImageFont_truetype second.2 font_name size' in
  second = (Some f, first.2)
  ∧ (∀ f', third.1 = Some f' → f' ≠ f ∧ oid f' ≠ oid f)
  ∧ (¬ cached cls font_name size' →
     loaded third.2 = loaded second.2 ++ [(font_name, size')])
  ∧ (cached cls font_name size' → is_Some third.1 ∧ third.2 = second.2).
Proof.
  intros Hreach Hne Hfirst. cbv zeta.
  destruct (Fonts_get_font_stored _ _ _ _ _ Hfirst) as (m1 & Hm1 & Hf1).
  set (first := Fonts_get_font ImageFont_truetype cls font_name size) in *.
  rewrite (Fonts_get_font_hit _ _ _ _ _ _ Hm1 Hf1). cbn [snd].
  set (third := Fonts_get_font ImageFont_truetype first.2 font_name size').
  split_and!; [done| | |].
  - intros f' Hthird.
    assert (oid f' ≠ oid f) as Hoid.
    { destruct (Fonts_get_font_stored _ _ _ _ _ Hthird) as (m3 & Hm3 & Hf3).
      destruct (Fonts_get_font_keeps ImageFont_truetype first.2 font_name size'
                  _ _ _ _ Hm1 Hf1) as (m3' & Hm3' & Hf1').
      fold third in Hm3, Hf3, Hm3', Hf1'.
      assert (reachable_loading third.2) as Hreach3 by (by do 2 constructor).
      pose proof (reachable_loading_logged _ Hreach3 _ _ _ _ Hm3 Hf3) as Hlog3.
      pose proof (reachable_loading_logged _ Hreach3 _ _ _ _ Hm3' Hf1') as Hlog1.
      intros Heq. rewrite Heq in Hlog3. congruence. }
    split; [|done]. intros Heq. by rewrite Heq in Hoid.
  - intros Hmiss. subst third. rewrite Fonts_get_font_miss.
    { cbv zeta. by destruct (ImageFont_truetype font_name size'). }
    intros (m & g & Hm & Hg). apply Hmiss. subst first.
    destruct (cached_dec cls font_name size) as [(m0 & g0 & Hm0 & Hg0)|Hmiss0].
    + rewrite (Fonts_get_font_hit _ _ _ _ _ _ Hm0 Hg0) in Hm. by exists m, g.
    + rewrite (Fonts_get_font_miss _ _ _ _ Hmiss0) in Hm, Hfirst. cbv zeta in Hm, Hfirst.
      destruct (ImageFont_truetype font_name size); [|done]. simpl in Hm.
      rewrite lookup_insert_eq in Hm. injection Hm as <-.
      rewrite lookup_insert_ne in Hg by done.
      destruct (fonts cls !! font_name) as [m0|] eqn:Hm0; simpl in Hg;
        [by exists m0, g|by rewrite lookup_empty in Hg].
  - intros (m & g & Hm & Hg). subst third.
    destruct (Fonts_get_font_keeps ImageFont_truetype cls font_name size
                _ _ _ _ Hm Hg) as (m' & Hm' & Hg').
    fold first in Hm'. rewrite (Fonts_get_font_hit _ _ _ _ _ _ Hm' Hg').
    by split; [eexists|].
Qed.

Lemma get_font_is_cached_witness :
  let f := {| oid := 0; face := fixed_pitch "Body" 17 |} in
  let first := Fonts_get_font fonts_present Fonts_initial "Body" 17 in
  let second := Fonts_get_font fonts_present first.2 "Body" 17 in
  let third := Fonts_get_font fonts_present second.2 "Body" 18 in
  reachable_loading Fonts_initial
  ∧ 17 ≠ 18
  ∧ first.1 = Some f
  ∧ second = (Some f, first.2)
  ∧ (∀ f', third.1 = Some f' → f' ≠ f ∧ oid f' ≠ oid f)
  ∧ (¬ cached Fonts_initial "Body" 18 →
     loaded third.2 = loaded second.2 ++ [("Body", 18)])
  ∧ (cached Fonts_initial "Body" 18 → is_Some third.1 ∧ third.2 = second.2).
Proof.
  cbv zeta. split; [constructor|]. split; [discriminate|].
  split; [reflexivity|].
  exact (get_font_is_cached fonts_present Fonts_initial "Body" 17 18
           {| oid := 0; face := fixed_pitch "Body" 17 |}
           reachable_loading_initial ltac:(discriminate) eq_refl).
Defined.

(** C10 as stated fails twice. When the other size is in the cache
    already: after a lookup of size 18, two lookups of size 17 and then one
    of size 18, the last one loads nothing. And when the font file cannot be
    loaded: both lookups raise, the second calls the loader again, and the
    cache is left with an empty dict for the name. *)
Lemma get_font_other_size_already_cached :
  let warm := (Fonts_get_font fonts_present Fonts_initial "Body" 18).2 in
  let first := Fonts_get_font fonts_present warm "Body" 17 in
  let second := Fonts_get_font fonts_present first.2 "Body" 17 in
  let third := Fonts_get_font fonts_present second.2 "Body" 18 in
  let failed := Fonts_get_font fonts_missing Fonts_initial "Body" 17 in
  let failed_again := Fonts_get_font fonts_missing failed.2 "Body" 17 in
  (reachable_loading warm
   ∧ is_Some first.1 ∧ is_Some third.1
   ∧ loaded second.2 = [("Body", 18); ("Body", 17)]
   ∧ loaded third.2 = loaded second.2)
  ∧ (failed.1 = None ∧ failed_again.1 = None
     ∧ loaded failed.2 = [("Body", 17)]
     ∧ loaded failed_again.2 = [("Body", 17); ("Body", 17)]
     ∧ fonts failed_again.2 = {[ "Body" := ∅ ]}).
Proof.
  cbv zeta. split.
  - split; [by do 2 constructor|].
    split; [vm_compute; by eexists|]. split; [vm_compute; by eexists|].
    split; vm_compute; reflexivity.
  - split_and!; vm_compute; reflexivity.
Qed.

(** * Further properties of the code *)

(** ** The font cache *)


Lemma reachable_get_fonts truetype cls requests :
  reachable truetype cls → reachable truetype (get_fonts truetype cls requests).
Proof.
  revert cls. induction requests as [|r requests IH]; intros cls Hreach; [done|].
  apply IH. by constructor.
Qed.



(** X2. In every cache a program can reach, a lookup returns a font with the
    metrics of the requested file and size: the cache never hands out the
    font of another key. *)
Theorem get_font_returns_requested_face truetype cls font_name size :
  reachable truetype cls →
  face (get_font truetype cls font_name size).1 = truetype font_name size.
Proof.
  intros Hreach.
  assert (∀ n s m f,
            fonts cls !! n = Some m → m !! s = Some f → face f = truetype n s) as Hfaces.
  { clear font_name size.
    induction Hreach as [|cls name size Hreach IH]; intros n s m f Hm Hf.
    - simpl in Hm. by rewrite lookup_empty in Hm.
    - destruct (cached_dec cls name size) as [(m0 & g & Hm0 & Hg)|Hmiss].
      + rewrite (get_font_hit _ _ _ _ _ _ Hm0 Hg) in *. eauto.
      + rewrite (get_font_miss _ _ _ _ Hmiss) in *. simpl in *.
        destruct (decide (name = n)) as [<-|Hne].
        * rewrite lookup_insert_eq in Hm. injection Hm as <-.
          destruct (decide (size = s)) as [<-|Hne'].
          -- rewrite lookup_insert_eq in Hf. by injection Hf as <-.
          -- rewrite lookup_insert_ne in Hf by done.
             destruct (fonts cls !! name) as [m0|] eqn:Hm0; simpl in Hf;
               [eauto|by rewrite lookup_empty in Hf].
        * rewrite lookup_insert_ne in Hm by done. eauto. }
  destruct (cached_dec cls font_name size) as [(m & f & Hm & Hf)|Hmiss].
  - rewrite (get_font_hit _ _ _ _ _ _ Hm Hf). simpl. eauto.
  - by rewrite (get_font_miss _ _ _ _ Hmiss).
Qed.

Lemma get_font_returns_requested_face_witness :
  let cls := get_fonts fixed_pitch Fonts_initial [("Body", 17); ("Body", 18)] in
  reachable fixed_pitch cls
  ∧ face (get_font fixed_pitch cls "Body" 17).1 = fixed_pitch "Body" 17.
Proof.
  cbv zeta.
  assert (reachable fixed_pitch
            (get_fonts fixed_pitch Fonts_initial [("Body", 17); ("Body", 18)]))
    as Hreach by (apply reachable_get_fonts; constructor).
  split; [done|].
  by apply (get_font_returns_requested_face fixed_pitch).
Defined.

(** X3. The cache never evicts: once a key holds a font, then after any
    further sequence of lookups a lookup of that key returns the very same
    object and neither changes the cache nor loads anything. *)
Theorem get_font_never_evicts truetype cls font_name size by_size f requests :
  fonts cls !! font_name = Some by_size →
  by_size !! size = Some f →
  get_font truetype (get_fonts truetype cls requests) font_name size
  = (f, get_fonts truetype cls requests).
Proof.
  revert cls by_size. induction requests as [|r requests IH]; intros cls m Hm Hf.
  - by apply (get_font_hit _ _ _ _ m).
  - simpl.
    destruct (get_font_keeps truetype cls r.1 r.2 _ _ _ _ Hm Hf) as (m' & Hm' & Hf').
    by apply (IH _ m').
Qed.

Lemma get_font_never_evicts_witness :
  let cls := (get_font fixed_pitch Fonts_initial "Body" 17).2 in
  let f := (get_font fixed_pitch Fonts_initial "Body" 17).1 in
  let later := get_fonts fixed_pitch cls [("Body", 18); ("Title", 17); ("Body", 19)] in
  get_font fixed_pitch later "Body" 17 = (f, later).
Proof.
  cbv zeta.
  destruct (get_font_stored fixed_pitch Fonts_initial "Body" 17) as (m & Hm & Hf).
  exact (get_font_never_evicts fixed_pitch _ "Body" 17 m _ _ Hm Hf).
Defined.

(** ** More on the layout of a TextArea *)

Lemma layout_Ok_fields truetype fuel cls self laid :
  (TextArea.layout truetype fuel cls self).2 = Ok laid →
  TextArea.dataclass laid = self
  ∧ TextArea.font laid = font_of truetype cls self
  ∧ TextArea.supersampled_width laid
    = TextArea.supersampling_factor self * TextArea.width self
  ∧ TextArea.text_height laid
    = (getsize (face (font_of truetype cls self)) (TextArea.text self)).2.
Proof.
  unfold TextArea.layout, font_of.
  destruct (get_font _ _ _ _) as [f c]. simpl.
  destruct (getsize (face f) (TextArea.text self)) as [tw h]. simpl.
  destruct (tw <? TextArea.available_width self).
  - destruct (TextArea.height self =? 0); by intros [= <-].
  - destruct (TextArea.wrap_words _ _ _ _ _ _) as [st| |]; simpl; [|done..].
    destruct (_ && _); [done|]. by intros [= <-].
Qed.

Lemma layout_raises_overflow_only truetype fuel cls self e :
  (TextArea.layout truetype fuel cls self).2 = Raise e → e = TextArea.overflow_error.
Proof.
  destruct (Z.lt_ge_cases (whole_width (font_of truetype cls self) self)
              (TextArea.available_width self)) as [Hfit|Hwide].
  - destruct (layout_one_line truetype fuel cls self Hfit) as (laid & -> & _). done.
  - rewrite (layout_wrapping_raises truetype fuel cls self Hwide). by intros [-> _].
Qed.

Section Lines.

Variables (fnt : FreeTypeFont) (self : TextArea.init).

Local Abbreviation limit := (TextArea.available_width self).

Lemma add_text_line_state st text tw :
  TextArea._add_text_line self st text tw
  = (st.1 ++ [{| line_text := text; line_text_x := line_x self tw |}], Z.max st.2 tw).
Proof.
  unfold TextArea._add_text_line, line_x. rewrite int_truediv_2. f_equal.
  destruct (Z.gtb_spec tw st.2); lia.
Qed.

(** Each line the loop adds is placed by its own measured width, which is
    within the limit; [text_width] is raised to the widest of them. *)
Lemma wrap_words_lines (depth fuel : nat) :
  ∀ words st st',
    TextArea.wrap_words fuel depth fnt self words st = Ok st' →
    ∃ new,
      st'.1 = st.1 ++ new
      ∧ Forall (λ l, line_text_x l = line_x self (line_width fnt l)
                     ∧ line_width fnt l ≤ limit) new
      ∧ st'.2 = foldl Z.max st.2 (map (line_width fnt) new).
Proof.
  induction fuel as [|fuel IH]; intros [|w words] st st' Hrun;
    try (injection Hrun as <-; exists []; split_and!;
         [by rewrite app_nil_r|constructor|done]);
    [done|].
  rewrite wrap_words_unfold in Hrun.
  destruct (TextArea._binary_len_search _ _ _ _ _ _) as [[index tw]| |] eqn:Hs;
    [|done..].
  apply search_sound in Hs as (Hi & -> & Hfit & _);
    [|unfold Py.len; simpl length; lia..].
  cbn [mbind result_bind] in Hrun.
  rewrite slice_to_nat, add_text_line_state in Hrun by lia.
  apply IH in Hrun as (new & Hlines & Hall & Hmax). simpl in Hlines, Hmax.
  eexists (_ :: new). split_and!.
  - by rewrite Hlines, <- app_assoc.
  - constructor; [|done]. by split.
  - done.
Qed.

End Lines.

(** The same of a constructed TextArea, on either path. *)
Lemma post_init_lines truetype fuel cls self obj :
  (TextArea.post_init truetype fuel cls self).2 = Ok obj →
  let fnt := font_of truetype cls self in
  Forall (λ l, line_text_x l = line_x self (line_width fnt l)
               ∧ line_width fnt l ≤ TextArea.available_width self)
    (TextArea.text_lines obj)
  ∧ TextArea.text_width obj
    = Z.quot (foldl Z.max 0 (map (line_width fnt) (TextArea.text_lines obj)))
        (TextArea.supersampling_factor self).
Proof.
  intros (laid & Hlaid & Hobj)%post_init_Ok. cbv zeta.
  pose proof (layout_Ok_fields _ _ _ _ _ Hlaid) as (Hself & _).
  assert (TextArea.text_lines obj = TextArea.text_lines laid
          ∧ TextArea.text_width obj
            = Z.quot (TextArea.text_width laid) (TextArea.supersampling_factor self))
    as [-> ->].
  { revert Hobj. unfold TextArea.restore_scale. rewrite Hself.
    destruct (Z.eqb_spec (TextArea.supersampling_factor self) 0); [done|].
    intros [= <-]. simpl. by rewrite int_truediv. }
  set (fnt := font_of truetype cls self) in *.
  destruct (Z.lt_ge_cases (whole_width fnt self) (TextArea.available_width self))
    as [Hfit|Hwide].
  - revert Hlaid. unfold TextArea.layout. fold (font_of truetype cls self).
    unfold font_of in fnt.
    destruct (get_font _ _ _ _) as [f c]. simpl in fnt. subst fnt.
    unfold whole_width in Hfit.
    destruct (getsize (face f) (TextArea.text self)) as [tw h] eqn:Hsz.
    simpl in Hfit. cbv zeta.
    destruct (Z.ltb_spec tw (TextArea.available_width self)); [|lia].
    rewrite add_text_line_state.
    assert (line_width f {| line_text := TextArea.text self;
                            line_text_x := line_x self tw |} = tw) as Hw
      by (unfold line_width; simpl; by rewrite Hsz).
    destruct (TextArea.height self =? 0); intros [= <-]; simpl;
      (split; [constructor; [rewrite Hw; split; [done|lia]|constructor]
              |by rewrite Hw]).
  - apply (layout_wrapping truetype fuel cls self Hwide) in Hlaid
      as (st & Hrun & _ & ->).
    apply wrap_words_lines in Hrun as (new & Hlines & Hall & Hmax).
    simpl in *. by rewrite Hlines, Hmax.
Qed.



Lemma length_concat_nonempty {A} (chunks : list (list A)) :
  Forall (λ c, c ≠ []) chunks → (length chunks ≤ length (concat chunks))%nat.
Proof.
  induction 1 as [|c chunks Hc _ IH]; simpl; [lia|].
  rewrite length_app. destruct c; [done|simpl; lia].
Qed.

(** On the wrapping path and with height 0 the block is exactly the stack,
    starting at its top; the spacing is a quarter of the font size. *)
Lemma post_init_block truetype fuel cls self obj :
  (TextArea.post_init truetype fuel cls self).2 = Ok obj →
  TextArea.line_spacing obj = Z.quot (TextArea.font_size self) 4
  ∧ TextArea.supersampling_factor (TextArea.dataclass obj)
    = TextArea.supersampling_factor self
  ∧ TextArea.screen_y (TextArea.dataclass obj) = TextArea.screen_y self
  ∧ (TextArea.available_width self ≤ whole_width (font_of truetype cls self) self
     ∨ TextArea.height self = 0 →
     TextArea.text_y obj = 0
     ∧ TextArea.supersampled_height obj
       = stacked_height (TextArea.text_height obj) (TextArea.line_spacing obj)
           (TextArea.text_lines obj)).
Proof.
  intros (laid & Hlaid & Hobj)%post_init_Ok.
  pose proof (layout_Ok_fields _ _ _ _ _ Hlaid) as (Hself & _).
  apply restore_scale_Ok in Hobj
    as (_ & _ & -> & -> & -> & -> & -> & _ & -> & ->).
  rewrite Hself.
  destruct (Z.lt_ge_cases (whole_width (font_of truetype cls self) self)
              (TextArea.available_width self)) as [Hfit|Hwide].
  - destruct (layout_one_line truetype fuel cls self Hfit)
      as (laid' & Hlaid' & _ & _ & Hth & Hls & Hlines & Hssh & Hty).
    rewrite Hlaid in Hlaid'. injection Hlaid' as <-.
    split_and!; [done..|]. intros [?|Hzero]; [lia|].
    rewrite Hty, Hssh, Hlines, Hth, Hzero. unfold stacked_height. simpl.
    change (Py.len _) with 1. split; [done|lia].
  - apply (layout_wrapping truetype fuel cls self Hwide) in Hlaid
      as (st & _ & _ & ->).
    simpl. by split_and!.
Qed.

(** X4. Every line of a constructed TextArea keeps the edge padding on both
    sides of the supersampled box (for a non-negative supersampling factor);
    when the text is centred, the position is the slack halved, and the free
    space left and right of the line differ by at most one pixel. For a
    centred line this is stated where the slack, the supersampled width less
    the line's measured width, is below [2 ^ 53] in magnitude, so that
    halving it through a double loses nothing. *)
Theorem lines_keep_edge_padding truetype fuel cls self obj :
  (TextArea.post_init truetype fuel cls self).2 = Ok obj →
  0 ≤ TextArea.supersampling_factor self →
  let fnt := font_of truetype cls self in
  let ssf := TextArea.supersampling_factor self in
  Forall
    (λ l,
       let slack := ssf * TextArea.width self - line_width fnt l in
       (TextArea.is_text_centered self = true → Z.abs slack < 2 ^ 53) →
       ssf * EDGE_PADDING ≤ line_text_x l
       ∧ line_text_x l + line_width fnt l ≤ ssf * TextArea.width self - ssf * EDGE_PADDING
       ∧ (TextArea.is_text_centered self = true →
          Py.int_truediv slack 2 = Some (line_text_x l)
          ∧ line_text_x l
            ≤ ssf * TextArea.width self - (line_text_x l + line_width fnt l)
            ≤ line_text_x l + 1))
    (TextArea.text_lines obj).
Proof.
  intros Hobj Hssf. cbv zeta.
  destruct (post_init_lines _ _ _ _ _ Hobj) as [Hall _].
  eapply Forall_impl; [exact Hall|].
  intros l [Hx Hw] Hbound. simpl in Hx, Hw. rewrite Hx. clear Hx.
  unfold TextArea.available_width, EDGE_PADDING in *.
  unfold line_x, EDGE_PADDING, Py.int_truediv.
  set (ssw := TextArea.supersampling_factor self * TextArea.width self) in *.
  set (w := line_width (font_of truetype cls self) l) in *.
  destruct (TextArea.is_text_centered self).
  - rewrite (int_float_truediv _ 2 (Hbound eq_refl)) by done.
    rewrite Z.quot_div_nonneg by lia.
    split_and!; [| |intros _; split; [done|]]; Z.div_mod_to_equations; lia.
  - split_and!; [lia..|done].
Qed.

Lemma lines_keep_edge_padding_witness :
  let self := text_area "Hello world this is a test" 240 0 17 2 in
  let fnt := font_of fixed_pitch Fonts_initial self in
  let ssf := TextArea.supersampling_factor self in
  ∃ obj,
    (TextArea.post_init fixed_pitch 30 Fonts_initial self).2 = Ok obj
    ∧ TextArea.text_lines obj
      = [{| line_text := "Hello world"; line_text_x := 53 |};
         {| line_text := "this is a"; line_text_x := 87 |};
         {| line_text := "test"; line_text_x := 172 |}]
    ∧ 0 ≤ ssf
    ∧ Forall
        (λ l,
           let slack := ssf * TextArea.width self - line_width fnt l in
           (TextArea.is_text_centered self = true → Z.abs slack < 2 ^ 53) →
           ssf * EDGE_PADDING ≤ line_text_x l
           ∧ line_text_x l + line_width fnt l
             ≤ ssf * TextArea.width self - ssf * EDGE_PADDING
           ∧ (TextArea.is_text_centered self = true →
              Py.int_truediv slack 2 = Some (line_text_x l)
              ∧ line_text_x l
                ≤ ssf * TextArea.width self - (line_text_x l + line_width fnt l)
                ≤ line_text_x l + 1))
        (TextArea.text_lines obj).
Proof.
  assert (∃ obj,
    (TextArea.post_init fixed_pitch 30 Fonts_initial
       (text_area "Hello world this is a test" 240 0 17 2)).2 = Ok obj
    ∧ TextArea.text_lines obj
      = [{| line_text := "Hello world"; line_text_x := 53 |};
         {| line_text := "this is a"; line_text_x := 87 |};
         {| line_text := "test"; line_text_x := 172 |}])
    as (obj & Hobj & Hlines) by (vm_compute; eexists; split; reflexivity).
  assert (0 ≤ TextArea.supersampling_factor
                (text_area "Hello world this is a test" 240 0 17 2)) as Hssf
    by (vm_compute; discriminate).
  exists obj. split; [exact Hobj|]. split; [exact Hlines|]. split; [exact Hssf|].
  exact (lines_keep_edge_padding fixed_pitch 30 Fonts_initial
           (text_area "Hello world this is a test" 240 0 17 2) obj Hobj Hssf).
Defined.

(** X5. A constructed TextArea has at least one line and at most as many
    lines as [text.split(" ")] has pieces (the empty pieces between adjacent
    spaces count, and each can end up as a line of its own). *)
Theorem line_count_bounds truetype fuel cls self obj :
  (TextArea.post_init truetype fuel cls self).2 = Ok obj →
  (1 ≤ length (TextArea.text_lines obj)
   ≤ length (Py.split (TextArea.text self)))%nat.
Proof.
  intros Hw%post_init_wrapped.
  pose proof (wrapped_lines_nonempty _ _ _ (split_nonempty _) Hw) as Hne.
  apply wrapped_chunks in Hw as (chunks & Hchunks & Hcat & Hlines).
  apply length_concat_nonempty in Hchunks.
  rewrite Hcat in Hchunks.
  apply (f_equal length) in Hlines. rewrite !length_map in Hlines.
  destruct (TextArea.text_lines obj); [done|]. simpl in *. lia.
Qed.

Lemma line_count_bounds_witness :
  let self := text_area "Hello world this is a test" 240 0 17 2 in
  ∃ obj,
    (TextArea.post_init fixed_pitch 30 Fonts_initial self).2 = Ok obj
    ∧ length (TextArea.text_lines obj) = 3%nat
    ∧ length (Py.split (TextArea.text self)) = 6%nat
    ∧ (1 ≤ length (TextArea.text_lines obj)
       ≤ length (Py.split (TextArea.text self)))%nat.
Proof.
  assert (∃ obj,
    (TextArea.post_init fixed_pitch 30 Fonts_initial
       (text_area "Hello world this is a test" 240 0 17 2)).2 = Ok obj
    ∧ length (TextArea.text_lines obj) = 3%nat)
    as (obj & Hobj & Hlen) by (vm_compute; eexists; split; reflexivity).
  exists obj. split; [exact Hobj|]. split; [exact Hlen|].
  split; [vm_compute; reflexivity|].
  exact (line_count_bounds fixed_pitch 30 Fonts_initial
           (text_area "Hello world this is a test" 240 0 17 2) obj Hobj).
Defined.

(** X6. Scaling up and back down gives back the width: a constructed
    TextArea whose supersampled width is below [2 ^ 53] in magnitude has the
    width it was given. On the one-line path a height other than 0 is kept
    likewise. On the wrapping path the declared height, fixed or not, is
    replaced by the stacked height divided by the factor and truncated. Each
    quotient is the one the source computes through a double. *)
Theorem final_width_and_height truetype fuel cls self obj :
  (TextArea.post_init truetype fuel cls self).2 = Ok obj →
  Z.abs (TextArea.supersampling_factor self * TextArea.width self) < 2 ^ 53 →
  let fnt := font_of truetype cls self in
  let ssf := TextArea.supersampling_factor self in
  let stack :=
    stacked_height (TextArea.text_height obj) (TextArea.line_spacing obj)
      (TextArea.text_lines obj) in
  TextArea.width (TextArea.dataclass obj) = TextArea.width self
  ∧ Py.int_truediv (ssf * TextArea.width self) ssf = Some (TextArea.width self)
  ∧ (whole_width fnt self < TextArea.available_width self →
     TextArea.height self ≠ 0 →
     Z.abs (ssf * TextArea.height self) < 2 ^ 53 →
     TextArea.height (TextArea.dataclass obj) = TextArea.height self
     ∧ Py.int_truediv (ssf * TextArea.height self) ssf = Some (TextArea.height self))
  ∧ (TextArea.available_width self ≤ whole_width fnt self →
     Z.abs stack < 2 ^ 53 →
     TextArea.height (TextArea.dataclass obj) = Z.quot stack ssf
     ∧ Py.int_truediv stack ssf = Some (Z.quot stack ssf)).
Proof.
  intros Hobj Hbound. cbv zeta.
  pose proof (post_init_block _ _ _ _ _ Hobj) as (_ & _ & _ & Hblock).
  apply post_init_Ok in Hobj as (laid & Hlaid & Hobj).
  pose proof (layout_Ok_fields _ _ _ _ _ Hlaid) as (Hself & _ & Hssw & _).
  assert (TextArea.supersampling_factor self ≠ 0
          ∧ TextArea.width (TextArea.dataclass obj)
            = Z.quot (TextArea.supersampled_width laid)
                (TextArea.supersampling_factor self)
          ∧ TextArea.height (TextArea.dataclass obj)
            = Z.quot (TextArea.supersampled_height laid)
                (TextArea.supersampling_factor self)
          ∧ TextArea.supersampled_height obj = TextArea.supersampled_height laid)
    as (Hssf & Hw & Hh & Hssh).
  { revert Hobj. unfold TextArea.restore_scale. rewrite Hself.
    destruct (Z.eqb_spec (TextArea.supersampling_factor self) 0); [done|].
    intros [= <-]. simpl. by rewrite !int_truediv. }
  unfold Py.int_truediv.
  split_and!.
  - rewrite Hw, Hssw, Z.mul_comm. by apply Z.quot_mul.
  - rewrite (int_float_truediv _ _ Hbound Hssf). f_equal.
    rewrite Z.mul_comm. by apply Z.quot_mul.
  - intros Hfit Hfixed Hbound'.
    destruct (layout_one_line truetype fuel cls self Hfit)
      as (laid' & Hlaid' & _ & _ & _ & _ & _ & Hl & _).
    rewrite Hlaid in Hlaid'. injection Hlaid' as <-.
    rewrite Hh, Hl, (int_float_truediv _ _ Hbound' Hssf).
    destruct (Z.eqb_spec (TextArea.height self) 0); [done|].
    rewrite Z.mul_comm, Z.quot_mul by done. done.
  - intros Hwide Hbound'. destruct (Hblock (or_introl Hwide)) as [_ Hstack].
    rewrite (int_float_truediv _ _ Hbound' Hssf).
    by rewrite Hh, <- Hssh, Hstack.
Qed.

Lemma final_width_and_height_witness :
  let self := text_area "Hello world this is a test" 240 50 17 2 in
  ∃ obj,
    (TextArea.post_init fixed_pitch 30 Fonts_initial self).2 = Ok obj
    ∧ Z.abs (TextArea.supersampling_factor self * TextArea.width self) < 2 ^ 53
    ∧ TextArea.width (TextArea.dataclass obj) = 240
    ∧ TextArea.height (TextArea.dataclass obj) = 55.
Proof.
  assert (∃ obj,
    (TextArea.post_init fixed_pitch 30 Fonts_initial
       (text_area "Hello world this is a test" 240 50 17 2)).2 = Ok obj
    ∧ TextArea.height (TextArea.dataclass obj) = 55)
    as (obj & Hobj & Hh) by (vm_compute; eexists; split; reflexivity).
  exists obj. split; [exact Hobj|]. split; [reflexivity|]. split; [|exact Hh].
  exact (proj1 (final_width_and_height fixed_pitch 30 Fonts_initial
                  (text_area "Hello world this is a test" 240 50 17 2) obj Hobj
                  eq_refl)).
Defined.

(** X7. A constructed TextArea has left its font in the cache: a second
    construction with the same font name and the same supersampled font
    size, whatever its outcome, loads nothing and leaves the cache as the
    first construction left it; and when it returns a TextArea too, the two
    hold the very same font object. *)
Theorem second_construction_loads_nothing truetype fuel fuel' cls self self' obj :
  TextArea.font_name self' = TextArea.font_name self →
  TextArea.supersampling_factor self' * TextArea.font_size self'
  = TextArea.supersampling_factor self * TextArea.font_size self →
  (TextArea.post_init truetype fuel cls self).2 = Ok obj →
  let first := TextArea.post_init truetype fuel cls self in
  let second := TextArea.post_init truetype fuel' first.1 self' in
  second.1 = first.1
  ∧ loaded second.1 = loaded first.1
  ∧ ∀ obj', second.2 = Ok obj' → TextArea.font obj' = TextArea.font obj.
Proof.
  intros Hname Hsize Hobj. cbv zeta.
  assert ((TextArea.post_init truetype fuel' (TextArea.post_init truetype fuel cls self).1 self').1
          = (TextArea.post_init truetype fuel cls self).1
          ∧ font_of truetype (TextArea.post_init truetype fuel cls self).1 self'
            = font_of truetype cls self) as [Hcache Hfont].
  { unfold font_of. rewrite !post_init_fonts, Hname, Hsize.
    destruct (get_font_stored truetype cls (TextArea.font_name self)
                (TextArea.supersampling_factor self * TextArea.font_size self))
      as (m & Hm & Hf).
    by rewrite (get_font_hit _ _ _ _ _ _ Hm Hf). }
  split_and!; [done|by rewrite Hcache|].
  apply post_init_Ok in Hobj as (laid & Hlaid & Hobj).
  intros obj' (laid' & Hlaid' & Hobj')%post_init_Ok.
  apply restore_scale_Ok in Hobj as (_ & Hf & _).
  apply restore_scale_Ok in Hobj' as (_ & Hf' & _).
  pose proof (layout_Ok_fields _ _ _ _ _ Hlaid) as (_ & Hl & _).
  pose proof (layout_Ok_fields _ _ _ _ _ Hlaid') as (_ & Hl' & _).
  by rewrite Hf, Hf', Hl, Hl', Hfont.
Qed.

Lemma second_construction_loads_nothing_witness :
  let self := text_area "Hello world this is a test" 240 0 17 2 in
  let self' := text_area "Hello" 240 40 17 2 in
  let first := TextArea.post_init fixed_pitch 30 Fonts_initial self in
  let second := TextArea.post_init fixed_pitch 30 first.1 self' in
  ∃ obj obj',
    first.2 = Ok obj
    ∧ second.2 = Ok obj'
    ∧ loaded first.1 = [(BODY_FONT_NAME, 34)]
    ∧ second.1 = first.1
    ∧ loaded second.1 = loaded first.1
    ∧ TextArea.font obj' = TextArea.font obj.
Proof.
  cbv zeta.
  assert (∃ obj,
    (TextArea.post_init fixed_pitch 30 Fonts_initial
       (text_area "Hello world this is a test" 240 0 17 2)).2 = Ok obj)
    as [obj Hobj] by (vm_compute; eexists; reflexivity).
  assert (∃ obj',
    (TextArea.post_init fixed_pitch 30
       (TextArea.post_init fixed_pitch 30 Fonts_initial
          (text_area "Hello world this is a test" 240 0 17 2)).1
       (text_area "Hello" 240 40 17 2)).2 = Ok obj')
    as [obj' Hobj'] by (vm_compute; eexists; reflexivity).
  destruct (second_construction_loads_nothing fixed_pitch 30 30 Fonts_initial
              (text_area "Hello world this is a test" 240 0 17 2)
              (text_area "Hello" 240 40 17 2) obj eq_refl eq_refl Hobj)
    as (Hcache & Hlog & Hfont).
  exists obj, obj'. split; [exact Hobj|]. split; [exact Hobj'|].
  split; [vm_compute; reflexivity|]. split; [exact Hcache|]. split; [exact Hlog|].
  exact (Hfont obj' Hobj').
Defined.

Lemma length_draw_lines self lines cur_y :
  length (TextArea.draw_lines self lines cur_y) = length lines.
Proof.
  revert cur_y. induction lines as [|l lines IH]; intros cur_y; simpl; [done|].
  by rewrite IH.
Qed.

(** X8. When the text was wrapped, or the height was 0, [render] draws
    every line inside the block: no line starts above the top of the surface
    it is drawn on (the offscreen image, or the screen at [screen_y] when the
    supersampling factor is at most 1) and none ends below the block's
    supersampled height, provided the text height and the font size are not
    negative. *)
Theorem rendered_lines_inside_block truetype fuel cls self obj :
  (TextArea.post_init truetype fuel cls self).2 = Ok obj →
  TextArea.available_width self ≤ whole_width (font_of truetype cls self) self
  ∨ TextArea.height self = 0 →
  0 ≤ TextArea.text_height obj →
  0 ≤ TextArea.font_size self →
  let top :=
    if TextArea.supersampling_factor self >? 1 then 0 else TextArea.screen_y self in
  ∀ x y s,
    (x, y, s) ∈ TextArea.render_text obj →
    top ≤ y ∧ y + TextArea.text_height obj ≤ top + TextArea.supersampled_height obj.
Proof.
  intros Hobj Hpath Hth Hfs. cbv zeta. intros x y s Hcall.
  destruct (post_init_block _ _ _ _ _ Hobj) as (Hls & Hssf & Hsy & Hblock).
  destruct (Hblock Hpath) as [Hty Hssh].
  assert (0 ≤ TextArea.line_spacing obj) as Hls0
    by (rewrite Hls; apply Z.quot_pos; lia).
  unfold TextArea.render_text in Hcall. rewrite Hssf, Hsy, Hty in Hcall.
  apply list_elem_of_lookup in Hcall as [i Hi].
  pose proof (lookup_lt_Some _ _ _ Hi) as Hlt. rewrite length_draw_lines in Hlt.
  apply draw_lines_y in Hi.
  rewrite Hssh. unfold stacked_height, Py.len.
  set (n := length (TextArea.text_lines obj)) in *.
  set (th := TextArea.text_height obj) in *.
  set (ls := TextArea.line_spacing obj) in *.
  assert (0 ≤ Z.of_nat i * (th + ls)) by (apply Z.mul_nonneg_nonneg; lia).
  assert (0 ≤ (Z.of_nat n - 1 - Z.of_nat i) * (th + ls))
    by (apply Z.mul_nonneg_nonneg; lia).
  destruct (TextArea.supersampling_factor self >? 1); lia.
Qed.

Lemma rendered_lines_inside_block_witness :
  let self := text_area "Hello world this is a test" 240 0 17 2 in
  ∃ obj,
    (TextArea.post_init fixed_pitch 30 Fonts_initial self).2 = Ok obj
    ∧ TextArea.render_text obj
      = [(53, 0, "Hello world"); (87, 38, "this is a"); (172, 76, "test")]
    ∧ TextArea.text_height obj = 34
    ∧ TextArea.supersampled_height obj = 110
    ∧ ∀ x y s,
        (x, y, s) ∈ TextArea.render_text obj →
        (if TextArea.supersampling_factor self >? 1 then 0 else TextArea.screen_y self)
        ≤ y
        ∧ y + TextArea.text_height obj
          ≤ (if TextArea.supersampling_factor self >? 1 then 0
             else TextArea.screen_y self)
            + TextArea.supersampled_height obj.
Proof.
  assert (∃ obj,
    (TextArea.post_init fixed_pitch 30 Fonts_initial
       (text_area "Hello world this is a test" 240 0 17 2)).2 = Ok obj
    ∧ TextArea.render_text obj
      = [(53, 0, "Hello world"); (87, 38, "this is a"); (172, 76, "test")]
    ∧ TextArea.text_height obj = 34
    ∧ TextArea.supersampled_height obj = 110)
    as (obj & Hobj & Hdraw & Hth & Hssh)
    by (vm_compute; eexists; split; [|split; [|split]]; reflexivity).
  exists obj. split; [exact Hobj|]. split; [exact Hdraw|].
  split; [exact Hth|]. split; [exact Hssh|].
  refine (rendered_lines_inside_block fixed_pitch 30 Fonts_initial
            (text_area "Hello world this is a test" 240 0 17 2) obj Hobj
            (or_intror eq_refl) _ _).
  - rewrite Hth. discriminate.
  - vm_compute. discriminate.
Defined.

(** X9. With a supersampling factor of 0 no TextArea is ever constructed:
    whenever the layout itself goes through, the closing rescaling divides by
    zero. *)
Theorem zero_supersampling_never_constructs truetype fuel cls self :
  TextArea.supersampling_factor self = 0 →
  (∀ obj, (TextArea.post_init truetype fuel cls self).2 ≠ Ok obj)
  ∧ (∀ laid,
       (TextArea.layout truetype fuel cls self).2 = Ok laid →
       (TextArea.post_init truetype fuel cls self).2 = Raise ZeroDivisionError).
Proof.
  intros Hzero. rewrite post_init_result.
  assert (∀ laid, (TextArea.layout truetype fuel cls self).2 = Ok laid →
                  TextArea.restore_scale laid = Raise ZeroDivisionError) as Hdiv.
  { intros laid (Hself & _)%layout_Ok_fields.
    unfold TextArea.restore_scale. by rewrite Hself, Hzero. }
  split.
  - intros obj.
    destruct (TextArea.layout truetype fuel cls self).2 as [laid| |] eqn:Hlaid;
      simpl; [|done..].
    by rewrite (Hdiv laid).
  - intros laid Hlaid. rewrite Hlaid. simpl. by apply Hdiv.
Qed.

Lemma zero_supersampling_never_constructs_witness :
  let self := text_area "Hello" 240 0 17 0 in
  TextArea.supersampling_factor self = 0
  ∧ (TextArea.post_init fixed_pitch 30 Fonts_initial self).2 = Raise ZeroDivisionError
  ∧ ∀ obj, (TextArea.post_init fixed_pitch 30 Fonts_initial self).2 ≠ Ok obj.
Proof.
  cbv zeta. split; [reflexivity|]. split; [vm_compute; reflexivity|].
  exact (proj1 (zero_supersampling_never_constructs fixed_pitch 30 Fonts_initial
                  (text_area "Hello" 240 0 17 0) eq_refl)).
Defined.



(** ** Worked instances for the wrapping loop and the vertical offset *)

Lemma post_init_single_word_too_wide_witness :
  let self := text_area "Antidisestablishmentarianism" 120 30 17 2 in
  Py.split (TextArea.text self) = [TextArea.text self]
  ∧ TextArea.available_width self
    < whole_width (font_of fixed_pitch Fonts_initial self) self
  ∧ ∀ fuel, (TextArea.post_init fixed_pitch fuel Fonts_initial self).2 = OutOfFuel.
Proof.
  cbv zeta.
  assert (Py.split
            (TextArea.text (text_area "Antidisestablishmentarianism" 120 30 17 2))
          = [TextArea.text (text_area "Antidisestablishmentarianism" 120 30 17 2)])
    as Hone by (vm_compute; reflexivity).
  assert (TextArea.available_width
            (text_area "Antidisestablishmentarianism" 120 30 17 2)
          < whole_width
              (font_of fixed_pitch Fonts_initial
                 (text_area "Antidisestablishmentarianism" 120 30 17 2))
              (text_area "Antidisestablishmentarianism" 120 30 17 2)) as Hwide
    by (vm_compute; reflexivity).
  split; [exact Hone|]. split; [exact Hwide|].
  exact (post_init_single_word_too_wide fixed_pitch Fonts_initial
           (text_area "Antidisestablishmentarianism" 120 30 17 2) Hone Hwide).
Defined.

Lemma post_init_finishes_when_words_fit_witness :
  let self := text_area "Hello world this is a test" 240 10 17 2 in
  words_fit (font_of fixed_pitch Fonts_initial self) (TextArea.available_width self)
    (Py.split (TextArea.text self))
  ∧ (length (Py.split (TextArea.text self)) < 7)%nat
  ∧ (TextArea.post_init fixed_pitch 7 Fonts_initial self).2 ≠ OutOfFuel.
Proof.
  cbv zeta.
  assert (words_fit
            (font_of fixed_pitch Fonts_initial
               (text_area "Hello world this is a test" 240 10 17 2))
            (TextArea.available_width
               (text_area "Hello world this is a test" 240 10 17 2))
            (Py.split
               (TextArea.text (text_area "Hello world this is a test" 240 10 17 2))))
    as Hfit.
  { unfold words_fit.
    change (Py.split _) with ["Hello"; "world"; "this"; "is"; "a"; "test"].
    repeat (constructor; [vm_compute; discriminate|]). constructor. }
  assert (length
            (Py.split
               (TextArea.text (text_area "Hello world this is a test" 240 10 17 2)))
          < 7)%nat as Hlen by (vm_compute; repeat constructor).
  split; [exact Hfit|]. split; [exact Hlen|].
  exact (post_init_finishes_when_words_fit fixed_pitch Fonts_initial
           (text_area "Hello world this is a test" 240 10 17 2) Hfit 7%nat Hlen).
Defined.

Lemma text_y_centred_when_wrapped_or_auto_witness :
  let self := text_area "Hello world this is a test" 240 50 17 2 in
  ∃ obj,
    (TextArea.post_init fixed_pitch 30 Fonts_initial self).2 = Ok obj
    ∧ TextArea.available_width self
      ≤ whole_width (font_of fixed_pitch Fonts_initial self) self
    ∧ TextArea.text_y obj
      = (TextArea.supersampled_height obj
         - stacked_height (TextArea.text_height obj) (TextArea.line_spacing obj)
             (TextArea.text_lines obj)) / 2
    ∧ TextArea.text_y obj = 0.
Proof.
  assert (∃ obj,
    (TextArea.post_init fixed_pitch 30 Fonts_initial
       (text_area "Hello world this is a test" 240 50 17 2)).2 = Ok obj)
    as [obj Hobj] by (vm_compute; eexists; reflexivity).
  assert (TextArea.available_width
            (text_area "Hello world this is a test" 240 50 17 2)
          ≤ whole_width
              (font_of fixed_pitch Fonts_initial
                 (text_area "Hello world this is a test" 240 50 17 2))
              (text_area "Hello world this is a test" 240 50 17 2)) as Hwide
    by (vm_compute; discriminate).
  exists obj. split; [exact Hobj|]. split; [exact Hwide|].
  exact (text_y_centred_when_wrapped_or_auto fixed_pitch 30 Fonts_initial
           (text_area "Hello world this is a test" 240 50 17 2) obj Hobj
           (or_introl Hwide)).
Defined.

(** ** More on centring one line of text *)

(** X14. Centring splits the slack, the box width less the text's extent
    [right - offset_x], into a part left of the text and a part right of it
    that differ by at most one pixel; the left part is never the larger one
    when the text fits the box. The same holds vertically for the box height
    and the extent [ascent - offset_y]. This is of the function as the
    source evaluates it, through doubles, for slacks below [2 ^ 53] in
    magnitude. *)
Theorem centred_margins_differ_by_at_most_one font text box_width box_height
    start_x start_y :
  let offset_x := (getoffset (face font) text).1 in
  let offset_y := (getoffset (face font) text).2 in
  let extent_x := (getbbox (face font) text).1.2 - offset_x in
  let extent_y := (getmetrics (face font)).1 - offset_y in
  Z.abs (box_width - extent_x) < 2 ^ 53 →
  Z.abs (box_height - extent_y) < 2 ^ 53 →
  ∃ x y,
    calc_text_centering_binary64 font text true box_width box_height start_x start_y
    = Some (x, y)
    ∧ let left := x + offset_x - start_x in
      let right := start_x + box_width - (x + offset_x + extent_x) in
      let above := y + offset_y - start_y in
      let below := start_y + box_height - (y + offset_y + extent_y) in
      left + right = box_width - extent_x
      ∧ -1 ≤ right - left ≤ 1
      ∧ (0 ≤ box_width - extent_x → 0 ≤ left ≤ right)
      ∧ above + below = box_height - extent_y
      ∧ -1 ≤ below - above ≤ 1
      ∧ (0 ≤ box_height - extent_y → 0 ≤ above ≤ below).
Proof.
  cbv zeta. unfold calc_text_centering_binary64, Py.int_truediv.
  destruct (getoffset (face font) text) as [offset_x offset_y].
  destruct (getbbox (face font) text) as [[[box_left box_top] box_right] box_bottom].
  destruct (getmetrics (face font)) as [ascent descent]. cbn [fst snd].
  intros Hx Hy.
  rewrite (int_float_truediv _ 2 Hx), (int_float_truediv _ 2 Hy) by done.
  cbn [mbind option_bind]. eexists _, _. split; [done|].
  pose proof (Z.quot_rem' (box_width - (box_right - offset_x)) 2) as Hqx.
  pose proof (Z.quot_rem' (box_height - (ascent - offset_y)) 2) as Hqy.
  pose proof (Z.rem_bound_abs (box_width - (box_right - offset_x)) 2 ltac:(lia)) as Hxa.
  pose proof (Z.rem_bound_abs (box_height - (ascent - offset_y)) 2 ltac:(lia)) as Hya.
  clear Hx Hy.
  set (qx := Z.quot (box_width - (box_right - offset_x)) 2) in *.
  set (rx := Z.rem (box_width - (box_right - offset_x)) 2) in *.
  set (qy := Z.quot (box_height - (ascent - offset_y)) 2) in *.
  set (ry := Z.rem (box_height - (ascent - offset_y)) 2) in *.
  assert (0 ≤ box_width - (box_right - offset_x) → 0 ≤ rx)
    by (intros; subst rx; apply Z.rem_nonneg; lia).
  assert (0 ≤ box_height - (ascent - offset_y) → 0 ≤ ry)
    by (intros; subst ry; apply Z.rem_nonneg; lia).
  assert (0 ≤ box_width - (box_right - offset_x) → 0 ≤ qx)
    by (intros; subst qx; apply Z.quot_pos; lia).
  assert (0 ≤ box_height - (ascent - offset_y) → 0 ≤ qy)
    by (intros; subst qy; apply Z.quot_pos; lia).
  lia.
Qed.

Lemma centred_margins_differ_by_at_most_one_witness :
  let font := {| oid := 0; face := fixed_pitch BUTTON_FONT_NAME 34 |} in
  Z.abs (241 - ((getbbox (face font) "Back").1.2 - (getoffset (face font) "Back").1))
    < 2 ^ 53
  ∧ Z.abs (48 - ((getmetrics (face font)).1 - (getoffset (face font) "Back").2))
    < 2 ^ 53
  ∧ calc_text_centering_binary64 font "Back" true 241 48 0 0 = Some (52, 7)
  ∧ ∃ x y,
      calc_text_centering_binary64 font "Back" true 241 48 0 0 = Some (x, y)
      ∧ -1 ≤ 0 + 241 - (x + 0 + (136 - 0)) - (x + 0 - 0) ≤ 1.
Proof.
  cbv zeta. split; [reflexivity|]. split; [reflexivity|].
  split; [vm_compute; reflexivity|].
  destruct (centred_margins_differ_by_at_most_one
              {| oid := 0; face := fixed_pitch BUTTON_FONT_NAME 34 |}
              "Back" 241 48 0 0 eq_refl eq_refl)
    as (x & y & Hxy & _ & Hdiff & _).
  exists x, y. split; [exact Hxy|exact Hdiff].
Defined.

(** ** Buttons *)

Section ButtonFacts.

Variable truetype : string → Z → FontMetrics.
Variable Image_open : string → option Image.t.
Variables (cls : Fonts) (opened : list string) (self : Button.init).

Local Abbreviation fnt :=
  (get_font truetype cls (Button.font_name self) (Button.font_size self)).1.
Local Abbreviation icon_file := (default "" (Button.icon_name self) +:+ ".png").
Local Abbreviation icon_selected_file :=
  (default "" (Button.icon_name self) +:+ "_selected.png").

(** Where the text position is assigned: with a text, or with an inline
    icon. *)
Lemma place_text_assigned :
  truthy (Button.text self) = true
  ∨ (truthy (Button.icon_name self) = true ∧ Button.is_icon_inline self = true) →
  ∃ x y, Button.place_text fnt self = (Some x, Some y).
Proof.
  unfold Button.place_text. intros [->|[-> ->]].
  - destruct (calc_text_centering _ _ _ _ _ _ _). eauto.
  - destruct (truthy (Button.text self));
      [destruct (calc_text_centering _ _ _ _ _ _ _)|]; simpl; eauto.
Qed.

Lemma place_text_unassigned :
  truthy (Button.text self) = false →
  truthy (Button.icon_name self) && Button.is_icon_inline self = false →
  Button.place_text fnt self = (None, None).
Proof. unfold Button.place_text. by intros -> ->. Qed.

(** What a finished construction has assigned. *)
Lemma button_post_init_Done cls' opened' b :
  Button.post_init truetype Image_open cls opened self = (cls', opened', Done b) →
  Button.dataclass b = self
  ∧ Button.font b = fnt
  ∧ Button.text_y b = (Button.place_text fnt self).2
  ∧ (truthy (Button.icon_name self) = false →
     opened' = opened
     ∧ Button.text_x b = (Button.place_text fnt self).1
     ∧ Button.icon b = None ∧ Button.icon_selected b = None
     ∧ Button.icon_x b = None ∧ Button.icon_y b = None)
  ∧ (truthy (Button.icon_name self) = true →
     ∃ ic ics,
       Image_open icon_file = Some ic
       ∧ Image_open icon_selected_file = Some ics
       ∧ opened' = opened ++ [icon_file; icon_selected_file]
       ∧ Button.icon b = Some ic
       ∧ Button.icon_selected b = Some ics
       ∧ (Button.is_icon_inline self = false →
          Button.text_x b = (Button.place_text fnt self).1
          ∧ Button.icon_x b
            = Some (Button.screen_x self
                    + Z.quot (Button.width self - Image.width ic) 2)
          ∧ Button.icon_y b = Some (Button.screen_y self + Button.icon_y_offset self))
       ∧ (Button.is_icon_inline self = true →
          ∃ x0 y,
            Button.place_text fnt self = (Some x0, Some y)
            ∧ Button.text_x b
              = Some (x0 + (if truthy (Button.text self)
                            then if Button.is_text_centered self
                                 then Z.quot (Image.width ic + 8) 2
                                 else Image.width ic + 8
                            else 0))
            ∧ Button.icon_x b
              = Some (x0 + (if truthy (Button.text self)
                            then if Button.is_text_centered self
                                 then Z.quot (Image.width ic + 8) 2
                                 else Image.width ic + 8
                            else 0)
                      - (Image.width ic + 8))
            ∧ Button.icon_y b = Some (y + Button.icon_y_offset self))).
Proof.
  unfold Button.post_init.
  destruct (get_font _ _ _ _) as [f c] eqn:Hfont. simpl.
  destruct (Button.place_text f self) as [tx ty] eqn:Hplace.
  destruct (truthy (Button.icon_name self)) eqn:Hicon.
  - destruct (Image_open icon_file) as [ic|] eqn:Hic; [|done].
    destruct (Image_open icon_selected_file) as [ics|] eqn:Hics; [|done].
    destruct (Button.is_icon_inline self) eqn:Hinline.
    + destruct (place_text_assigned (or_intror (conj Hicon Hinline)))
        as (x0 & y & Hxy).
      rewrite Hfont in Hxy. simpl in Hxy. rewrite Hxy in Hplace.
      injection Hplace as <- <-.
      destruct (truthy (Button.text self)); simpl;
        [destruct (Button.is_text_centered self); simpl|];
        intros [= <- <- <-]; simpl; rewrite ?int_truediv_2;
        (split_and!; [done..|by intros ?|]); intros _; exists ic, ics;
        (split_and!; [done..|by intros ?|]); intros _; exists x0, y;
        split_and!; first [done|f_equal; lia].
    + intros [= <- <- <-]. simpl. rewrite int_truediv_2.
      split_and!; [done..|by intros ?|]. intros _. exists ic, ics.
      split_and!; [done..| |by intros ?]. done.
  - intros [= <- <- <-]. simpl. split_and!; [done..| |by intros ?]. done.
Qed.

(** Whatever the outcome, the font cache is as the font lookup left it. *)
Lemma button_post_init_fonts :
  (Button.post_init truetype Image_open cls opened self).1.1
  = (get_font truetype cls (Button.font_name self) (Button.font_size self)).2.
Proof.
  unfold Button.post_init.
  destruct (get_font _ _ _ _) as [f c]. cbn [fst snd].
  destruct (Button.place_text f self) as [tx ty].
  destruct (truthy (Button.icon_name self)); [|done].
  destruct (Image_open icon_file) as [ic|]; [|done].
  destruct (Image_open icon_selected_file) as [ics|]; [|done].
  destruct (Button.is_icon_inline self); [|done].
  by destruct tx as [x0|], ty as [y|], (truthy (Button.text self)),
    (Button.is_text_centered self).
Qed.

End ButtonFacts.

(** X15. Constructing a Button never reads an attribute that was not
    assigned. A Button with an icon name is constructed only after both of
    its icon files, the plain one and the "_selected" one, were opened; and
    when the constructor fails on an icon file, it is the first of the two,
    in this order, that cannot be opened. *)
Theorem button_construction_outcome truetype Image_open cls opened self :
  let r := Button.post_init truetype Image_open cls opened self in
  let icon_url := default "" (Button.icon_name self) in
  (∀ name, r.2 ≠ Fails (AttributeError name))
  ∧ (∀ b, r.2 = Done b →
       truthy (Button.icon_name self) = true →
       is_Some (Image_open (icon_url +:+ ".png"))
       ∧ is_Some (Image_open (icon_url +:+ "_selected.png")))
  ∧ (∀ file, r.2 = Fails (FileNotFoundError file) →
       truthy (Button.icon_name self) = true
       ∧ Image_open file = None
       ∧ (file = icon_url +:+ ".png"
          ∨ (file = icon_url +:+ "_selected.png"
             ∧ is_Some (Image_open (icon_url +:+ ".png"))))).
Proof.
  cbv zeta. unfold Button.post_init.
  destruct (get_font _ _ _ _) as [f c] eqn:Hfont. simpl.
  destruct (Button.place_text f self) as [tx ty] eqn:Hplace.
  destruct (truthy (Button.icon_name self)) eqn:Hicon; simpl; [|done].
  destruct (Image_open _) as [ic|] eqn:Hic; simpl.
  - destruct (Image_open (_ +:+ "_selected.png")) as [ics|] eqn:Hics; simpl.
    + destruct (Button.is_icon_inline self) eqn:Hinline.
      * destruct (place_text_assigned truetype cls self
                    (or_intror (conj Hicon Hinline))) as (x0 & y & Hxy).
        rewrite Hfont in Hxy. simpl in Hxy. rewrite Hxy in Hplace.
        injection Hplace as <- <-.
        destruct (truthy (Button.text self)); simpl;
          [destruct (Button.is_text_centered self); simpl|];
          (split_and!; [done|by intros ? _ _|done]).
      * split_and!; [done|by intros ? _ _|done].
    + split_and!; [done|done|]. intros file [= <-].
      split_and!; [done|done|]. right. by split.
  - split_and!; [done|done|]. intros file [= <-].
    split_and!; [done|done|]. by left.
Qed.







Lemma button_attributes_present truetype Image_open cls opened self cls' opened' b :
  Button.post_init truetype Image_open cls opened self = (cls', opened', Done b) →
  Button.dataclass b = self
  ∧ (truthy (Button.text self) = true →
     is_Some (Button.text_x b) ∧ is_Some (Button.text_y b))
  ∧ (truthy (Button.icon_name self) = true →
     is_Some (Button.icon b) ∧ is_Some (Button.icon_selected b)
     ∧ is_Some (Button.icon_x b) ∧ is_Some (Button.icon_y b)).
Proof.
  intros Hrun.
  apply button_post_init_Done in Hrun as (Hself & _ & Hy & Hnone & Hsome).
  split_and!; [done| |].
  - intros Htext.
    destruct (place_text_assigned truetype cls self (or_introl Htext))
      as (x & y & Hplace).
    rewrite Hplace in *. simpl in *. split; [|by rewrite Hy].
    destruct (truthy (Button.icon_name self)) eqn:Hicon.
    + destruct (Hsome eq_refl) as (ic & ics & _ & _ & _ & _ & _ & Hout & Hin).
      destruct (Button.is_icon_inline self).
      * destruct (Hin eq_refl) as (? & ? & _ & -> & _). done.
      * destruct (Hout eq_refl) as (-> & _). done.
    + destruct (Hnone eq_refl) as (_ & -> & _). done.
  - intros Hicon.
    destruct (Hsome Hicon) as (ic & ics & _ & _ & _ & -> & -> & Hout & Hin).
    destruct (Button.is_icon_inline self).
    + destruct (Hin eq_refl) as (? & ? & _ & _ & -> & ->). done.
    + destruct (Hout eq_refl) as (_ & -> & ->). done.
Qed.

(** [render] on a button that has those attributes. *)
Lemma button_render_calls (b : Button.t) (x y ix iy : Z) (ic ics : Image.t) :
  (truthy (Button.text (Button.dataclass b)) = true →
   Button.text_x b = Some x ∧ Button.text_y b = Some y) →
  (truthy (Button.icon_name (Button.dataclass b)) = true →
   Button.icon b = Some ic ∧ Button.icon_selected b = Some ics
   ∧ Button.icon_x b = Some ix ∧ Button.icon_y b = Some iy) →
  let d := Button.dataclass b in
  Button.render b =
    Done
      ([draw_rounded_rectangle
          (Button.screen_x d, Button.screen_y d,
           Button.screen_x d + Button.width d, Button.screen_y d + Button.height d)
          (if Button.is_selected d then Button.selected_color d
           else Button.background_color d)
          COMPONENT_PADDING]
       ++ (if truthy (Button.text d)
           then [draw_text (x, y) (default "" (Button.text d))
                   (if Button.is_selected d then Button.selected_font_color d
                    else Button.font_color d)
                   (Button.font b)]
           else [])
       ++ (if truthy (Button.icon_name d)
           then [canvas_paste (if Button.is_selected d then ics else ic) (ix, iy)]
           else [])).
Proof.
  intros Htext Hicon. cbv zeta. unfold Button.render.
  destruct (Button.is_selected (Button.dataclass b));
    destruct (truthy (Button.text (Button.dataclass b)));
    destruct (truthy (Button.icon_name (Button.dataclass b)));
    try (destruct (Htext eq_refl) as [Hx Hy]; rewrite Hx, Hy);
    try (destruct (Hicon eq_refl) as (H1 & H2 & H3 & H4); rewrite ?H1, ?H2, ?H3, ?H4);
    reflexivity.
Qed.

(** X19. [render] on a constructed Button never fails, whichever way its
    selection was set afterwards, and makes exactly these calls, in this
    order: the rounded rectangle over the button's box, in the selected or
    the plain background colour; then, if the button has a text, the text at
    the position the constructor assigned, in the selected or the plain font
    colour; then, if it has an icon, the selected or the plain icon at the
    icon position the constructor assigned. *)
Theorem button_renders_in_place truetype Image_open cls opened self cls' opened' b :
  Button.post_init truetype Image_open cls opened self = (cls', opened', Done b) →
  ∃ x y ix iy ic ics,
    (truthy (Button.text self) = true →
     Button.text_x b = Some x ∧ Button.text_y b = Some y)
    ∧ (truthy (Button.icon_name self) = true →
       Button.icon b = Some ic ∧ Button.icon_selected b = Some ics
       ∧ Button.icon_x b = Some ix ∧ Button.icon_y b = Some iy)
    ∧ ∀ selected : bool,
        Button.render (Button.set_is_selected selected b)
        = Done
            ([draw_rounded_rectangle
                (Button.screen_x self, Button.screen_y self,
                 Button.screen_x self + Button.width self,
                 Button.screen_y self + Button.height self)
                (if selected then Button.selected_color self
                 else Button.background_color self)
                COMPONENT_PADDING]
             ++ (if truthy (Button.text self)
                 then [draw_text (x, y) (default "" (Button.text self))
                         (if selected then Button.selected_font_color self
                          else Button.font_color self)
                         (Button.font b)]
                 else [])
             ++ (if truthy (Button.icon_name self)
                 then [canvas_paste (if selected then ics else ic) (ix, iy)]
                 else [])).
Proof.
  intros (Hself & Htext & Hicon)%button_attributes_present.
  set (x := default 0 (Button.text_x b)).
  set (y := default 0 (Button.text_y b)).
  set (ix := default 0 (Button.icon_x b)).
  set (iy := default 0 (Button.icon_y b)).
  set (ic := default {| Image.width := 0; Image.height := 0 |} (Button.icon b)).
  set (ics := default {| Image.width := 0; Image.height := 0 |} (Button.icon_selected b)).
  assert (truthy (Button.text self) = true →
          Button.text_x b = Some x ∧ Button.text_y b = Some y) as Hpre1.
  { intros [[? Hx] [? Hy]]%Htext. subst x y. by rewrite Hx, Hy. }
  assert (truthy (Button.icon_name self) = true →
          Button.icon b = Some ic ∧ Button.icon_selected b = Some ics
          ∧ Button.icon_x b = Some ix ∧ Button.icon_y b = Some iy) as Hpre2.
  { intros ([? H1] & [? H2] & [? H3] & [? H4])%Hicon. subst ix iy ic ics.
    by rewrite H1, H2, H3, H4. }
  exists x, y, ix, iy, ic, ics. split; [exact Hpre1|]. split; [exact Hpre2|].
  intros selected.
  pose proof (button_render_calls (Button.set_is_selected selected b)
                x y ix iy ic ics) as Hrender.
  cbn [Button.set_is_selected Button.dataclass Button.text_x Button.text_y
       Button.icon Button.icon_selected Button.icon_x Button.icon_y
       Button.text Button.icon_name Button.screen_x Button.screen_y
       Button.width Button.height Button.is_selected Button.selected_color
       Button.background_color Button.selected_font_color Button.font_color
       Button.font] in Hrender.
  rewrite Hself in Hrender. by apply Hrender.
Qed.

Lemma button_renders_in_place_witness :
  let self := Button_new (Some "Scan") (Some "qr") 10 20 200 40 false in
  ∃ b,
    Button.post_init fixed_pitch icons_24 Fonts_initial [] self
    = ((get_font fixed_pitch Fonts_initial BUTTON_FONT_NAME BUTTON_FONT_SIZE).2,
       ["qr.png"; "qr_selected.png"], Done b)
    ∧ map call_place
        (match Button.render (Button.set_is_selected true b) with
         | Done calls => calls
         | Fails _ => []
         end)
      = [(0%nat, [10; 20; 210; 60; 8]); (2%nat, [50; 31]); (3%nat, [18; 33])]
    ∧ ∃ x y ix iy ic ics,
        Button.render (Button.set_is_selected true b)
        = Done [draw_rounded_rectangle (10, 20, 210, 60) "orange" 8;
                draw_text (x, y) "Scan" "black" (Button.font b);
                canvas_paste ics (ix, iy)]
        ∧ Button.render (Button.set_is_selected false b)
          = Done [draw_rounded_rectangle (10, 20, 210, 60) "#2c2c2c" 8;
                  draw_text (x, y) "Scan" "#fcfcfc" (Button.font b);
                  canvas_paste ic (ix, iy)].
Proof.
  assert (∃ b,
    Button.post_init fixed_pitch icons_24 Fonts_initial []
      (Button_new (Some "Scan") (Some "qr") 10 20 200 40 false)
    = ((get_font fixed_pitch Fonts_initial BUTTON_FONT_NAME BUTTON_FONT_SIZE).2,
       ["qr.png"; "qr_selected.png"], Done b)
    ∧ map call_place
        (match Button.render (Button.set_is_selected true b) with
         | Done calls => calls
         | Fails _ => []
         end)
      = [(0%nat, [10; 20; 210; 60; 8]); (2%nat, [50; 31]); (3%nat, [18; 33])])
    as (b & Hb & Hplaces) by (vm_compute; eexists; split; reflexivity).
  exists b. split; [exact Hb|]. split; [exact Hplaces|].
  destruct (button_renders_in_place fixed_pitch icons_24 Fonts_initial []
              (Button_new (Some "Scan") (Some "qr") 10 20 200 40 false) _ _ b Hb)
    as (x & y & ix & iy & ic & ics & _ & _ & Hrender).
  exists x, y, ix, iy, ic, ics.
  split; [exact (Hrender true)|exact (Hrender false)].
Defined.

(** ** The title bar *)

Section TopNavFacts.

Variable truetype : string → Z → FontMetrics.
Variable Image_open : string → option Image.t.

(** What an [IconButton] of the title bar is once constructed: no text
    position, the icon centred in the 32-pixel box, 4 pixels down. *)
Lemma bar_button_Done cls opened (args : Button.init) (name : string)
    cls' opened' b :
  Button.text args = None →
  Button.icon_name args = Some name →
  name ≠ "" →
  Button.is_icon_inline args = false →
  Button.post_init truetype Image_open cls opened args = (cls', opened', Done b) →
  ∃ ic ics,
    Image_open (name +:+ ".png") = Some ic
    ∧ Image_open (name +:+ "_selected.png") = Some ics
    ∧ opened' = opened ++ [name +:+ ".png"; name +:+ "_selected.png"]
    ∧ cls' = (get_font truetype cls (Button.font_name args) (Button.font_size args)).2
    ∧ Button.dataclass b = args
    ∧ Button.text_x b = None ∧ Button.text_y b = None
    ∧ Button.icon b = Some ic ∧ Button.icon_selected b = Some ics
    ∧ Button.icon_x b
      = Some (Button.screen_x args + Z.quot (Button.width args - Image.width ic) 2)
    ∧ Button.icon_y b = Some (Button.screen_y args + Button.icon_y_offset args).
Proof.
  intros Htext Hname Hne Hinline Hrun.
  assert (truthy (Button.icon_name args) = true) as Hicon.
  { rewrite Hname. by destruct name. }
  pose proof (button_post_init_fonts truetype Image_open cls opened args)
    as Hcls. rewrite Hrun in Hcls. simpl in Hcls.
  apply button_post_init_Done in Hrun as (Hself & _ & Hy & _ & Hsome).
  destruct (Hsome Hicon) as (ic & ics & Hic & Hics & Hop & Hi & His & Hout & _).
  destruct (Hout Hinline) as (Hx & Hix & Hiy).
  rewrite Hname in Hic, Hics, Hop. simpl in Hic, Hics, Hop.
  assert (Button.place_text
            (get_font truetype cls (Button.font_name args) (Button.font_size args)).1
            args = (None, None)) as Hplace.
  { apply place_text_unassigned; [by rewrite Htext|].
    by rewrite Hinline, andb_false_r. }
  rewrite Hplace in Hx, Hy.
  exists ic, ics. by split_and!.
Qed.


(** How constructing such a button ends. *)
Lemma bar_button_outcome cls opened (args : Button.init) (name : string) :
  Button.text args = None →
  Button.icon_name args = Some name →
  name ≠ "" →
  Button.is_icon_inline args = false →
  let r := Button.post_init truetype Image_open cls opened args in
  let cls' :=
    (get_font truetype cls (Button.font_name args) (Button.font_size args)).2 in
  (is_Some (Image_open (name +:+ ".png"))
   ∧ is_Some (Image_open (name +:+ "_selected.png")) →
   ∃ b, r = (cls', opened ++ [name +:+ ".png"; name +:+ "_selected.png"], Done b))
  ∧ (¬ (is_Some (Image_open (name +:+ ".png"))
        ∧ is_Some (Image_open (name +:+ "_selected.png"))) →
     ∃ opened' file, r = (cls', opened', Fails (FileNotFoundError file))).
Proof.
  intros Htext Hname Hne Hinline. cbv zeta.
  assert (truthy (Button.icon_name args) = true) as Hicon.
  { rewrite Hname. by destruct name. }
  unfold Button.post_init.
  destruct (get_font _ _ _ _) as [f c]. simpl.
  destruct (Button.place_text f args) as [tx ty].
  rewrite Hicon, Hname, Hinline. simpl.
  destruct (Image_open (name +:+ ".png")) as [ic|];
    [destruct (Image_open (name +:+ "_selected.png")) as [ics|]|].
  - split; [by eexists|]. intros []. by split.
  - split; [by intros [_ [? ?]]|]. by eexists _, _.
  - split; [by intros [[? ?] _]|]. by eexists _, _.
Qed.

Lemma topnav_post_init_Done cls opened self cls' opened' nav :
  TopNav.post_init truetype Image_open cls opened self = (cls', opened', Done nav) →
  let fc := get_font truetype cls (TopNav.font_name self) (TopNav.font_size self) in
  ∃ cls1 opened1,
    TopNav.dataclass nav = self
    ∧ TopNav.font nav = fc.1
    ∧ (TopNav.text_x nav, TopNav.text_y nav)
      = calc_text_centering fc.1 (TopNav.text self) true
          (TopNav.width self) (TopNav.height self) 0 0
    ∧ (if TopNav.show_back_button self
       then ∃ b,
              TopNav.back_button nav = Some b
              ∧ Button.post_init truetype Image_open fc.2 opened
                  TopNav.back_button_args = (cls1, opened1, Done b)
       else TopNav.back_button nav = None ∧ cls1 = fc.2 ∧ opened1 = opened)
    ∧ (if TopNav.show_power_button self
       then ∃ p,
              TopNav.power_button nav = Some p
              ∧ Button.post_init truetype Image_open cls1 opened1
                  (TopNav.power_button_args self) = (cls', opened', Done p)
       else TopNav.power_button nav = None ∧ cls' = cls1 ∧ opened' = opened1).
Proof.
  unfold TopNav.post_init. cbv zeta.
  destruct (get_font _ _ _ _) as [f c0]. simpl.
  destruct (TopNav.show_back_button self).
  - destruct (Button.post_init truetype Image_open c0 opened TopNav.back_button_args)
      as [[c1 o1] [b|e]] eqn:Hb; simpl; [|done].
    destruct (TopNav.show_power_button self).
    + destruct (Button.post_init truetype Image_open c1 o1 (TopNav.power_button_args self))
        as [[c2 o2] [p|e]] eqn:Hp; simpl; [|done].
      destruct (calc_text_centering _ _ _ _ _ _ _) as [tx ty].
      intros [= <- <- <-]. exists c1, o1. simpl. split_and!; eauto.
    + destruct (calc_text_centering _ _ _ _ _ _ _) as [tx ty].
      intros [= <- <- <-]. exists c1, o1. simpl. split_and!; eauto.
  - destruct (TopNav.show_power_button self).
    + destruct (Button.post_init truetype Image_open c0 opened (TopNav.power_button_args self))
        as [[c2 o2] [p|e]] eqn:Hp; simpl; [|done].
      destruct (calc_text_centering _ _ _ _ _ _ _) as [tx ty].
      intros [= <- <- <-]. exists c0, opened. simpl. split_and!; eauto.
    + destruct (calc_text_centering _ _ _ _ _ _ _) as [tx ty].
      intros [= <- <- <-]. exists c0, opened. simpl. split_and!; eauto.
Qed.

End TopNavFacts.

(** How constructing a TopNav ends in terms of its icon files, the fonts
    being loaded. *)
Lemma topnav_post_init_outcome truetype Image_open cls opened self :
  let r := TopNav.post_init truetype Image_open cls opened self in
  let present (name : string) :=
    is_Some (Image_open (name +:+ ".png"))
    ∧ is_Some (Image_open (name +:+ "_selected.png")) in
  (∀ name, r.2 ≠ Fails (AttributeError name))
  ∧ ((∃ nav, r.2 = Done nav)
     ↔ (TopNav.show_back_button self = true → present "back")
       ∧ (TopNav.show_power_button self = true → present "power"))
  ∧ (∀ nav,
       r.2 = Done nav →
       r.1.2
       = opened
         ++ (if TopNav.show_back_button self
             then ["back.png"; "back_selected.png"] else [])
         ++ (if TopNav.show_power_button self
             then ["power.png"; "power_selected.png"] else [])
       ∧ r.1.1
         = get_fonts truetype cls
             ((TopNav.font_name self, TopNav.font_size self)
              :: (if TopNav.show_back_button self
                  then [(BUTTON_FONT_NAME, BUTTON_FONT_SIZE)] else [])
              ++ (if TopNav.show_power_button self
                  then [(BUTTON_FONT_NAME, BUTTON_FONT_SIZE)] else []))).
Proof.
  cbv zeta. unfold TopNav.post_init.
  destruct (get_font truetype cls _ _) as [f c0] eqn:Hfont.
  pose proof (λ c o, bar_button_outcome truetype Image_open c o
                       TopNav.back_button_args "back" eq_refl eq_refl
                       ltac:(done) eq_refl) as Hback.
  pose proof (λ c o, bar_button_outcome truetype Image_open c o
                       (TopNav.power_button_args self) "power" eq_refl eq_refl
                       ltac:(done) eq_refl) as Hpower.
  cbv zeta in Hback, Hpower.
  change (Button.font_name TopNav.back_button_args) with BUTTON_FONT_NAME in Hback.
  change (Button.font_size TopNav.back_button_args) with BUTTON_FONT_SIZE in Hback.
  change (Button.font_name (TopNav.power_button_args self))
    with BUTTON_FONT_NAME in Hpower.
  change (Button.font_size (TopNav.power_button_args self))
    with BUTTON_FONT_SIZE in Hpower.
  set (back_ok := is_Some (Image_open ("back" +:+ ".png"))
                  ∧ is_Some (Image_open ("back" +:+ "_selected.png"))) in *.
  set (power_ok := is_Some (Image_open ("power" +:+ ".png"))
                   ∧ is_Some (Image_open ("power" +:+ "_selected.png"))) in *.
  assert (back_ok ∨ ¬ back_ok) as Hbd.
  { subst back_ok. destruct (Image_open ("back" +:+ ".png"));
      destruct (Image_open ("back" +:+ "_selected.png"));
      first [by left|right; intros [[? ?] [? ?]]; done]. }
  assert (power_ok ∨ ¬ power_ok) as Hpd.
  { subst power_ok. destruct (Image_open ("power" +:+ ".png"));
      destruct (Image_open ("power" +:+ "_selected.png"));
      first [by left|right; intros [[? ?] [? ?]]; done]. }
  assert (∀ c, c = get_fonts truetype cls
                     [(TopNav.font_name self, TopNav.font_size self)] → c = c0)
    as Hfonts0.
  { intros c ->. unfold get_fonts. lazy beta iota zeta delta [foldl fst snd].
    by rewrite Hfont. }
  destruct (TopNav.show_back_button self);
    cbn [fst snd mbind run_bind].
  - destruct Hbd as [Hok|Hbad].
    + destruct (proj1 (Hback c0 opened) Hok) as [b ->].
      cbn [fst snd mbind run_bind].
      destruct (TopNav.show_power_button self);
        cbn [fst snd mbind run_bind].
      * destruct Hpd as [Hok'|Hbad'].
        -- destruct (proj1 (Hpower
                               (get_font truetype c0 BUTTON_FONT_NAME BUTTON_FONT_SIZE).2
                               (opened ++ ["back" +:+ ".png"; "back" +:+ "_selected.png"]))
                       Hok') as [p ->].
           cbn [fst snd mbind run_bind].
           destruct (calc_text_centering _ _ _ _ _ _ _) as [tx ty].
           cbn [fst snd mbind run_bind].
           split_and!; [done| |].
           ++ split; [done|by eexists].
           ++ intros nav _. split; [by rewrite <- !app_assoc|].
              unfold get_fonts. lazy beta iota zeta delta [foldl app fst snd].
              by rewrite Hfont.
        -- destruct (proj2 (Hpower
                               (get_font truetype c0 BUTTON_FONT_NAME BUTTON_FONT_SIZE).2
                               (opened ++ ["back" +:+ ".png"; "back" +:+ "_selected.png"]))
                       Hbad') as (o & file & ->).
           cbn [fst snd mbind run_bind].
           split_and!; [done| |done].
           split; [by intros [? ?]|]. intros [_ Hp]. by destruct Hbad', Hp.
      * destruct (calc_text_centering _ _ _ _ _ _ _) as [tx ty].
        cbn [fst snd mbind run_bind].
        split_and!; [done| |].
        -- split; [done|by eexists].
        -- intros nav _. split; [by rewrite app_nil_r|].
           unfold get_fonts. lazy beta iota zeta delta [foldl app fst snd].
           by rewrite Hfont.
    + destruct (proj2 (Hback c0 opened) Hbad) as (o & file & ->).
      cbn [fst snd mbind run_bind].
      split_and!; [done| |done].
      split; [by intros [? ?]|]. intros [Hb _]. by destruct Hbad, Hb.
  - destruct (TopNav.show_power_button self);
      cbn [fst snd mbind run_bind].
    + destruct Hpd as [Hok'|Hbad'].
      * destruct (proj1 (Hpower c0 opened) Hok') as [p ->].
        cbn [fst snd mbind run_bind].
        destruct (calc_text_centering _ _ _ _ _ _ _) as [tx ty].
        cbn [fst snd mbind run_bind].
        split_and!; [done| |].
        -- split; [done|by eexists].
        -- intros nav _. split; [done|].
           unfold get_fonts. lazy beta iota zeta delta [foldl app fst snd].
           by rewrite Hfont.
      * destruct (proj2 (Hpower c0 opened) Hbad') as (o & file & ->).
        cbn [fst snd mbind run_bind].
        split_and!; [done| |done].
        split; [by intros [? ?]|]. intros [_ Hp]. by destruct Hbad', Hp.
    + destruct (calc_text_centering _ _ _ _ _ _ _) as [tx ty].
      cbn [fst snd mbind run_bind].
      split_and!; [done| |].
      * split; [done|by eexists].
      * intros nav _. split; [by rewrite app_nil_r|].
        unfold get_fonts. lazy beta iota zeta delta [foldl app fst snd].
        by rewrite Hfont.
Qed.

(** X20. Constructing a TopNav never reads an unassigned attribute. A
    TopNav is constructed only after, for each button it is to show, both
    icon files of that button were opened ("back" and "back_selected",
    "power" and "power_selected"); it has then opened exactly those files,
    back before power, and has looked up the title font and then the button
    font once per shown button. A bar without buttons opens no file. *)
Theorem topnav_construction_outcome truetype Image_open cls opened self :
  let r := TopNav.post_init truetype Image_open cls opened self in
  let present (name : string) :=
    is_Some (Image_open (name +:+ ".png"))
    ∧ is_Some (Image_open (name +:+ "_selected.png")) in
  (∀ name, r.2 ≠ Fails (AttributeError name))
  ∧ (∀ nav,
       r.2 = Done nav →
       (TopNav.show_back_button self = true → present "back")
       ∧ (TopNav.show_power_button self = true → present "power")
       ∧ r.1.2
         = opened
           ++ (if TopNav.show_back_button self
               then ["back.png"; "back_selected.png"] else [])
           ++ (if TopNav.show_power_button self
               then ["power.png"; "power_selected.png"] else [])
       ∧ r.1.1
         = get_fonts truetype cls
             ((TopNav.font_name self, TopNav.font_size self)
              :: (if TopNav.show_back_button self
                  then [(BUTTON_FONT_NAME, BUTTON_FONT_SIZE)] else [])
              ++ (if TopNav.show_power_button self
                  then [(BUTTON_FONT_NAME, BUTTON_FONT_SIZE)] else []))).
Proof.
  cbv zeta.
  destruct (topnav_post_init_outcome truetype Image_open cls opened self)
    as (Hattr & Hiff & Hdone).
  split; [exact Hattr|]. intros nav Hnav.
  destruct (proj1 Hiff (ex_intro _ nav Hnav)) as [Hback Hpower].
  destruct (Hdone nav Hnav) as [Hfiles Hfonts].
  by split_and!.
Qed.

Section TopNavRender.

Variable truetype : string → Z → FontMetrics.
Variable Image_open : string → option Image.t.

(** The two calls a title-bar button makes when rendered. *)
Lemma bar_button_render cls opened (args : Button.init) (name : string)
    cls' opened' b sel :
  Button.text args = None →
  Button.icon_name args = Some name →
  name ≠ "" →
  Button.is_icon_inline args = false →
  Button.post_init truetype Image_open cls opened args = (cls', opened', Done b) →
  ∃ calls,
    Button.render (Button.set_is_selected sel b) = Done calls
    ∧ map call_place calls
      = [(0%nat, [Button.screen_x args; Button.screen_y args;
                  Button.screen_x args + Button.width args;
                  Button.screen_y args + Button.height args; COMPONENT_PADDING]);
         (3%nat, [Button.screen_x args
                  + Z.quot (Button.width args
                            - from_option Image.width 0 (Image_open (name +:+ ".png"))) 2;
                  Button.screen_y args + Button.icon_y_offset args])].
Proof.
  intros Htext Hname Hne Hinline Hrun.
  destruct (bar_button_Done truetype Image_open _ _ _ _ _ _ _
              Htext Hname Hne Hinline Hrun)
    as (ic & ics & Hic & _ & _ & _ & Hself & _ & _ & Hi & His & Hix & Hiy).
  assert (truthy (Button.icon_name args) = true) as Hicon
    by (rewrite Hname; by destruct name).
  pose proof (button_render_calls (Button.set_is_selected sel b) 0 0
                (Button.screen_x args
                 + Z.quot (Button.width args - Image.width ic) 2)
                (Button.screen_y args + Button.icon_y_offset args) ic ics)
    as Hrender.
  cbn [Button.set_is_selected Button.dataclass Button.text_x Button.text_y
       Button.icon Button.icon_selected Button.icon_x Button.icon_y] in Hrender.
  rewrite Hself in Hrender. cbv zeta in Hrender.
  eexists. split.
  - apply Hrender.
    + by rewrite Htext.
    + intros _. by split_and!.
  - cbn [Button.set_is_selected Button.dataclass Button.is_selected
         Button.text Button.icon_name Button.screen_x Button.screen_y
         Button.width Button.height].
    rewrite Htext, Hicon, Hic. by destruct sel.
Qed.

Lemma topnav_render_Done cls opened self cls' opened' nav :
  TopNav.post_init truetype Image_open cls opened self = (cls', opened', Done nav) →
  let sel := TopNav.is_selected self in
  let icon_width (name : string) :=
    from_option Image.width 0 (Image_open (name +:+ ".png")) in
  ∃ calls,
    TopNav.render nav
    = Done ({| TopNav.dataclass := self;
               TopNav.font := TopNav.font nav;
               TopNav.back_button :=
                 Button.set_is_selected sel <$> TopNav.back_button nav;
               TopNav.power_button :=
                 Button.set_is_selected sel <$> TopNav.power_button nav;
               TopNav.text_x := TopNav.text_x nav;
               TopNav.text_y := TopNav.text_y nav |}, calls)
    ∧ (is_Some (TopNav.back_button nav) ↔ TopNav.show_back_button self = true)
    ∧ (is_Some (TopNav.power_button nav) ↔ TopNav.show_power_button self = true)
    ∧ map call_place calls
      = [(1%nat, [0; 0; TopNav.width self; TopNav.height self])]
        ++ (if TopNav.show_back_button self
            then [(0%nat, [EDGE_PADDING; EDGE_PADDING;
                           EDGE_PADDING + TopNav.button_width;
                           EDGE_PADDING + TopNav.button_width; COMPONENT_PADDING]);
                  (3%nat, [EDGE_PADDING
                           + Z.quot (TopNav.button_width - icon_width "back") 2;
                           EDGE_PADDING + 4])]
            else [])
        ++ (if TopNav.show_power_button self
            then [(0%nat, [TopNav.width self - TopNav.button_width - EDGE_PADDING;
                           EDGE_PADDING;
                           TopNav.width self - TopNav.button_width - EDGE_PADDING
                           + TopNav.button_width;
                           EDGE_PADDING + TopNav.button_width; COMPONENT_PADDING]);
                  (3%nat, [TopNav.width self - TopNav.button_width - EDGE_PADDING
                           + Z.quot (TopNav.button_width - icon_width "power") 2;
                           EDGE_PADDING + 4])]
            else [])
        ++ [(2%nat, [TopNav.text_x nav; TopNav.text_y nav])].
Proof.
  intros Hrun. cbv zeta.
  apply topnav_post_init_Done in Hrun
    as (c1 & o1 & Hself & _ & _ & Hback & Hpower).
  unfold TopNav.render. rewrite Hself.
  destruct (TopNav.show_back_button self).
  - destruct Hback as (b & Hb & Hbrun). rewrite Hb. simpl.
    destruct (bar_button_render _ _ TopNav.back_button_args "back" _ _ b
                (TopNav.is_selected self) eq_refl eq_refl ltac:(done) eq_refl Hbrun)
      as (bcalls & -> & Hbplaces). simpl.
    destruct (TopNav.show_power_button self).
    + destruct Hpower as (p & Hp & Hprun). rewrite Hp. simpl.
      destruct (bar_button_render _ _ (TopNav.power_button_args self) "power" _ _ p
                  (TopNav.is_selected self) eq_refl eq_refl ltac:(done) eq_refl Hprun)
        as (pcalls & -> & Hpplaces). simpl.
      eexists. split; [done|]. split; [by split; [|eexists]|].
      split; [by split; [|eexists]|].
      rewrite ?map_cons, ?map_app, Hbplaces, Hpplaces. done.
    + destruct Hpower as (Hp & _). rewrite Hp. simpl.
      eexists. split; [done|]. split; [by split; [|eexists]|].
      split; [by split; [intros [? ?]|]|].
      rewrite ?map_cons, ?map_app, Hbplaces. done.
  - destruct Hback as (Hb & _). rewrite Hb. simpl.
    destruct (TopNav.show_power_button self).
    + destruct Hpower as (p & Hp & Hprun). rewrite Hp. simpl.
      destruct (bar_button_render _ _ (TopNav.power_button_args self) "power" _ _ p
                  (TopNav.is_selected self) eq_refl eq_refl ltac:(done) eq_refl Hprun)
        as (pcalls & -> & Hpplaces). simpl.
      eexists. split; [done|]. split; [by split; [intros [? ?]|]|].
      split; [by split; [|eexists]|].
      rewrite ?map_cons, ?map_app, Hpplaces. done.
    + destruct Hpower as (Hp & _). rewrite Hp. simpl.
      eexists. split; [done|]. split; [by split; [intros [? ?]|]|].
      split; [by split; [intros [? ?]|]|]. done.
Qed.

End TopNavRender.

Lemma topnav_construction_outcome_witness :
  let self := TopNav_new "Settings" 240 48 true true false in
  let r := TopNav.post_init fixed_pitch icons_24 Fonts_initial [] self in
  (∃ nav, r.2 = Done nav)
  ∧ r.1.2 = ["back.png"; "back_selected.png"; "power.png"; "power_selected.png"]
  ∧ loaded r.1.1
    = [("OpenSans-SemiBold", 19); ("OpenSans-SemiBold", 18)]
  ∧ ∀ name, r.2 ≠ Fails (AttributeError name).
Proof.
  cbv zeta. split; [vm_compute; eexists; reflexivity|].
  split; [vm_compute; reflexivity|]. split; [vm_compute; reflexivity|].
  exact (proj1 (topnav_construction_outcome fixed_pitch icons_24 Fonts_initial []
                  (TopNav_new "Settings" 240 48 true true false))).
Defined.



(** X22. [selected_button] against what [render] shows. Rendering a
    constructed TopNav copies the bar's selection to every button it shows,
    and [selected_button] returns a code exactly when at least one button is
    then highlighted. When both buttons are shown and the bar is selected,
    both are highlighted but the code returned is the back button's. *)
Theorem selected_button_and_highlight truetype Image_open
    (RET_CODE__BACK_BUTTON RET_CODE__POWER_BUTTON : Z)
    cls opened self cls' opened' nav :
  TopNav.post_init truetype Image_open cls opened self = (cls', opened', Done nav) →
  ∃ nav' calls,
    TopNav.render nav = Done (nav', calls)
    ∧ (∀ b,
         TopNav.back_button nav' = Some b ∨ TopNav.power_button nav' = Some b →
         Button.is_selected (Button.dataclass b) = TopNav.is_selected self)
    ∧ (is_Some (TopNav.selected_button RET_CODE__BACK_BUTTON RET_CODE__POWER_BUTTON nav)
       ↔ ∃ b,
           (TopNav.back_button nav' = Some b ∨ TopNav.power_button nav' = Some b)
           ∧ Button.is_selected (Button.dataclass b) = true)
    ∧ (TopNav.is_selected self = true →
       TopNav.show_back_button self = true →
       TopNav.selected_button RET_CODE__BACK_BUTTON RET_CODE__POWER_BUTTON nav
       = Some RET_CODE__BACK_BUTTON
       ∧ (TopNav.show_power_button self = true →
          ∃ b p,
            TopNav.back_button nav' = Some b ∧ TopNav.power_button nav' = Some p
            ∧ Button.is_selected (Button.dataclass b) = true
            ∧ Button.is_selected (Button.dataclass p) = true)).
Proof.
  intros Hrun.
  destruct (topnav_render_Done truetype Image_open _ _ _ _ _ _ Hrun)
    as (calls & Hrender & Hback & Hpower & _).
  apply topnav_post_init_Done in Hrun as (_ & _ & Hself & _).
  eexists _, calls. split; [exact Hrender|].
  cbn [TopNav.back_button TopNav.power_button].
  unfold TopNav.selected_button. rewrite Hself.
  assert (∀ b,
    Button.set_is_selected (TopNav.is_selected self) <$> TopNav.back_button nav
    = Some b
    ∨ Button.set_is_selected (TopNav.is_selected self) <$> TopNav.power_button nav
      = Some b →
    Button.is_selected (Button.dataclass b) = TopNav.is_selected self) as Hcopy.
  { by intros b [(x & _ & ->)%fmap_Some|(x & _ & ->)%fmap_Some]. }
  split; [exact Hcopy|].
  destruct (TopNav.is_selected self); cbn [negb].
  - split.
    + destruct (TopNav.show_back_button self).
      * destruct (proj2 Hback eq_refl) as [b ->].
        split; [|by eexists]. intros _. eexists. split; [by left|done].
      * destruct (TopNav.show_power_button self).
        -- destruct (proj2 Hpower eq_refl) as [p ->].
           split; [|by eexists]. intros _. eexists. split; [by right|done].
        -- split; [by intros [? ?]|].
           intros (b & [(x & Hx & _)%fmap_Some|(x & Hx & _)%fmap_Some] & _).
           ++ discriminate (proj1 Hback (ex_intro _ x Hx)).
           ++ discriminate (proj1 Hpower (ex_intro _ x Hx)).
    + intros _ Hshow. rewrite Hshow. split; [done|]. intros Hshow'.
      destruct (proj2 Hback Hshow) as [b ->].
      destruct (proj2 Hpower Hshow') as [p ->].
      by eexists _, _.
  - split; [|done]. split; [by intros [? ?]|].
    intros (b & Hb & Hsel). by rewrite (Hcopy b Hb) in Hsel.
Qed.

Lemma selected_button_and_highlight_witness :
  let self := TopNav_new "Settings" 240 48 true true true in
  ∃ nav nav' calls,
    (TopNav.post_init fixed_pitch icons_24 Fonts_initial [] self).2 = Done nav
    ∧ TopNav.render nav = Done (nav', calls)
    ∧ TopNav.selected_button 1000 1001 nav = Some 1000
    ∧ ∀ b,
        TopNav.back_button nav' = Some b ∨ TopNav.power_button nav' = Some b →
        Button.is_selected (Button.dataclass b) = true.
Proof.
  cbv zeta.
  destruct (TopNav.post_init fixed_pitch icons_24 Fonts_initial []
              (TopNav_new "Settings" 240 48 true true true))
    as [[cls' opened'] r] eqn:Hrun.
  assert (∃ nav, r = Done nav) as [nav ->].
  { apply (f_equal snd) in Hrun. simpl in Hrun. rewrite <- Hrun.
    vm_compute. eexists. reflexivity. }
  destruct (selected_button_and_highlight fixed_pitch icons_24 1000 1001
              Fonts_initial [] (TopNav_new "Settings" 240 48 true true true)
              _ _ nav Hrun)
    as (nav' & calls & Hrender & Hcopy & _ & Hback).
  exists nav, nav', calls. split; [reflexivity|]. split; [exact Hrender|].
  split; [exact (proj1 (Hback eq_refl eq_refl))|exact Hcopy].
Defined.
